(** * mett: a shallow embedding of the editor core (src/mett.c)

    The buffer and line data model, the line editor, the cursor and
    viewport engine and the command interpreter of [mett.c], written as
    Rocq functions, with the properties of the specification stated and
    settled against them.

    Modelling conventions.
    - [int] values are integers of [Z]. Signed overflow is undefined in C,
      so there is no wrap-around to write out; the conversions that change
      a value are written out: [long] to [int] in [mruncmd], [wint_t] to
      [wchar_t] and to [int] for a key, [int] to [wint_t] in [insert].
    - A wide string is the content of an array of wide characters: the
      array is a [list Z] whose length is the allocated capacity, and the
      string ends at the first zero. Every access outside the array makes
      the operation undefined: the model returns [None].
    - [memcpy] is used by the source on overlapping ranges of one array;
      it is modelled as a copy of the source range as it was before the
      call (the behaviour the code relies on).
    - The doubly linked list of a buffer's lines is a [list]; a pointer to
      a line is its position. The head pointer [lines] is position 0.
    - Buffer structures are never released by the source ([mfreebuf] only
      unlinks them), so they live in a store that only grows; a pointer to
      a buffer is its index, [None] is the null pointer.
    - Allocation is assumed to succeed.
    - [mruncmd] keeps a pointer into the text of the command line while
      the actions run. When that text is in the command buffer and an
      action that edits the current buffer runs on the command buffer,
      the text, or the line that holds it, may change under the loop; the
      model does not follow the program there and gives [None] as well.
    - [config.h] is not part of the sources: its constants and its action
      table are the fields of [Config.t]. *)

From Stdlib Require Import ZArith Lia Ascii.
From stdpp Require Import base option list gmap strings.

Open Scope Z_scope.

(** ** Enumerations and structures *)

Inductive Mode := MODE_NORMAL | MODE_INSERT | MODE_SELECT | MODE_COMMAND.

Inductive Marker := MARKER_START | MARKER_MIDDLE | MARKER_END.

#[global] Instance Mode_eq_dec : EqDecision Mode.
Proof. solve_decision. Defined.

#[global] Instance Marker_eq_dec : EqDecision Marker.
Proof. solve_decision. Defined.

Module Coord.
Record t := mk { x : Z; y : Z }.
End Coord.

Module Cursor.
Record t := mk {
  c : Coord.t;      (* cursor coordinate *)
  v0 : Coord.t;     (* visual selection start *)
  v1 : Coord.t;     (* visual selection end *)
  starty : Z
}.
End Cursor.

Module Line.
(** [next] and [prev] are the neighbours in the buffer's list. *)
Record t := mk {
  length : Z;
  data : list Z
}.
End Line.

(** A pointer to a buffer. *)
Definition ptr := option nat.

Module Buffer.
Record t := mk {
  next : ptr;
  prev : ptr;
  path : option string;
  lines : list Line.t;
  curline : nat;
  cursor : Cursor.t;
  linexoff : Z
}.
End Buffer.

(** The bindable functions an [Action] can point to. *)
Inductive Fn :=
  | fn_repaint | fn_handlemouse | fn_quit | fn_setmode | fn_save
  | fn_readfile | fn_readstr | fn_find | fn_command | fn_motion | fn_jump
  | fn_coc | fn_pgup | fn_pgdown | fn_bufsel | fn_bufdel | fn_insert
  | fn_freeln | fn_append | fn_newln.

(** [union Arg]: the variant in use is explicit. [ArgV] holds a narrow
    string (or a null pointer), [ArgW] the wide string [command] expects. *)
Inductive Arg :=
  | ArgXY (x y : Z)
  | ArgI (i : Z)
  | ArgV (v : option string)
  | ArgW (w : list Z)
  | ArgM (m : Marker).

Module Action.
Record t := mk {
  cmd : option (list Z);
  key : Z;
  fn : Fn;
  arg : Arg
}.
End Action.

#[global] Instance Fn_eq_dec : EqDecision Fn.
Proof. solve_decision. Defined.

#[global] Instance Arg_eq_dec : EqDecision Arg.
Proof. solve_decision. Defined.

#[global] Instance Action_eq_dec : EqDecision Action.t.
Proof. solve_decision. Defined.

(** The constants and the table of [config.h]. *)
Module Config.
Record t := mk {
  default_linebuf_size : Z;
  tab_width : Z;
  auto_indent : bool;
  max_cmd_repetition : Z;
  backup_on_write : bool;
  backup_path : string;
  ESC : Z;
  buffer_actions : list Action.t
}.
End Config.

(** The files the process can see: content by path (a path that is absent
    cannot be opened for reading), the paths that cannot be opened for
    writing, and what is left to read on standard input. File content is
    the sequence of wide characters the stream functions deliver. *)
Module Files.
Record t := mk {
  content : gmap string (list Z);
  unwritable : gset string;
  stdin : list Z
}.
End Files.

(** The global variables of the program, the size [getmaxyx] reports for
    [bufwin], the files, and whether the process has called [exit]. *)
Module Editor.
Record t := mk {
  mode : Mode;
  bufs : list Buffer.t;
  buflist : ptr;
  curbuf : ptr;
  cmdbuf : ptr;
  repcnt : Z;
  bufwin_row : Z;
  bufwin_col : Z;
  files : Files.t;
  exited : bool
}.
End Editor.

(** ** Key codes and characters *)

Definition KEY_BACKSPACE : Z := 263.   (* 0407 *)
Definition KEY_DC : Z := 330.          (* 0512 *)
Definition NEWLINE : Z := 10.
Definition TAB : Z := 9.
Definition SPACE : Z := 32.

(** sizeof(Line) and sizeof(wchar_t) on an LP64 platform. *)
Definition sizeof_Line : Z := 24.
Definition sizeof_wchar_t : Z := 4.

(** ** Field updates *)

Definition set_x (v : Z) (b : Buffer.t) : Buffer.t :=
  let cu := Buffer.cursor b in
  Buffer.mk (Buffer.next b) (Buffer.prev b) (Buffer.path b) (Buffer.lines b)
    (Buffer.curline b)
    (Cursor.mk (Coord.mk v (Coord.y (Cursor.c cu))) (Cursor.v0 cu)
       (Cursor.v1 cu) (Cursor.starty cu))
    (Buffer.linexoff b).

Definition set_y (v : Z) (b : Buffer.t) : Buffer.t :=
  let cu := Buffer.cursor b in
  Buffer.mk (Buffer.next b) (Buffer.prev b) (Buffer.path b) (Buffer.lines b)
    (Buffer.curline b)
    (Cursor.mk (Coord.mk (Coord.x (Cursor.c cu)) v) (Cursor.v0 cu)
       (Cursor.v1 cu) (Cursor.starty cu))
    (Buffer.linexoff b).

Definition set_starty (v : Z) (b : Buffer.t) : Buffer.t :=
  let cu := Buffer.cursor b in
  Buffer.mk (Buffer.next b) (Buffer.prev b) (Buffer.path b) (Buffer.lines b)
    (Buffer.curline b)
    (Cursor.mk (Cursor.c cu) (Cursor.v0 cu) (Cursor.v1 cu) v)
    (Buffer.linexoff b).

Definition set_curline (i : nat) (b : Buffer.t) : Buffer.t :=
  Buffer.mk (Buffer.next b) (Buffer.prev b) (Buffer.path b) (Buffer.lines b)
    i (Buffer.cursor b) (Buffer.linexoff b).

Definition set_lines (ls : list Line.t) (b : Buffer.t) : Buffer.t :=
  Buffer.mk (Buffer.next b) (Buffer.prev b) (Buffer.path b) ls
    (Buffer.curline b) (Buffer.cursor b) (Buffer.linexoff b).

Definition set_path (p : option string) (b : Buffer.t) : Buffer.t :=
  Buffer.mk (Buffer.next b) (Buffer.prev b) p (Buffer.lines b)
    (Buffer.curline b) (Buffer.cursor b) (Buffer.linexoff b).

Definition set_next (p : ptr) (b : Buffer.t) : Buffer.t :=
  Buffer.mk p (Buffer.prev b) (Buffer.path b) (Buffer.lines b)
    (Buffer.curline b) (Buffer.cursor b) (Buffer.linexoff b).

Definition set_prev (p : ptr) (b : Buffer.t) : Buffer.t :=
  Buffer.mk (Buffer.next b) p (Buffer.path b) (Buffer.lines b)
    (Buffer.curline b) (Buffer.cursor b) (Buffer.linexoff b).

Definition set_linexoff (v : Z) (b : Buffer.t) : Buffer.t :=
  Buffer.mk (Buffer.next b) (Buffer.prev b) (Buffer.path b) (Buffer.lines b)
    (Buffer.curline b) (Buffer.cursor b) v.

Definition set_data (d : list Z) (ln : Line.t) : Line.t :=
  Line.mk (Line.length ln) d.

Definition set_length (n : Z) (ln : Line.t) : Line.t :=
  Line.mk n (Line.data ln).

Definition set_mode (m : Mode) (e : Editor.t) : Editor.t :=
  Editor.mk m (Editor.bufs e) (Editor.buflist e) (Editor.curbuf e)
    (Editor.cmdbuf e) (Editor.repcnt e) (Editor.bufwin_row e)
    (Editor.bufwin_col e) (Editor.files e) (Editor.exited e).

Definition set_bufs (bs : list Buffer.t) (e : Editor.t) : Editor.t :=
  Editor.mk (Editor.mode e) bs (Editor.buflist e) (Editor.curbuf e)
    (Editor.cmdbuf e) (Editor.repcnt e) (Editor.bufwin_row e)
    (Editor.bufwin_col e) (Editor.files e) (Editor.exited e).

Definition set_buflist (p : ptr) (e : Editor.t) : Editor.t :=
  Editor.mk (Editor.mode e) (Editor.bufs e) p (Editor.curbuf e)
    (Editor.cmdbuf e) (Editor.repcnt e) (Editor.bufwin_row e)
    (Editor.bufwin_col e) (Editor.files e) (Editor.exited e).

Definition set_curbuf (p : ptr) (e : Editor.t) : Editor.t :=
  Editor.mk (Editor.mode e) (Editor.bufs e) (Editor.buflist e) p
    (Editor.cmdbuf e) (Editor.repcnt e) (Editor.bufwin_row e)
    (Editor.bufwin_col e) (Editor.files e) (Editor.exited e).

Definition set_repcnt (n : Z) (e : Editor.t) : Editor.t :=
  Editor.mk (Editor.mode e) (Editor.bufs e) (Editor.buflist e)
    (Editor.curbuf e) (Editor.cmdbuf e) n (Editor.bufwin_row e)
    (Editor.bufwin_col e) (Editor.files e) (Editor.exited e).

Definition set_cmdbuf (p : ptr) (e : Editor.t) : Editor.t :=
  Editor.mk (Editor.mode e) (Editor.bufs e) (Editor.buflist e)
    (Editor.curbuf e) p (Editor.repcnt e) (Editor.bufwin_row e)
    (Editor.bufwin_col e) (Editor.files e) (Editor.exited e).

Definition set_exited (v : bool) (e : Editor.t) : Editor.t :=
  Editor.mk (Editor.mode e) (Editor.bufs e) (Editor.buflist e)
    (Editor.curbuf e) (Editor.cmdbuf e) (Editor.repcnt e)
    (Editor.bufwin_row e) (Editor.bufwin_col e) (Editor.files e) v.

Definition set_files (f : Files.t) (e : Editor.t) : Editor.t :=
  Editor.mk (Editor.mode e) (Editor.bufs e) (Editor.buflist e)
    (Editor.curbuf e) (Editor.cmdbuf e) (Editor.repcnt e)
    (Editor.bufwin_row e) (Editor.bufwin_col e) f (Editor.exited e).

(** The column and the row of a buffer's cursor, and its scroll offset. *)
Definition cur_x (b : Buffer.t) : Z := Coord.x (Cursor.c (Buffer.cursor b)).
Definition cur_y (b : Buffer.t) : Z := Coord.y (Cursor.c (Buffer.cursor b)).
Definition cur_starty (b : Buffer.t) : Z := Cursor.starty (Buffer.cursor b).

(** [*p] and [*p = b] on the buffer store. Reading through the null
    pointer is undefined. *)
Definition getbuf (e : Editor.t) (p : ptr) : option Buffer.t :=
  i ← p; Editor.bufs e !! i.

Definition setbuf (e : Editor.t) (i : nat) (b : Buffer.t) : Editor.t :=
  set_bufs (<[i := b]> (Editor.bufs e)) e.

(** ** Arrays of wide characters *)

(** [d[i]] *)
Definition load (d : list Z) (i : Z) : option Z :=
  if decide (0 ≤ i) then d !! Z.to_nat i else None.

(** [d[i] = v] *)
Definition store (d : list Z) (i v : Z) : option (list Z) :=
  if decide (0 ≤ i < Z.of_nat (length d))
  then Some (<[Z.to_nat i := v]> d) else None.

(** [memcpy(dst + di, src + si, n * sizeof(wchar_t))] *)
Definition memcpy (dst : list Z) (di : Z) (src : list Z) (si n : Z)
  : option (list Z) :=
  if decide (0 ≤ di ∧ 0 ≤ si ∧ 0 ≤ n
             ∧ di + n ≤ Z.of_nat (length dst)
             ∧ si + n ≤ Z.of_nat (length src))
  then Some (take (Z.to_nat di) dst
             ++ take (Z.to_nat n) (drop (Z.to_nat si) src)
             ++ drop (Z.to_nat (di + n)) dst)
  else None.

(** The string an array holds: the characters before the first zero.
    An array without a zero holds no string. *)
Fixpoint wcs (d : list Z) : option (list Z) :=
  match d with
  | [] => None
  | ch :: r => if decide (ch = 0) then Some [] else cons ch <$> wcs r
  end.

Definition wcslen (d : list Z) : option Z :=
  (λ s, Z.of_nat (length s)) <$> wcs d.

(** [calloc] of an array of [n] wide characters. *)
Definition zeros (n : Z) : list Z := replicate (Z.to_nat n) 0.

(** The string at the head of a record that a terminator follows: the
    characters before the first zero, all of them when there is none. *)
Fixpoint upto_nul (l : list Z) : list Z :=
  match l with
  | [] => []
  | ch :: r => if decide (ch = 0) then [] else ch :: upto_nul r
  end.

(** A [wint_t] (32 bits, unsigned, so from 0 to [2^32 - 1]) assigned to a
    [wchar_t] (32 bits, signed): the values from [2^31] on become
    negative. *)
Definition wchar_of_wint (key : Z) : Z :=
  if decide (2 ^ 31 ≤ key < 2 ^ 32) then key - 2 ^ 32 else key.

(** An [int] passed as a [wint_t]. *)
Definition wint_of_int (i : Z) : Z := i `mod` 2 ^ 32.

(** ** min and max *)

Definition min (a b : Z) : Z := if decide (a < b) then a else b.
Definition max (a b : Z) : Z := if decide (a > b) then a else b.

(** ** Buffers and lines *)

Section Core.

Variable cfg : Config.t.

(** [iswspace] of the C library, which depends on the locale. *)
Variable iswspace : Z → bool.

(** The command interpreter [mruncmd], defined further down: the actions
    it runs call [minsert] again, so [minsert] takes it as an argument. *)
Variable runcmd : Editor.t → list Z → option Editor.t.

(** The number of wide characters of the [data] array of a line
    allocated as [calloc(sizeof(wchar_t), sizeof(Line)+default_linebuf_size)]. *)
Definition new_line_capacity : Z :=
  (sizeof_wchar_t * (sizeof_Line + Config.default_linebuf_size cfg)
   - sizeof_Line) ÷ sizeof_wchar_t.

Definition mnewbuf (e : Editor.t) : Editor.t * ptr :=
  (* Create new buffer and insert at start of the list *)
  let next := Editor.buflist e in
  let p := length (Editor.bufs e) in
  (* Every buffer has at least one line *)
  let ln := Line.mk (Config.default_linebuf_size cfg) (zeros new_line_capacity) in
  let b := Buffer.mk next None None [ln] 0%nat
             (Cursor.mk (Coord.mk 0 0) (Coord.mk 0 0) (Coord.mk 0 0) 0) 4 in
  let bs := Editor.bufs e ++ [b] in
  let bs := match next with
            | Some n => alter (set_prev (Some p)) n bs
            | None => bs
            end in
  (set_buflist (Some p) (set_bufs bs e), Some p).

Definition mfreebuf (e : Editor.t) (buf : ptr) : option Editor.t :=
  match buf with
  | None => Some e
  | Some p =>
      b ← Editor.bufs e !! p;
      (* the path is released; the field keeps its (dangling) value *)
      e1 ← match Buffer.prev b with
           | Some q =>
               bq ← Editor.bufs e !! q;
               Some (setbuf e q (set_next (Buffer.next b) bq))
           | None => Some e
           end;
      e2 ← match Buffer.next b with
           | Some q =>
               bq ← Editor.bufs e1 !! q;
               Some (setbuf e1 q (set_prev (Buffer.prev b) bq))
           | None => Some e1
           end;
      Some (if decide (Editor.curbuf e2 = Some p)
            then set_curbuf (Buffer.next b) e2 else e2)
  end.

(** [fgetws(buf, n, fp)]: at most [n-1] characters, up to and including
    the first newline; the result is the record and the rest of the
    stream, or [None] at the end of the stream. *)
Fixpoint fgetws_chars (n : nat) (stream : list Z) : list Z * list Z :=
  match n, stream with
  | O, _ => ([], stream)
  | S _, [] => ([], [])
  | S k, ch :: r =>
      if decide (ch = NEWLINE) then ([ch], r)
      else let '(rec, rest) := fgetws_chars k r in (ch :: rec, rest)
  end.

Definition fgetws (n : Z) (stream : list Z) : option (list Z * list Z) :=
  match fgetws_chars (Z.to_nat (n - 1)) stream with
  | ([], _) => None
  | (rec, rest) => Some (rec, rest)
  end.

(** [wcsncpy(dst, src, n)] for a source string [s]: the string, then
    zeros up to [n] characters. *)
Definition wcsncpy (dst : list Z) (s : list Z) (n : Z) : option (list Z) :=
  let src := take (Z.to_nat n) (s ++ replicate (Z.to_nat n) 0) in
  memcpy dst 0 src 0 n.

(** The loop of [mreadbuf]. [ln] is the line being filled, [done] the
    lines before it, in reverse. The stream gets shorter with each
    record, so its length is enough fuel. *)
Fixpoint mreadbuf_loop (fuel : nat) (stream : list Z) (done : list Line.t)
    (ln : Line.t) : option (list Line.t) :=
  match fuel with
  | O => Some (reverse (ln :: done))
  | S fuel' =>
      match fgetws (Config.default_linebuf_size cfg) stream with
      | None => Some (reverse (ln :: done))
      | Some (linecnt, rest) =>
          (* [wcslen] and [wcsncpy] stop at the first zero of the record *)
          let str := upto_nul linecnt in
          let len := Z.of_nat (length str) in
          d ← wcsncpy (Line.data ln) str (Config.default_linebuf_size cfg);
          d ← store d (len - 1) 0;
          let fresh := Line.mk 0 (zeros (Config.default_linebuf_size cfg)) in
          let ln' := Line.mk (Config.default_linebuf_size cfg) d in
          mreadbuf_loop fuel' rest (ln' :: done) fresh
      end
  end.

(** [fopen(path, "r")], with [-] standing for the standard input. *)
Definition open_read (e : Editor.t) (path : string) : option (list Z) :=
  if decide (path = "-"%string) then Some (Files.stdin (Editor.files e))
  else Files.content (Editor.files e) !! path.

(** The result is the new state and the value returned. When records are
    read, the list is rebuilt from the head line; a current line other
    than the head would be left outside the list, which no caller does
    (callers pass a buffer fresh from [mnewbuf]) and the model excludes. *)
Definition mreadbuf (e : Editor.t) (buf : ptr) (path : string)
  : option (Editor.t * Z) :=
  p ← buf;
  b ← Editor.bufs e !! p;
  b1 ← match open_read e path with
       | Some stream =>
           match fgetws (Config.default_linebuf_size cfg) stream with
           | None => Some b
           | Some _ =>
               ln ← head (Buffer.lines b);
               guard (Buffer.curline b = 0%nat);;
               ls ← mreadbuf_loop (length stream) stream [] ln;
               Some (set_lines ls b)
           end
       | None => Some b
       end;
  let e1 := if decide (path = "-"%string)
            then set_files (Files.mk (Files.content (Editor.files e))
                              (Files.unwritable (Editor.files e)) [])
                   e
            else e in
  Some (setbuf e1 p (set_path (Some path) b1), 1).

(** The loop releases each line after the first, and then reads
    [ln->next] from the line it has just released: with a second line the
    behaviour is undefined. *)
Definition mclearbuf (e : Editor.t) (buf : ptr) : option Editor.t :=
  p ← buf;
  b ← Editor.bufs e !! p;
  ln ← head (Buffer.lines b);
  guard (length (Buffer.lines b) ≤ 1)%nat;;
  d ← store (Line.data ln) 0 0;
  Some (setbuf e p (set_curline 0 (set_lines [set_data d ln] b))).

Definition mnumlines (e : Editor.t) (buf : ptr) : Z :=
  match getbuf e buf with
  | None => 0
  | Some b => Z.of_nat (length (Buffer.lines b))
  end.

Definition mnumvislines (e : Editor.t) (ln : Line.t) : option Z :=
  (* How many 'visual lines' will be needed in order to display 'ln'? *)
  l ← wcslen (Line.data ln);
  let col := Editor.bufwin_col e in
  let len := l + 4 in
  Some (if decide (col ≠ 0) then (len + col - 1) ÷ col else 1).

(** [for (; i < bound; ++i) d[i] = ch;] run for [count] rounds *)
Fixpoint fill (d : list Z) (i : Z) (count : nat) (ch : Z) : option (list Z) :=
  match count with
  | O => Some d
  | S k => d' ← store d i ch; fill d' (i + 1) k ch
  end.

Definition mindent (ln : Line.t) (n : Z) : option (Line.t * Z) :=
  guard (Config.tab_width cfg ≠ 0);;
  let tabs := n ÷ Config.tab_width cfg in
  let spaces := Z.rem n (Config.tab_width cfg) in
  (* for (i = 0; i < tabs; ++i) *)
  d ← fill (Line.data ln) 0 (Z.to_nat tabs) TAB;
  let i := Z.max 0 tabs in
  (* for (; i < spaces; ++i) *)
  d ← fill d i (Z.to_nat (spaces - i)) SPACE;
  Some (set_data d ln, tabs + spaces).

(** Unlinking and releasing the line at position [i]. *)
Definition mfreeln (ls : list Line.t) (i : nat) : list Line.t :=
  delete i ls.

(** The two loops of [mmove], on the buffer [buf] points to. *)
Fixpoint mmove_up (e : Editor.t) (n : nat) (b : Buffer.t) : option Buffer.t :=
  match n with
  | O => Some b
  | S n' =>
      _ ← Buffer.lines b !! Buffer.curline b;
      if decide (0 < Buffer.curline b)%nat then
        let b := set_curline (Buffer.curline b - 1) b in
        let b := set_y (cur_y b - 1) b in
        b ← (if decide (cur_y b < cur_starty b) then
               (* Scroll the view up *)
               ln ← Buffer.lines b !! Buffer.curline b;
               v ← mnumvislines e ln;
               Some (set_starty (cur_starty b - v) b)
             else Some b);
        mmove_up e n' b
      else Some b
  end.

Fixpoint mmove_down (e : Editor.t) (n : nat) (b : Buffer.t) : option Buffer.t :=
  match n with
  | O => Some b
  | S n' =>
      _ ← Buffer.lines b !! Buffer.curline b;
      if decide (Buffer.curline b + 1 < length (Buffer.lines b))%nat then
        let b := set_curline (Buffer.curline b + 1) b in
        let b := set_y (cur_y b + 1) b in
        b ← (if decide (Editor.bufwin_row e ≤ cur_y b - cur_starty b) then
               (* Scroll the view down *)
               ln ← Buffer.lines b !! Buffer.curline b;
               v ← mnumvislines e ln;
               Some (set_starty (cur_starty b + v) b)
             else Some b);
        mmove_down e n' b
      else Some b
  end.

Definition mmove_buffer (e : Editor.t) (b : Buffer.t) (x y : Z)
  : option Buffer.t :=
  (* left / right *)
  let b := set_x (cur_x b + x) b in
  (* up / down *)
  b ← (if decide (y < 0) then mmove_up e (Z.to_nat (Z.abs y)) b
       else mmove_down e (Z.to_nat y) b);
  (* Restrict cursor to line content *)
  ln ← Buffer.lines b !! Buffer.curline b;
  len ← wcslen (Line.data ln);
  Some (set_x (max (min (cur_x b) len) 0) b).

Definition mmove (e : Editor.t) (buf : ptr) (x y : Z) : option Editor.t :=
  p ← buf;
  b ← Editor.bufs e !! p;
  b' ← mmove_buffer e b x y;
  Some (setbuf e p b').

(** The source reads and writes [curbuf], whatever [buf] is. *)
Definition mjump (e : Editor.t) (buf : ptr) (mark : Marker) : option Editor.t :=
  p ← Editor.curbuf e;
  cb ← Editor.bufs e !! p;
  match mark with
  | MARKER_START => Some (setbuf e p (set_x 0 cb))
  | MARKER_MIDDLE =>
      ln ← Buffer.lines cb !! Buffer.curline cb;
      len ← wcslen (Line.data ln);
      Some (setbuf e p (set_x (len ÷ 2) cb))
  | MARKER_END =>
      ln ← Buffer.lines cb !! Buffer.curline cb;
      len ← wcslen (Line.data ln);
      Some (setbuf e p (set_x (max len 0) cb))
  end.

Definition mselect (e : Editor.t) (buf : ptr) (x1 y1 x2 y2 : Z) : Editor.t := e.

(** The scan of [minsert] that measures the indentation:
    [for (x = mx = 0; x < idx; ++x)], run from [x] for [count] rounds. *)
Fixpoint indent_scan (d : list Z) (x mx : Z) (count : nat) : option Z :=
  match count with
  | O => Some mx
  | S k =>
      ch ← load d x;
      if decide (ch = TAB) then indent_scan d (x + 1) (mx + Config.tab_width cfg) k
      else if iswspace ch then indent_scan d (x + 1) (mx + 1) k
      else Some mx
  end.

Definition minsert (e : Editor.t) (buf : ptr) (key : Z) : option Editor.t :=
  match buf with
  | None => Some e
  | Some p =>
    b ← Editor.bufs e !! p;
    match Buffer.lines b !! Buffer.curline b with
    | None => Some e
    | Some ln =>
      let cur := Buffer.curline b in
      let idx := cur_x b in
      l ← wcslen (Line.data ln);
      let len := l + 1 in
      if decide (key = KEY_BACKSPACE) then
        if decide (idx ≠ 0) then
          d ← memcpy (Line.data ln) (idx - 1) (Line.data ln) idx len;
          let b := set_lines (<[cur := set_data d ln]> (Buffer.lines b)) b in
          Some (setbuf e p (set_x (cur_x b - 1) b))
        else if decide (0 < cur)%nat then
          lp ← Buffer.lines b !! (cur - 1)%nat;
          plen ← wcslen (Line.data lp);
          d ← memcpy (Line.data lp) plen (Line.data ln) 0 len;
          let b := set_lines (<[(cur - 1)%nat := set_data d lp]> (Buffer.lines b)) b in
          let e := setbuf e p b in
          e ← mmove e (Some p) (plen + cur_x b) (-1);
          b ← Editor.bufs e !! p;
          let b := set_curline (cur - 1) b in
          let b := set_lines (mfreeln (Buffer.lines b) cur) b in
          Some (setbuf e p b)
        else Some e
      else if decide (key = KEY_DC) then
        d ← memcpy (Line.data ln) idx (Line.data ln) (idx + 1) len;
        let b := set_lines (<[cur := set_data d ln]> (Buffer.lines b)) b in
        Some (setbuf e p b)
      else if decide (key = NEWLINE) then
        if decide (Editor.mode e = MODE_COMMAND) then
          cb ← getbuf e (Editor.cmdbuf e);
          cl ← Buffer.lines cb !! Buffer.curline cb;
          runcmd e (Line.data cl)
        else
          let old := ln in
          let ln := Line.mk 0 (zeros new_line_capacity) in
          '(ln, ox) ← (if Config.auto_indent cfg then
                         (* Indent to the last position *)
                         mx ← indent_scan (Line.data old) 0 0 (Z.to_nat idx);
                         mindent ln mx
                       else Some (ln, 0));
          d ← memcpy (Line.data ln) ox (Line.data old) idx len;
          let ln := set_data d ln in
          od ← store (Line.data old) idx 0;
          let old := set_data od old in
          let ls := take (S cur) (<[cur := old]> (Buffer.lines b))
                    ++ ln :: drop (S cur) (Buffer.lines b) in
          let e := setbuf e p (set_lines ls b) in
          e ← mjump e (Some p) MARKER_START;
          e ← mmove e (Some p) 0 1;
          b ← Editor.bufs e !! p;
          Some (setbuf e p (set_x ox b))
      else
        d ← memcpy (Line.data ln) (idx + 1) (Line.data ln) idx len;
        d ← store d idx (wchar_of_wint key);
        let b := set_lines (<[cur := set_data d ln]> (Buffer.lines b)) b in
        Some (setbuf e p (set_x (cur_x b + 1) b))
    end
  end.

End Core.

(** ** Repetition and the command interpreter *)

Definition LONG_MAX : Z := 2 ^ 63 - 1.
Definition LONG_MIN : Z := - 2 ^ 63.

(** The conversion of a [long] to an [int]: the low 32 bits, signed. *)
Definition to_int (v : Z) : Z := (v + 2 ^ 31) `mod` 2 ^ 32 - 2 ^ 31.

Definition is_digit (ch : Z) : bool := bool_decide (48 ≤ ch ≤ 57).

(** The digits at the head of a string: their value, from [acc], and the
    rest of the string. *)
Fixpoint digits_value (acc : Z) (s : list Z) : Z * list Z :=
  match s with
  | ch :: r =>
      if is_digit ch then digits_value (10 * acc + (ch - 48)) r else (acc, s)
  | [] => (acc, [])
  end.

(** An optional sign at the head of a string: whether it is [-], and the
    string after it. *)
Definition take_sign (s : list Z) : bool * list Z :=
  match s with
  | 45 :: r => (true, r)
  | 43 :: r => (false, r)
  | _ => (false, s)
  end.

Section Dispatch.

Variable cfg : Config.t.
Variable iswspace : Z → bool.

(** [wcsrtombs], the conversion of a wide string to a narrow one. *)
Variable wcsrtombs : list Z → string.

(** The state the dispatched operations work on. For the editor it is
    [option Editor.t]; a log of calls is another instance. *)
Context {St : Type}.

(** [ac->fn(ac)] *)
Variable call : Action.t → St → St.

(** [mode = m] *)
Variable setmode_to : Mode → St → St.

(** [mexec]: the standard output of a shell command, or a null pointer. *)
Variable mexec : string → St → option string * St.

(** [for (i = 0; i < n; ++i) ac->fn(ac);] *)
Fixpoint mrepeat_loop (ac : Action.t) (count : nat) (s : St) : St :=
  match count with
  | O => s
  | S k => mrepeat_loop ac k (call ac s)
  end.

Definition mrepeat (ac : Action.t) (n : Z) (s : St) : St :=
  let n := min n (Config.max_cmd_repetition cfg) in
  mrepeat_loop ac (Z.to_nat n) s.

Fixpoint findchr_from (s : list Z) (i : Z) (ch : Z) : Z :=
  match s with
  | [] => -1
  | c0 :: r => if decide (c0 = ch) then i else findchr_from r (i + 1) ch
  end.

(** [buf] is the string. *)
Definition findchr (buf : list Z) (start : Z) (ch : Z) : Z :=
  findchr_from (drop (Z.to_nat start) buf) start ch.

Fixpoint skip_space (s : list Z) : list Z :=
  match s with
  | ch :: r => if iswspace ch then skip_space r else s
  | [] => []
  end.

(** [wcstol(buf, &end, 10)]: the value and the string [end] points to.
    Blanks, then an optional sign, then digits; without digits the value
    is 0 and [end] is [buf]. The value saturates at the bounds of [long]. *)
Definition wcstol (buf : list Z) : Z * list Z :=
  let s1 := skip_space buf in
  let '(neg, s2) := take_sign s1 in
  match s2 with
  | ch :: _ =>
      if is_digit ch then
        let '(v, rest) := digits_value 0 s2 in
        (if neg : bool then Z.max LONG_MIN (- v) else Z.min LONG_MAX v, rest)
      else (0, buf)
  | [] => (0, buf)
  end.

(** [!wcsncmp(a, b, n)] on two strings *)
Definition wcsncmp_eq (a b : list Z) (n : Z) : bool :=
  bool_decide (take (Z.to_nat n) a = take (Z.to_nat n) b).

(** The repetition count [mruncmd] parses, and the command text after it. *)
Definition parse_count (buf : list Z) : Z * list Z :=
  let '(v, cmd) := wcstol buf in
  let cnt := to_int v in
  (if decide (cnt = 0) then 1 else cnt, cmd).

(** The test of the loop of [mruncmd] on one entry of the table. *)
Definition cmd_matches (cmd : list Z) (cmdlen : Z) (entry : Action.t) : bool :=
  match Action.cmd entry with
  | Some name =>
      (* Either the single-char keyboard shortcut... *)
      bool_decide (cmdlen = 1 ∧ Some (Action.key entry) = cmd !! 0%nat)
      (* ...or the full command *)
      || wcsncmp_eq name cmd cmdlen
  | None => false
  end.

Definition set_arg (a : Arg) (ac : Action.t) : Action.t :=
  Action.mk (Action.cmd ac) (Action.key ac) (Action.fn ac) a.

(** [buf] is the string of the command line. *)
Definition mruncmd (buf : list Z) (s : St) : St :=
  (* Parse decimal repetition count *)
  let '(cnt, cmd) := parse_count buf in
  (* Find length of command *)
  let exlen := Z.of_nat (length cmd) in
  let cmdlen := let i := findchr cmd 0 SPACE in
                if decide (i < 0) then exlen else i in
  (* Parse optional argument *)
  let arg := if decide (exlen > cmdlen)
             then Some (wcsrtombs (drop (Z.to_nat (cmdlen + 1)) cmd))
             else None in
  foldl (λ s entry,
           if cmd_matches cmd cmdlen entry then
             let '(ac, s) :=
               match arg with
               | Some (String "!"%char sh) =>
                   (* Check for shell command *)
                   let '(out, s) := mexec sh s in (set_arg (ArgV out) entry, s)
               | Some a => (set_arg (ArgV (Some a)) entry, s)
               | None => (entry, s)
               end in
             let s := setmode_to MODE_INSERT s in
             let s := mrepeat ac cnt s in
             setmode_to MODE_COMMAND s
           else s)
        s (Config.buffer_actions cfg).

End Dispatch.

(** ** Bindable functions *)

(** Reading a member of [union Arg]. Reading a member other than the one
    stored is outside the model. *)
Definition arg_v (a : Arg) : option (option string) :=
  match a with ArgV v => Some v | _ => None end.

Definition arg_i (a : Arg) : option Z :=
  match a with ArgI i => Some i | _ => None end.

Definition arg_xy (a : Arg) : option (Z * Z) :=
  match a with ArgXY x y => Some (x, y) | _ => None end.

Definition arg_m (a : Arg) : option Marker :=
  match a with ArgM m => Some m | _ => None end.

(** [(Mode)i] *)
Definition mode_of_int (i : Z) : option Mode :=
  if decide (i = 0) then Some MODE_NORMAL
  else if decide (i = 1) then Some MODE_INSERT
  else if decide (i = 2) then Some MODE_SELECT
  else if decide (i = 3) then Some MODE_COMMAND
  else None.

(** A [char] of a narrow string passed as a [wint_t] ([char] is signed). *)
Definition char_to_wint (ch : ascii) : Z :=
  let n := Z.of_N (N_of_ascii ch) in
  if decide (n < 128) then n else n + 2 ^ 32 - 256.

(** [fopen(path, "w+")]: the file is created or emptied. *)
Definition open_write (f : Files.t) (path : string) : option Files.t :=
  if decide (path ∈ Files.unwritable f) then None
  else Some (Files.mk (<[path := []]> (Files.content f))
               (Files.unwritable f) (Files.stdin f)).

(** The characters written to the stream opened on [path]. *)
Definition write_file (f : Files.t) (path : string) (out : list Z) : Files.t :=
  Files.mk (<[path := out]> (Files.content f)) (Files.unwritable f)
    (Files.stdin f).

(** The loop of [save]: every line, then a newline. *)
Fixpoint save_lines (ls : list Line.t) : option (list Z) :=
  match ls with
  | [] => Some []
  | ln :: r =>
      s ← wcs (Line.data ln);
      out ← save_lines r;
      Some (s ++ NEWLINE :: out)
  end.

Section Bindable.

Variable cfg : Config.t.
Variable iswspace : Z → bool.
Variable wcsrtombs : list Z → string.
Variable runcmd : Editor.t → list Z → option Editor.t.

(** [regcomp]: whether the pattern compiles; [regexec]: whether the
    line matches the pattern. *)
Variable regcomp : string → bool.
Variable regexec : string → string → bool.

(** [getmouse] and [wmouse_trafo]: the position of a click of button 1
    in the coordinates of [bufwin], if there is one. *)
Variable getmouse : Editor.t → option (Z * Z).

Definition repaint (e : Editor.t) : option Editor.t := Some e.

Definition handlemouse (e : Editor.t) : option Editor.t :=
  match getmouse e with
  | Some (x, y) =>
      (* Jump to mouse location *)
      cb ← getbuf e (Editor.curbuf e);
      let x := x - Buffer.linexoff cb in
      let y := y - (cur_y cb + cur_starty cb) in
      mmove e (Editor.curbuf e) x y
  | None => Some e
  end.

(** [for (buf = buflist; buf; buf = buf->next) mfreebuf(buf);] with the
    number of buffers as fuel. *)
Fixpoint quit_loop (fuel : nat) (e : Editor.t) (buf : ptr) : option Editor.t :=
  match fuel, buf with
  | _, None => Some e
  | O, Some _ => None
  | S k, Some p =>
      e ← mfreebuf e buf;
      b ← Editor.bufs e !! p;
      quit_loop k e (Buffer.next b)
  end.

Definition quit (e : Editor.t) : option Editor.t :=
  e ← quit_loop (length (Editor.bufs e)) e (Editor.buflist e);
  Some (set_exited true e).

Definition setmode (e : Editor.t) (ac : Action.t) : option Editor.t :=
  i ← arg_i (Action.arg ac);
  m ← mode_of_int i;
  Some (set_mode m e).

Definition save (e : Editor.t) (ac : Action.t) : option Editor.t :=
  v ← arg_v (Action.arg ac);
  let cb := getbuf e (Editor.curbuf e) in
  stop ← match v with
         | None => b ← cb; Some (bool_decide (Buffer.path b = None))
         | Some _ => Some false
         end;
  if stop : bool then Some e
  else
    f ← (if Config.backup_on_write cfg then
           match open_write (Editor.files e) (Config.backup_path cfg) with
           | Some f1 =>
               b ← cb;
               match Buffer.path b ≫= (λ p, Files.content f1 !! p) with
               | Some src => Some (write_file f1 (Config.backup_path cfg) src)
               | None => Some f1
               end
           | None => Some (Editor.files e)
           end
         else Some (Editor.files e));
    dst ← match v with
          | Some a => Some (Some a)
          | None => b ← cb; Some (Buffer.path b)
          end;
    match dst ≫= open_write f with
    | None => Some (set_files f e)
    | Some f1 =>
        b ← cb;
        out ← save_lines (Buffer.lines b);
        Some (set_files (write_file f1 (default ""%string dst) out) e)
    end.

Definition readfile (e : Editor.t) (ac : Action.t) : option Editor.t :=
  v ← arg_v (Action.arg ac);
  match v with
  | Some path =>
      let '(e, p) := mnewbuf cfg e in
      let e := set_curbuf p e in
      fst <$> mreadbuf cfg e p path
  | None => Some e
  end.

Fixpoint readstr_loop (e : Editor.t) (s : string) : option Editor.t :=
  match s with
  | EmptyString => Some e
  | String ch r =>
      e ← minsert cfg iswspace runcmd e (Editor.curbuf e) (char_to_wint ch);
      readstr_loop e r
  end.

Definition readstr (e : Editor.t) (ac : Action.t) : option Editor.t :=
  v ← arg_v (Action.arg ac);
  match v with
  | Some s => readstr_loop e s
  | None => Some e
  end.

(** The loop of [find]: [ls] are the lines from the current one on. *)
Fixpoint find_loop (e : Editor.t) (pat : string) (ls : list Line.t) (y : Z)
  : option Editor.t :=
  match ls with
  | [] => Some e
  | ln :: r =>
      s ← wcs (Line.data ln);
      if regexec pat (wcsrtombs s) then
        (* Jump to location *)
        mmove e (Editor.curbuf e) 0 y
      else find_loop e pat r (y + 1)
  end.

Definition find (e : Editor.t) (ac : Action.t) : option Editor.t :=
  v ← arg_v (Action.arg ac);
  match v with
  | Some pat =>
      if regcomp pat then
        cb ← getbuf e (Editor.curbuf e);
        find_loop e pat (drop (Buffer.curline cb) (Buffer.lines cb))
          (cur_y cb + cur_starty cb)
      else Some e
  | None => Some e
  end.

Definition command (e : Editor.t) (ac : Action.t) : option Editor.t :=
  match Action.arg ac with
  | ArgW w => runcmd e (w ++ [0])
  | ArgV None => Some e
  | _ => None
  end.

Definition motion (e : Editor.t) (ac : Action.t) : option Editor.t :=
  '(x, y) ← arg_xy (Action.arg ac);
  mmove e (Editor.curbuf e) x y.

Definition jump (e : Editor.t) (ac : Action.t) : option Editor.t :=
  m ← arg_m (Action.arg ac);
  mjump e (Editor.curbuf e) m.

Definition coc (e : Editor.t) : option Editor.t :=
  (* Center on cursor *)
  p ← Editor.curbuf e;
  cb ← Editor.bufs e !! p;
  Some (setbuf e p (set_starty (- (Editor.bufwin_row e ÷ 2 - cur_y cb)) cb)).

Definition pgup (e : Editor.t) : option Editor.t :=
  mmove e (Editor.curbuf e) 0 (- Editor.bufwin_row e).

Definition pgdown (e : Editor.t) : option Editor.t :=
  mmove e (Editor.curbuf e) 0 (Editor.bufwin_row e).

Definition bufsel (e : Editor.t) (ac : Action.t) : option Editor.t :=
  i ← arg_i (Action.arg ac);
  if decide (i < 0) then
    cb ← getbuf e (Editor.curbuf e);
    Some (match Buffer.prev cb with
          | Some _ => set_curbuf (Buffer.prev cb) e
          | None => e
          end)
  else if decide (i > 0) then
    cb ← getbuf e (Editor.curbuf e);
    Some (match Buffer.next cb with
          | Some _ => set_curbuf (Buffer.next cb) e
          | None => e
          end)
  else Some e.

Definition bufdel (e : Editor.t) (ac : Action.t) : option Editor.t :=
  i ← arg_i (Action.arg ac);
  if decide (i = 0) then mfreebuf e (Editor.curbuf e) else Some e.

Definition insert (e : Editor.t) (ac : Action.t) : option Editor.t :=
  i ← arg_i (Action.arg ac);
  minsert cfg iswspace runcmd e (Editor.curbuf e) (wint_of_int i).

Definition freeln (e : Editor.t) : option Editor.t :=
  p ← Editor.curbuf e;
  cb ← Editor.bufs e !! p;
  let cur := Buffer.curline cb in
  _ ← Buffer.lines cb !! cur;
  if decide (cur + 1 < length (Buffer.lines cb))%nat then
    (* next is ln->next, which takes the position of ln *)
    Some (setbuf e p (set_lines (mfreeln (Buffer.lines cb) cur) cb))
  else if decide (0 < cur)%nat then
    (* next is ln->prev *)
    Some (setbuf e p (set_lines (mfreeln (Buffer.lines cb) cur)
                        (set_curline (cur - 1) cb)))
  else Some e.

Definition append (e : Editor.t) : option Editor.t :=
  e ← mjump e (Editor.curbuf e) MARKER_END;
  Some (set_mode MODE_INSERT e).

Definition newln (e : Editor.t) : option Editor.t :=
  e ← mjump e (Editor.curbuf e) MARKER_END;
  e ← minsert cfg iswspace runcmd e (Editor.curbuf e) NEWLINE;
  Some (set_mode MODE_INSERT e).

End Bindable.

(** ** The program: dispatch of an action, one round of the main loop *)

Section Program.

Variable cfg : Config.t.
Variable iswspace : Z → bool.
Variable wcsrtombs : list Z → string.
Variable regcomp : string → bool.
Variable regexec : string → string → bool.
Variable getmouse : Editor.t → option (Z * Z).

(** What [mexec] reads from the pipe, and what the command did to the
    files. *)
Variable shell : string → Files.t → option string * Files.t.

Definition mexec (sh : string) (s : option Editor.t)
  : option string * option Editor.t :=
  match s with
  | Some e =>
      let '(out, f) := shell sh (Editor.files e) in
      (out, Some (set_files f e))
  | None => (None, None)
  end.

(** [mruncmd] on the array [buf] points to, with [call] for [ac->fn(ac)]. *)
Definition mruncmd_with (call : Action.t → Editor.t → option Editor.t)
    (e : Editor.t) (buf : list Z) : option Editor.t :=
  s ← wcs buf;
  mruncmd cfg iswspace wcsrtombs (λ ac st, st ≫= call ac)
    (λ m st, set_mode m <$> st) mexec s (Some e).

(** An action that edits the lines of the current buffer, run while a
    command line is being read from the command buffer ([live]) and the
    command buffer is the current buffer: outside the model. *)
Definition editing (live : bool) (e : Editor.t) (r : option Editor.t)
  : option Editor.t :=
  if live && bool_decide (Editor.curbuf e = Editor.cmdbuf e) then None else r.

(** [ac->fn(ac)]. The interpreter and the actions call each other
    ([command] runs a command line, a command line runs actions); [fuel]
    bounds the nesting, and [None] is also the answer without fuel.
    Nothing runs once the process has exited. [live] tells that a command
    line typed into the command buffer is being run: [minsert] starts one
    on a newline in Command mode, and the command strings of the table,
    which [command] runs, are in no buffer. *)
Fixpoint exec (fuel : nat) (live : bool) (ac : Action.t) (e : Editor.t)
  : option Editor.t :=
  match fuel with
  | O => None
  | S k =>
      if Editor.exited e then Some e else
      let runcmd := mruncmd_with (exec k true) in
      let runstr := mruncmd_with (exec k live) in
      match Action.fn ac with
      | fn_repaint => repaint e
      | fn_handlemouse => handlemouse getmouse e
      | fn_quit => quit e
      | fn_setmode => setmode e ac
      | fn_save => save cfg e ac
      | fn_readfile => readfile cfg e ac
      | fn_readstr => editing live e (readstr cfg iswspace runcmd e ac)
      | fn_find => find wcsrtombs regcomp regexec e ac
      | fn_command => command runstr e ac
      | fn_motion => motion e ac
      | fn_jump => jump e ac
      | fn_coc => coc e
      | fn_pgup => pgup e
      | fn_pgdown => pgdown e
      | fn_bufsel => bufsel e ac
      | fn_bufdel => bufdel e ac
      | fn_insert => editing live e (insert cfg iswspace runcmd e ac)
      | fn_freeln => editing live e (freeln e)
      | fn_append => append e
      | fn_newln => editing live e (newln cfg iswspace runcmd e)
      end
  end.

(** [ERR] (-1) as the [wint_t] key is compared with. *)
Definition ERR : Z := 2 ^ 32 - 1.

(** [isdigit] of the C library, on the key as an [int]: defined for the
    values of an [unsigned char] and for [EOF]. *)
Definition isdigit (c : Z) : option bool :=
  if decide (-1 ≤ c ≤ 255) then Some (is_digit c) else None.

(** The body of the loop of [main] for one key. *)
Definition handle_key (fuel : nat) (e : Editor.t) (key : Z) : option Editor.t :=
  if Editor.exited e then Some e else
  (* if (key != ERR) *)
  if decide (key = ERR) then Some e else
  let call := exec fuel false in
  let runcmd := mruncmd_with (exec fuel true) in
  e ← match Editor.mode e with
      | MODE_NORMAL =>
          (* Special keys will cancel action sequences *)
          let e := if decide (key = Config.ESC cfg ∨ key = NEWLINE)
                   then set_repcnt 0 e else e in
          (* Number keys (other than 0) are reserved for repetition *)
          digit ← isdigit (to_int key);
          if (digit : bool)
             && negb (bool_decide (key = 48 ∧ Editor.repcnt e = 0)) then
            Some (set_repcnt (min (10 * Editor.repcnt e + (key - 48))
                                (Config.max_cmd_repetition cfg)) e)
          else
            e ← foldl (λ s entry,
                         if decide (key = Action.key entry) then
                           e ← s;
                           mrepeat cfg (λ ac st, st ≫= call ac) entry
                             (if decide (Editor.repcnt e ≠ 0)
                              then Editor.repcnt e else 1)
                             (Some e)
                         else s)
                   (Some e) (Config.buffer_actions cfg);
            Some (set_repcnt 0 e)
      | MODE_SELECT =>
          Some (if decide (key = Config.ESC cfg) then set_mode MODE_NORMAL e else e)
      | MODE_INSERT =>
          if decide (key = Config.ESC cfg) then Some (set_mode MODE_NORMAL e)
          else minsert cfg iswspace runcmd e (Editor.curbuf e) key
      | MODE_COMMAND =>
          if decide (key = Config.ESC cfg) then Some (set_mode MODE_NORMAL e)
          else minsert cfg iswspace runcmd e (Editor.cmdbuf e) key
      end;
  repaint e.

(** The buffers [main] sets up from the arguments of the program. *)
Fixpoint main_args (e : Editor.t) (args : list string) : option Editor.t :=
  match args with
  | [] => Some e
  | a :: r =>
      let '(e, p) := mnewbuf cfg e in
      let e := set_curbuf p e in
      '(e, _) ← mreadbuf cfg e p a;
      main_args e r
  end.

Definition main_init (e : Editor.t) (args : list string) : option Editor.t :=
  (* Init buffers *)
  let '(e, p) := mnewbuf cfg e in
  let e := set_cmdbuf p e in
  i ← p;
  cb ← Editor.bufs e !! i;
  let e := setbuf e i (set_linexoff 0 cb) in
  e ← main_args e args;
  Some (match Editor.curbuf e with
        | Some _ => e
        | None => let '(e, p) := mnewbuf cfg e in set_curbuf p e
        end).

(** The state of the process when [main] starts. *)
Definition start (row col : Z) (f : Files.t) : Editor.t :=
  Editor.mk MODE_NORMAL [] None None None 0 row col f false.

(** The keys of a session, one after the other. *)
Fixpoint run (fuel : nat) (e : Editor.t) (keys : list Z) : option Editor.t :=
  match keys with
  | [] => Some e
  | k :: r => e ← handle_key fuel e k; run fuel e r
  end.

End Program.

(** ** Notions the properties are stated with *)

(** The number of characters before the first zero of an array (all of
    them when there is no zero). It is [wcslen] wherever [wcslen] is
    defined. *)
Fixpoint content_length (d : list Z) : Z :=
  match d with
  | [] => 0
  | ch :: r => if decide (ch = 0) then 0 else 1 + content_length r
  end.

(** The cursor column of a buffer lies within its current line. *)
Definition cursor_in_line (b : Buffer.t) : Prop :=
  ∃ ln, Buffer.lines b !! Buffer.curline b = Some ln
        ∧ 0 ≤ cur_x b ≤ content_length (Line.data ln).

(** The row of the current line lies within the viewport. *)
Definition row_in_view (e : Editor.t) (b : Buffer.t) : Prop :=
  cur_starty b ≤ cur_y b < cur_starty b + Editor.bufwin_row e.

(** Every line of the buffer takes at least one visual row and no more
    than the viewport has. *)
Definition lines_fit (e : Editor.t) (b : Buffer.t) : Prop :=
  ∀ ln, ln ∈ Buffer.lines b →
    ∃ v, mnumvislines e ln = Some v ∧ 1 ≤ v ≤ Editor.bufwin_row e.

(** Every buffer of the store has at least one line. *)
Definition has_lines (e : Editor.t) : Prop :=
  ∀ b, b ∈ Editor.bufs e → Buffer.lines b ≠ [].

(** The operations of the line editor and of the cursor engine on the
    current buffer. *)
Inductive EditOp :=
  | OpInsert (key : Z)
  | OpMove (x y : Z).

Section Ops.

Variable cfg : Config.t.
Variable iswspace : Z → bool.
Variable runcmd : Editor.t → list Z → option Editor.t.

Definition apply_op (e : Editor.t) (op : EditOp) : option Editor.t :=
  match op with
  | OpInsert key => minsert cfg iswspace runcmd e (Editor.curbuf e) key
  | OpMove x y => mmove e (Editor.curbuf e) x y
  end.

Fixpoint apply_ops (e : Editor.t) (ops : list EditOp) : option Editor.t :=
  match ops with
  | [] => Some e
  | op :: r => e' ← apply_op e op; apply_ops e' r
  end.

(** The width [minsert] measures for the indentation of a new line
    when a newline is inserted in state [e]. *)
Definition measured_indent (e : Editor.t) : option Z :=
  b ← getbuf e (Editor.curbuf e);
  ln ← Buffer.lines b !! Buffer.curline b;
  indent_scan cfg iswspace (Line.data ln) 0 0 (Z.to_nat (cur_x b)).

(** An indentation of tabs only or of spaces only. *)
Definition plain_indent (mx : Z) : Prop :=
  mx ÷ Config.tab_width cfg = 0 ∨ Z.rem mx (Config.tab_width cfg) = 0.

(** An insertion this development makes a statement about: the key is
    not the terminator, and a newline is not typed on the command line
    and, with auto-indent, opens a line with a plain indentation. *)
Definition op_ok (e : Editor.t) (op : EditOp) : Prop :=
  match op with
  | OpMove _ _ => True
  | OpInsert key =>
      key ≠ 0
      ∧ (key = NEWLINE →
         Editor.mode e ≠ MODE_COMMAND
         ∧ (Config.auto_indent cfg = true →
            ∀ mx, measured_indent e = Some mx → plain_indent mx))
  end.

Fixpoint ops_ok (e : Editor.t) (ops : list EditOp) : Prop :=
  match ops with
  | [] => True
  | op :: r =>
      op_ok e op ∧ ∀ e', apply_op e op = Some e' → ops_ok e' r
  end.

End Ops.

(** The log of the actions a command line invokes: the dispatcher run on
    a state that records each call. [out] is what the shell prints. *)
Definition log_call (ac : Action.t) (l : list Action.t) : list Action.t :=
  l ++ [ac].

Definition invocations (cfg : Config.t) (iswspace : Z → bool)
    (wcsrtombs : list Z → string) (out : string → option string)
    (buf : list Z) : list Action.t :=
  mruncmd cfg iswspace wcsrtombs log_call (λ _ l, l) (λ sh l, (out sh, l))
    buf [].

(** The number of times [ac] occurs in a log. *)
Definition calls_of (ac : Action.t) (l : list Action.t) : nat :=
  length (filter (λ a, a = ac) l).

(** The entry of the table as [mruncmd] invokes it: with the argument of
    the command line, when there is one. *)
Definition resolved (out : string → option string) (arg : option string)
    (entry : Action.t) : Action.t :=
  match arg with
  | Some (String "!"%char sh) => set_arg (ArgV (out sh)) entry
  | Some a => set_arg (ArgV (Some a)) entry
  | None => entry
  end.

(** The length of the command token and the argument [mruncmd] finds in
    the text after the count. *)
Definition token_length (cmd : list Z) : Z :=
  let i := findchr cmd 0 SPACE in
  if decide (i < 0) then Z.of_nat (length cmd) else i.

Definition argument (wcsrtombs : list Z → string) (cmd : list Z)
  : option string :=
  if decide (Z.of_nat (length cmd) > token_length cmd)
  then Some (wcsrtombs (drop (Z.to_nat (token_length cmd + 1)) cmd))
  else None.

(** ** Sample configuration and states *)

(** The blanks of the "C" locale. *)
Definition iswspace_C (ch : Z) : bool := bool_decide (ch = 32 ∨ 9 ≤ ch ≤ 13).

(** Wide to narrow for the ASCII range. *)
Fixpoint wcsrtombs_ascii (s : list Z) : string :=
  match s with
  | [] => EmptyString
  | ch :: r => String (ascii_of_nat (Z.to_nat ch)) (wcsrtombs_ascii r)
  end.

Definition no_runcmd (e : Editor.t) (buf : list Z) : option Editor.t := Some e.

Definition no_files : Files.t := Files.mk ∅ ∅ [].

Definition dd_action : Action.t :=
  Action.mk (Some [100; 100]) 0 fn_freeln (ArgI 0).

Definition sample_cfg : Config.t :=
  Config.mk 16 4 true 100 false "mett.bak" 27 [dd_action].

(** A session: [main] without arguments on a window of [row] by [col],
    then Insert mode. *)
Definition session (row col : Z) : option Editor.t :=
  set_mode MODE_INSERT <$> main_init sample_cfg (start row col no_files) [].

(** The keys typed in Insert mode, without the main loop around them. *)
Fixpoint type_keys (e : Editor.t) (keys : list Z) : option Editor.t :=
  match keys with
  | [] => Some e
  | k :: r =>
      e' ← minsert sample_cfg iswspace_C no_runcmd e (Editor.curbuf e) k;
      type_keys e' r
  end.

(** What a buffer shows: the strings of its lines, the position of the
    current line, the cursor and the scroll offset. *)
Definition view (b : Buffer.t)
  : list (option (list Z)) * nat * (Z * Z) * Z :=
  ((λ ln, wcs (Line.data ln)) <$> Buffer.lines b, Buffer.curline b,
   (cur_x b, cur_y b), cur_starty b).

Definition views (o : option Editor.t)
  : option (list (list (option (list Z)) * nat * (Z * Z) * Z)) :=
  (λ e, view <$> Editor.bufs e) <$> o.

(** The value of a string of decimal digits. *)
Definition decimal (ds : list Z) : Z :=
  foldl (λ acc ch, 10 * acc + (ch - 48)) 0 ds.

Definition INT_MAX : Z := 2 ^ 31 - 1.

(** The first character of [s], if any, is not a digit. *)
Definition no_digit_ahead (s : list Z) : Prop :=
  ∀ ch, head s = Some ch → is_digit ch = false.

(** [s] does not start like a number: its first character, if any, is
    not a blank, a sign or a digit. *)
Definition no_number_ahead (iswspace : Z → bool) (s : list Z) : Prop :=
  ∀ ch, head s = Some ch →
    iswspace ch = false ∧ ch ≠ 45 ∧ ch ≠ 43 ∧ is_digit ch = false.

(** An optional sign, as a string. *)
Definition sign_text (sg : list Z) : Prop := sg = [] ∨ sg = [43] ∨ sg = [45].

(** The value [wcstol] gives for the digits [ds] after the sign [sg]:
    within the range of [long]. *)
Definition signed_value (sg ds : list Z) : Z :=
  if decide (sg = [45]) then Z.max LONG_MIN (- decimal ds)
  else Z.min LONG_MAX (decimal ds).

(** The count [mruncmd] makes of a value of [wcstol]: the value as an
    [int], and 1 when that is 0. *)
Definition count_of (v : Z) : Z :=
  if decide (to_int v = 0) then 1 else to_int v.

(** The calls [mruncmd] is expected to make for a count [k]. *)
Definition expected_calls (cfg : Config.t) (wcsrtombs : list Z → string)
    (out : string → option string) (k : Z) (cmd : list Z) : list Action.t :=
  flat_map
    (λ entry,
       if cmd_matches cmd (token_length cmd) entry
       then replicate (Z.to_nat (Z.min k (Config.max_cmd_repetition cfg)))
              (resolved out (argument wcsrtombs cmd) entry)
       else [])
    (Config.buffer_actions cfg).

(** Two buffers, as [main] leaves them without arguments: the command
    buffer at 0 and the current buffer at 1; ["abc"] typed into the
    first, ["xy"] into the second. *)
Fixpoint type_into (e : Editor.t) (buf : ptr) (keys : list Z) : option Editor.t :=
  match keys with
  | [] => Some e
  | k :: r =>
      e' ← minsert sample_cfg iswspace_C no_runcmd e buf k;
      type_into e' buf r
  end.

Definition two_buffers : option Editor.t :=
  e ← session 24 80;
  e ← type_into e (Some 0%nat) [97; 98; 99];
  type_into e (Some 1%nat) [120; 121].

(** An action that loads [notes.txt] and one that saves the current
    buffer under its own path. *)
Definition load_notes : Action.t :=
  Action.mk (Some [101]) 0 fn_readfile (ArgV (Some "notes.txt"%string)).

Definition save_action : Action.t :=
  Action.mk (Some [119]) 0 fn_save (ArgV None).

(** A window of 2 rows and 5 columns; two empty lines and a line of ten
    characters, the cursor back on the first line. *)
Definition long_line_session : option Editor.t :=
  e ← session 2 5;
  e ← type_keys e ([10; 10] ++ replicate 10 120);
  mmove e (Editor.curbuf e) 0 (-2).

(** The state of [session 24 80], and its current buffer (at index 1). *)
Definition empty_buffer : Buffer.t :=
  Buffer.mk None None None [] 0
    (Cursor.mk (Coord.mk 0 0) (Coord.mk 0 0) (Coord.mk 0 0) 0) 0.

Definition fresh : Editor.t :=
  Eval vm_compute in default (start 24 80 no_files) (session 24 80).

Definition fresh_buffer : Buffer.t :=
  Eval vm_compute in default empty_buffer (Editor.bufs fresh !! 1%nat).

(** The state of [long_line_session], and its current buffer. *)
Definition long_line_state : Editor.t :=
  Eval vm_compute in default (start 2 5 no_files) long_line_session.

Definition long_line_buffer : Buffer.t :=
  Eval vm_compute in default empty_buffer (Editor.bufs long_line_state !! 1%nat).

(** The letter [a], a newline, a move back up. *)
Definition typed_ops : list EditOp := [OpInsert 97; OpInsert 10; OpMove 0 (-1)].

(** The current line of every buffer is one of its lines. *)
Definition buffers_valid (bs : list Buffer.t) : Prop :=
  ∀ b, b ∈ bs → is_Some (Buffer.lines b !! Buffer.curline b).

Definition current_lines_valid (e : Editor.t) : Prop :=
  buffers_valid (Editor.bufs e).

(** The same for a state that may be undefined. *)
Definition valid_if_defined (s : option Editor.t) : Prop :=
  ∀ e, s = Some e → current_lines_valid e.

(** A world without pattern matches, mouse clicks or shell output. *)
Definition no_regcomp (pat : string) : bool := true.
Definition no_regexec (pat line : string) : bool := false.
Definition no_mouse (e : Editor.t) : option (Z * Z) := None.
Definition no_shell (sh : string) (f : Files.t) : option string * Files.t :=
  (None, f).

(** A session through the main loop: [i], [a], newline, [b], Escape, [k]
    and the key bound to [dd]. *)
Definition sample_keys : list Z := [105; 97; 10; 98; 27; 107; 0].

(** A table for the main loop: [dd] (also on the key 0) deletes the
    line, [i] and [:] switch to Insert and Command mode, [j] and [k] move
    by a line, [w] saves. *)
Definition loop_actions : list Action.t :=
  [ dd_action;
    Action.mk None 105 fn_setmode (ArgI 1);
    Action.mk None 58 fn_setmode (ArgI 3);
    Action.mk None 106 fn_motion (ArgXY 0 1);
    Action.mk None 107 fn_motion (ArgXY 0 (-1));
    Action.mk (Some [119]) 0 fn_save (ArgV None) ].

Definition loop_cfg : Config.t :=
  Config.mk 16 4 true 100 false "mett.bak" 27 loop_actions.

Definition sample_run (e : Editor.t) (keys : list Z) : option Editor.t :=
  run loop_cfg iswspace_C wcsrtombs_ascii no_regcomp no_regexec no_mouse
    no_shell 2 e keys.

Definition started : Editor.t :=
  Eval vm_compute in
    default (start 24 80 no_files)
      (main_init loop_cfg (start 24 80 no_files) []).

Definition after_sample_keys : Editor.t :=
  Eval vm_compute in default started (sample_run started sample_keys).

(** The line [tab, space, x, y] with the cursor before the [y]. *)
Definition indented_session : option Editor.t :=
  e ← session 24 80;
  e ← type_keys e [9; 32; 120; 121];
  mmove e (Editor.curbuf e) (-1) 0.

(** The raw arrays of the lines of the buffer at [p]. *)
Definition arrays (o : option Editor.t) (p : nat) : option (list (list Z)) :=
  e ← o;
  b ← Editor.bufs e !! p;
  Some (Line.data <$> Buffer.lines b).

(** A buffer of the two lines ["ab"] and ["c"], saved as [notes.txt],
    and that file loaded. *)
Definition save_as_notes : Action.t :=
  Action.mk (Some [119]) 0 fn_save (ArgV (Some "notes.txt"%string)).

Definition two_lines : option Editor.t :=
  e ← session 24 80; type_keys e [97; 98; 10; 99].

Definition saved : option Editor.t :=
  e ← two_lines; save sample_cfg e save_as_notes.

Definition reloaded : option Editor.t :=
  e ← saved; readfile sample_cfg e load_notes.

(** The strings of the lines of a buffer. *)
Definition strings_of (b : Buffer.t) : list (option (list Z)) :=
  (λ ln, wcs (Line.data ln)) <$> Buffer.lines b.

(** ** Further notions *)

(** The string of the current line of a buffer. *)
Definition cur_string (b : Buffer.t) : option (list Z) :=
  ln ← Buffer.lines b !! Buffer.curline b; wcs (Line.data ln).

(** The capacity of the array of the current line of a buffer. *)
Definition cur_capacity (b : Buffer.t) : Z :=
  match Buffer.lines b !! Buffer.curline b with
  | Some ln => Z.of_nat (length (Line.data ln))
  | None => 0
  end.

(** The keys [minsert] treats as characters. *)
Definition plain_key (key : Z) : Prop :=
  key ≠ KEY_BACKSPACE ∧ key ≠ KEY_DC ∧ key ≠ NEWLINE.

(** Every line of the buffer holds a string: its array has a terminator. *)
Definition terminated (b : Buffer.t) : Prop :=
  ∀ ln, ln ∈ Buffer.lines b → is_Some (wcs (Line.data ln)).

(** The line a vertical move by [y] ends on: [-y] lines up but not above
    the first, or [y] lines down but not below the last. *)
Definition mmove_target (b : Buffer.t) (y : Z) : nat :=
  if decide (y < 0) then (Buffer.curline b - Z.to_nat (- y))%nat
  else ((Buffer.curline b + Z.to_nat y) `min` (length (Buffer.lines b) - 1))%nat.

(** The text of a file of the records [recs], each followed by a
    newline. *)
Definition text_of (recs : list (list Z)) : list Z :=
  flat_map (λ s, s ++ [NEWLINE]) recs.

(** A record [mreadbuf] reads in one piece: no newline and no terminator
    inside, and short enough for the buffer of [fgetws] with its
    newline. *)
Definition short_record (cfg : Config.t) (s : list Z) : Prop :=
  (NEWLINE ∉ s) ∧ (0 ∉ s)
  ∧ Z.of_nat (length s) + 2 ≤ Config.default_linebuf_size cfg.

#[global] Instance short_record_dec (cfg : Config.t) (s : list Z) :
  Decision (short_record cfg s).
Proof. unfold short_record. apply _. Defined.

(** The entries of the table that have a command name. *)
Definition named (cfg : Config.t) : list Action.t :=
  filter (λ a, is_Some (Action.cmd a)) (Config.buffer_actions cfg).

(** The state after [mruncmd], on a state that may be undefined. *)
Definition mruncmd_state (cfg : Config.t) (iswspace : Z → bool)
    (wcsrtombs : list Z → string)
    (call : Action.t → Editor.t → option Editor.t)
    (shell : string → Files.t → option string * Files.t)
    (buf : list Z) (s : option Editor.t) : option Editor.t :=
  mruncmd cfg iswspace wcsrtombs (λ ac st, st ≫= call ac)
    (λ m st, set_mode m <$> st) (mexec shell) buf s.

(** The characters [mindent] writes for an indentation of [mx] columns,
    and the width it returns. *)
Definition indent_string (cfg : Config.t) (mx : Z) : list Z :=
  replicate (Z.to_nat (mx ÷ Config.tab_width cfg)) TAB
  ++ replicate (Z.to_nat (Z.rem mx (Config.tab_width cfg)
                          - mx ÷ Config.tab_width cfg)) SPACE.

Definition indent_width (cfg : Config.t) (mx : Z) : Z :=
  mx ÷ Config.tab_width cfg + Z.rem mx (Config.tab_width cfg).

(** ** Further sample states *)

(** The sample configuration without auto-indent. *)
Definition plain_cfg : Config.t :=
  Config.mk 16 4 false 100 false "mett.bak" 27 [dd_action].

Definition empty_line : Line.t := Line.mk 0 [].

(** ["ab"] typed, the cursor between the two letters. *)
Definition ab_state : Editor.t :=
  Eval vm_compute in
    default fresh
      (e ← type_keys fresh [97; 98]; mmove e (Editor.curbuf e) (-1) 0).

Definition ab_buffer : Buffer.t :=
  Eval vm_compute in default empty_buffer (Editor.bufs ab_state !! 1%nat).

Definition ab_line : Line.t :=
  Eval vm_compute in default empty_line (Buffer.lines ab_buffer !! 0%nat).

(** Seventeen letters typed: the line is as long as typing at its end
    can make it. *)
Definition full_state : Editor.t :=
  Eval vm_compute in default fresh (type_keys fresh (replicate 17 120)).

Definition full_buffer : Buffer.t :=
  Eval vm_compute in default empty_buffer (Editor.bufs full_state !! 1%nat).

Definition full_line : Line.t :=
  Eval vm_compute in default empty_line (Buffer.lines full_buffer !! 0%nat).

(** ["abc"] typed, split after the [a], the cursor back at the end of
    the first line. *)
Definition stale_state : Editor.t :=
  Eval vm_compute in
    default fresh
      (e ← type_keys fresh [97; 98; 99];
       e ← mmove e (Editor.curbuf e) (-2) 0;
       e ← type_keys e [10];
       mmove e (Editor.curbuf e) 1 (-1)).

Definition stale_buffer : Buffer.t :=
  Eval vm_compute in default empty_buffer (Editor.bufs stale_state !! 1%nat).

Definition stale_line : Line.t :=
  Eval vm_compute in default empty_line (Buffer.lines stale_buffer !! 0%nat).

(** The lines ["ab"] and ["c"], the cursor at the start of the second. *)
Definition two_lines_state : Editor.t :=
  Eval vm_compute in
    default fresh
      (e ← two_lines; mmove e (Editor.curbuf e) (-1) 0).

Definition two_lines_buffer : Buffer.t :=
  Eval vm_compute in
    default empty_buffer (Editor.bufs two_lines_state !! 1%nat).

Definition first_line : Line.t :=
  Eval vm_compute in default empty_line (Buffer.lines two_lines_buffer !! 0%nat).

Definition second_line : Line.t :=
  Eval vm_compute in default empty_line (Buffer.lines two_lines_buffer !! 1%nat).

(** The line [tab, space, x, y], the cursor before the [y]. *)
Definition indented_state : Editor.t :=
  Eval vm_compute in default fresh indented_session.

Definition indented_buffer : Buffer.t :=
  Eval vm_compute in
    default empty_buffer (Editor.bufs indented_state !! 1%nat).

Definition indented_line : Line.t :=
  Eval vm_compute in default empty_line (Buffer.lines indented_buffer !! 0%nat).

(** A file [notes.txt] of the two records ["ab"] and ["c"], and one of a
    single record without a newline, which has a zero before its last
    character. *)
Definition notes_files : Files.t :=
  Files.mk {[ "notes.txt"%string := [97; 98; 10; 99; 10] ]} ∅ [].

Definition ragged_files : Files.t :=
  Files.mk {[ "notes.txt"%string := [97; 98; 0; 99] ]} ∅ [].

(** A buffer fresh from [mnewbuf], the files beside it. *)
Definition loading (f : Files.t) : Editor.t :=
  (mnewbuf sample_cfg (start 24 80 f)).1.

Definition new_buffer : Buffer.t :=
  Eval vm_compute in
    default empty_buffer (Editor.bufs (loading no_files) !! 0%nat).

Definition new_line : Line.t :=
  Eval vm_compute in default empty_line (Buffer.lines new_buffer !! 0%nat).

(** The command buffer made the current buffer. *)
Definition on_cmdbuf : Editor.t :=
  Eval vm_compute in set_curbuf (Some 0%nat) fresh.

Definition cmd_buffer : Buffer.t :=
  Eval vm_compute in default empty_buffer (Editor.bufs fresh !! 0%nat).

Definition next_buffer : Action.t := Action.mk None 0 fn_bufsel (ArgI 1).
Definition close_buffer : Action.t := Action.mk None 0 fn_bufdel (ArgI 0).
Definition line_up : Action.t := Action.mk None 107 fn_motion (ArgXY 0 (-1)).

(** A window of 2 rows and 80 columns over four empty lines, the cursor
    on the first of them and row 0 at the top of the window; and the
    state after a move down by three lines. *)
Definition short_lines_session : option Editor.t :=
  e ← session 2 80;
  e ← type_keys e [10; 10; 10];
  mmove e (Editor.curbuf e) 0 (-3).

Definition short_lines_state : Editor.t :=
  Eval vm_compute in default (start 2 80 no_files) short_lines_session.

Definition short_lines_buffer : Buffer.t :=
  Eval vm_compute in
    default empty_buffer (Editor.bufs short_lines_state !! 1%nat).

Definition short_lines_moved : Editor.t :=
  Eval vm_compute in
    default short_lines_state (mmove short_lines_state (Some 1%nat) 0 3).

Definition short_lines_moved_buffer : Buffer.t :=
  Eval vm_compute in
    default empty_buffer (Editor.bufs short_lines_moved !! 1%nat).

(** * Properties *)

(** ** Arrays and strings *)

Lemma content_length_bounds (d : list Z) :
  0 ≤ content_length d ≤ Z.of_nat (length d).
Proof.
  induction d as [|ch r IH]; simpl; [lia|].
  destruct (decide (ch = 0)); lia.
Qed.

Lemma wcs_content_length (d s : list Z) :
  wcs d = Some s → content_length d = Z.of_nat (length s).
Proof.
  revert s. induction d as [|ch r IH]; intros s; simpl; [done|].
  destruct (decide (ch = 0)).
  - intros [= <-]. done.
  - destruct (wcs r) as [s'|] eqn:E; simpl; [|done].
    intros [= <-]. rewrite (IH s' eq_refl). simpl. lia.
Qed.

Lemma wcslen_content_length (d : list Z) (l : Z) :
  wcslen d = Some l → content_length d = l.
Proof.
  unfold wcslen. destruct (wcs d) as [s|] eqn:E; simpl; [|done].
  intros [= <-]. by apply wcs_content_length.
Qed.

Lemma wcslen_bounds (d : list Z) (l : Z) :
  wcslen d = Some l → 0 ≤ l < Z.of_nat (length d).
Proof.
  unfold wcslen. destruct (wcs d) as [s|] eqn:E; simpl; [|done].
  intros [= <-]. revert s E.
  induction d as [|ch r IH]; intros s; simpl; [done|].
  destruct (decide (ch = 0)).
  - intros [= <-]. simpl. lia.
  - destruct (wcs r) as [s'|] eqn:E; simpl; [|done].
    intros [= <-]. specialize (IH s' eq_refl). simpl. lia.
Qed.

(** The characters before position [content_length d] are not zero. *)
Lemma content_length_lookup (d : list Z) (i : nat) :
  Z.of_nat i < content_length d → ∃ v, d !! i = Some v ∧ v ≠ 0.
Proof.
  revert i. induction d as [|ch r IH]; intros i; simpl; [lia|].
  destruct (decide (ch = 0)); [lia|].
  destruct i as [|i]; simpl.
  - eauto.
  - intros H. apply IH. lia.
Qed.

(** An array whose first [n] characters are not zero has a content of at
    least [n] characters. *)
Lemma content_length_ge (d : list Z) (n : nat) :
  (n ≤ length d)%nat →
  (∀ i, (i < n)%nat → d !! i ≠ Some 0) →
  Z.of_nat n ≤ content_length d.
Proof.
  revert n. induction d as [|ch r IH]; intros n; simpl.
  - lia.
  - intros Hn Hnz. destruct n as [|n]; [destruct (decide (ch = 0)); pose proof (content_length_bounds r); lia|].
    destruct (decide (ch = 0)) as [->|_].
    + exfalso. apply (Hnz 0%nat); [lia|done].
    + assert (Z.of_nat n ≤ content_length r); [|lia].
      apply IH; [lia|]. intros i Hi. apply (Hnz (S i)). lia.
Qed.

(** The string of an array ends where the array holds a zero. *)
Lemma wcslen_lookup (d : list Z) (l : Z) :
  wcslen d = Some l → d !! Z.to_nat l = Some 0.
Proof.
  unfold wcslen. destruct (wcs d) as [s|] eqn:E; simpl; [|done].
  intros [= <-]. rewrite Nat2Z.id. revert s E.
  induction d as [|ch r IH]; intros s; simpl; [done|].
  destruct (decide (ch = 0)) as [->|].
  - intros [= <-]. done.
  - destruct (wcs r) as [s'|] eqn:E; simpl; [|done].
    intros [= <-]. simpl. by apply IH.
Qed.

(** An array that holds a zero holds a string. *)
Lemma wcslen_is_Some (d : list Z) (i : nat) :
  d !! i = Some 0 → is_Some (wcslen d).
Proof.
  unfold wcslen. revert i. induction d as [|ch r IH]; intros i; simpl; [done|].
  destruct (decide (ch = 0)); [eauto|].
  destruct i as [|i]; simpl; [congruence|].
  intros H. destruct (IH _ H) as [l Hl].
  destruct (wcs r); simpl in *; eauto.
Qed.

Lemma wcs_zeros (n : Z) : 0 < n → wcs (zeros n) = Some [].
Proof.
  intros H. unfold zeros.
  destruct (Z.to_nat n) as [|k] eqn:E; [lia|]. done.
Qed.

Lemma length_zeros (n : Z) : length (zeros n) = Z.to_nat n.
Proof. unfold zeros. by rewrite length_replicate. Qed.

Lemma store_Some (d d' : list Z) (i v : Z) :
  store d i v = Some d' →
  0 ≤ i < Z.of_nat (length d) ∧ d' = <[Z.to_nat i := v]> d.
Proof. unfold store. case_decide; [|done]. by intros [= <-]. Qed.

Lemma load_Some (d : list Z) (i v : Z) :
  load d i = Some v → 0 ≤ i ∧ d !! Z.to_nat i = Some v.
Proof. unfold load. case_decide; [|done]. done. Qed.

Lemma memcpy_Some (dst src d' : list Z) (di si n : Z) :
  memcpy dst di src si n = Some d' →
  (0 ≤ di ∧ 0 ≤ si ∧ 0 ≤ n
   ∧ di + n ≤ Z.of_nat (length dst) ∧ si + n ≤ Z.of_nat (length src))
  ∧ length d' = length dst
  ∧ ∀ i : nat,
      d' !! i =
        if decide (Z.to_nat di ≤ i < Z.to_nat di + Z.to_nat n)%nat
        then src !! (Z.to_nat si + (i - Z.to_nat di))%nat
        else dst !! i.
Proof.
  unfold memcpy. case_decide as Hb; [|done]. intros [= <-].
  split; [done|].
  assert (Hl : length (take (Z.to_nat n) (drop (Z.to_nat si) src)) = Z.to_nat n).
  { rewrite length_take, length_drop. lia. }
  split.
  - rewrite !length_app, Hl, length_take, length_drop. lia.
  - intros i. case_decide as Hi.
    + rewrite lookup_app_r by (rewrite length_take; lia).
      rewrite length_take.
      rewrite lookup_app_l by lia.
      rewrite lookup_take_lt by lia. rewrite lookup_drop.
      f_equal. lia.
    + destruct (decide (i < Z.to_nat di)%nat).
      * rewrite lookup_app_l by (rewrite length_take; lia).
        by rewrite lookup_take_lt by lia.
      * rewrite lookup_app_r by (rewrite length_take; lia).
        rewrite length_take.
        rewrite lookup_app_r by lia.
        rewrite Hl, lookup_drop. f_equal. lia.
Qed.

(** [memcpy] succeeds within the bounds of the two arrays. *)
Lemma memcpy_is_Some (dst src : list Z) (di si n : Z) :
  0 ≤ di → 0 ≤ si → 0 ≤ n →
  di + n ≤ Z.of_nat (length dst) → si + n ≤ Z.of_nat (length src) →
  is_Some (memcpy dst di src si n).
Proof. intros. unfold memcpy. rewrite decide_True by done. eauto. Qed.

(** ** Repetition *)

Lemma min_spec (a b : Z) : min a b = Z.min a b.
Proof. unfold min. case_decide; lia. Qed.

Lemma max_spec (a b : Z) : max a b = Z.max a b.
Proof. unfold max. case_decide; lia. Qed.

Section DispatchFacts.

Context {St : Type}.
Variable cfg : Config.t.
Variable call : Action.t → St → St.

Lemma mrepeat_loop_iter (ac : Action.t) (n : nat) (s : St) :
  mrepeat_loop call ac n s = Nat.iter n (call ac) s.
Proof.
  revert s. induction n as [|n IH]; intros s; [done|].
  simpl mrepeat_loop. rewrite IH. clear IH.
  induction n as [|n IH]; [done|]. simpl. by rewrite IH.
Qed.

Lemma mrepeat_iter (ac : Action.t) (n : Z) (s : St) :
  mrepeat cfg call ac n s
  = Nat.iter (Z.to_nat (Z.min n (Config.max_cmd_repetition cfg))) (call ac) s.
Proof. unfold mrepeat. by rewrite mrepeat_loop_iter, min_spec. Qed.

End DispatchFacts.

Lemma iter_log_call (ac : Action.t) (n : nat) (l : list Action.t) :
  Nat.iter n (log_call ac) l = l ++ replicate n ac.
Proof.
  induction n as [|n IH]; simpl.
  - by rewrite app_nil_r.
  - rewrite IH. unfold log_call. rewrite <- app_assoc. f_equal.
    clear IH. induction n as [|n IH]; [done|]. simpl. by rewrite IH.
Qed.

Lemma mrepeat_log (cfg : Config.t) (ac : Action.t) (n : Z) (l : list Action.t) :
  mrepeat cfg log_call ac n l
  = l ++ replicate (Z.to_nat (Z.min n (Config.max_cmd_repetition cfg))) ac.
Proof. by rewrite mrepeat_iter, iter_log_call. Qed.

(** The calls of a command line: for each entry of the table that
    matches, in the order of the table, as many calls as [mrepeat] makes
    for the parsed count. *)
Lemma invocations_expected (cfg : Config.t) (iswspace : Z → bool)
    (wcsrtombs : list Z → string) (out : string → option string)
    (buf : list Z) :
  invocations cfg iswspace wcsrtombs out buf
  = expected_calls cfg wcsrtombs out (parse_count iswspace buf).1
      (parse_count iswspace buf).2.
Proof.
  unfold invocations, mruncmd, expected_calls.
  destruct (parse_count iswspace buf) as [cnt cmd]. simpl.
  fold (token_length cmd).
  change (if decide (Z.of_nat (length cmd) > token_length cmd)
          then Some (wcsrtombs (drop (Z.to_nat (token_length cmd + 1)) cmd))
          else None) with (argument wcsrtombs cmd).
  generalize (argument wcsrtombs cmd) as arg. intros arg.
  set (k := Z.to_nat (Z.min cnt (Config.max_cmd_repetition cfg))).
  set (f := λ entry : Action.t,
         if cmd_matches cmd (token_length cmd) entry
         then replicate k (resolved out arg entry) else []).
  set (step := λ (s : list Action.t) (entry : Action.t), _).
  assert (H : ∀ table l, foldl step l table = l ++ flat_map f table).
  { induction table as [|entry table IH]; intros l; simpl.
    - by rewrite app_nil_r.
    - rewrite IH. unfold step at 1. unfold f at 2.
      destruct (cmd_matches cmd (token_length cmd) entry); [|done].
      destruct arg as [[|ch sh]|]; simpl.
      + by rewrite mrepeat_log, <- app_assoc.
      + destruct ch as [[] [] [] [] [] [] [] []]; simpl;
          by rewrite mrepeat_log, <- app_assoc.
      + by rewrite mrepeat_log, <- app_assoc. }
  by rewrite H.
Qed.

Lemma calls_of_app (ac : Action.t) (l1 l2 : list Action.t) :
  calls_of ac (l1 ++ l2) = (calls_of ac l1 + calls_of ac l2)%nat.
Proof. unfold calls_of. by rewrite filter_app, length_app. Qed.

Lemma calls_of_replicate (ac a : Action.t) (n : nat) :
  calls_of ac (replicate n a) = if decide (a = ac) then n else 0%nat.
Proof.
  unfold calls_of. induction n as [|n IH]; simpl.
  - by case_decide.
  - rewrite filter_cons. case_decide; simpl; rewrite IH; by rewrite ?decide_True, ?decide_False by done.
Qed.

Lemma calls_of_cons (ac a : Action.t) (l : list Action.t) :
  calls_of ac (a :: l) = ((if decide (a = ac) then 1 else 0) + calls_of ac l)%nat.
Proof. unfold calls_of. rewrite filter_cons. by case_decide. Qed.

(** Without an argument on the command line, an entry that matches is
    called as often as it is in the table, times the capped count. *)
Lemma calls_of_expected (cfg : Config.t) (wcsrtombs : list Z → string)
    (out : string → option string) (k : Z) (cmd : list Z) (entry : Action.t) :
  argument wcsrtombs cmd = None →
  cmd_matches cmd (token_length cmd) entry = true →
  calls_of entry (expected_calls cfg wcsrtombs out k cmd)
  = (calls_of entry (Config.buffer_actions cfg)
     * Z.to_nat (Z.min k (Config.max_cmd_repetition cfg)))%nat.
Proof.
  intros Harg Hm. unfold expected_calls. rewrite Harg. simpl.
  induction (Config.buffer_actions cfg) as [|a table IH]; simpl; [done|].
  rewrite calls_of_app, calls_of_cons, IH.
  destruct (decide (a = entry)) as [->|Hne].
  - rewrite Hm, calls_of_replicate, decide_True by done. lia.
  - destruct (cmd_matches cmd (token_length cmd) a).
    + rewrite calls_of_replicate, decide_False by done. lia.
    + done.
Qed.

(** Without an argument on the command line, an entry that does not
    match is not called. *)
Lemma calls_of_expected_other (cfg : Config.t) (wcsrtombs : list Z → string)
    (out : string → option string) (k : Z) (cmd : list Z) (entry : Action.t) :
  argument wcsrtombs cmd = None →
  cmd_matches cmd (token_length cmd) entry = false →
  calls_of entry (expected_calls cfg wcsrtombs out k cmd) = 0%nat.
Proof.
  intros Harg Hm. unfold expected_calls. rewrite Harg. simpl.
  induction (Config.buffer_actions cfg) as [|a table IH]; simpl; [done|].
  rewrite calls_of_app, IH.
  destruct (decide (a = entry)) as [->|Hne].
  - by rewrite Hm.
  - destruct (cmd_matches cmd (token_length cmd) a); [|done].
    by rewrite calls_of_replicate, decide_False by done.
Qed.

(** ** The repetition count of a command line *)

Lemma digits_value_app (acc : Z) (ds rest : list Z) :
  Forall (λ ch, is_digit ch = true) ds → no_digit_ahead rest →
  digits_value acc (ds ++ rest)
  = (foldl (λ acc ch, 10 * acc + (ch - 48)) acc ds, rest).
Proof.
  intros Hds Hrest. revert acc.
  induction Hds as [|ch ds Hch _ IH]; intros acc; simpl.
  - destruct rest as [|ch r]; [done|]. simpl.
    by rewrite (Hrest ch eq_refl).
  - by rewrite Hch, IH.
Qed.

Lemma decimal_nonneg_from (acc : Z) (ds : list Z) :
  0 ≤ acc → Forall (λ ch, is_digit ch = true) ds →
  0 ≤ foldl (λ acc ch, 10 * acc + (ch - 48)) acc ds.
Proof.
  intros Hacc Hds. revert acc Hacc.
  induction Hds as [|ch ds Hch _ IH]; intros acc Hacc; simpl; [done|].
  apply IH. unfold is_digit in Hch. apply bool_decide_eq_true in Hch. lia.
Qed.

Lemma to_int_small (v : Z) : - 2 ^ 31 ≤ v ≤ INT_MAX → to_int v = v.
Proof.
  unfold to_int, INT_MAX. intros H.
  rewrite Z.mod_small by lia. lia.
Qed.

Lemma take_sign_other (ch : Z) (r : list Z) :
  ch ≠ 45 → ch ≠ 43 → take_sign (ch :: r) = (false, ch :: r).
Proof.
  intros H45 H43. unfold take_sign.
  destruct ch as [|p|p]; try done.
  do 6 (destruct p as [p|p|]; try done).
Qed.

(** A command line that starts with digits, of any value. *)
Lemma parse_count_digits_long (iswspace : Z → bool) (ds rest : list Z) :
  (∀ ch, is_digit ch = true → iswspace ch = false) →
  ds ≠ [] → Forall (λ ch, is_digit ch = true) ds → no_digit_ahead rest →
  parse_count iswspace (ds ++ rest)
  = (count_of (Z.min LONG_MAX (decimal ds)), rest).
Proof.
  intros Hsp Hne Hds Hrest.
  destruct ds as [|d0 ds]; [done|].
  pose proof (Forall_inv Hds) as Hd0.
  assert (d0 ≠ 45 ∧ d0 ≠ 43) as [H45 H43].
  { unfold is_digit in Hd0. apply bool_decide_eq_true in Hd0. lia. }
  unfold parse_count, wcstol, count_of.
  assert (skip_space iswspace ((d0 :: ds) ++ rest) = d0 :: (ds ++ rest)) as ->.
  { simpl. by rewrite (Hsp d0 Hd0). }
  rewrite take_sign_other by done. rewrite Hd0.
  change (d0 :: ds ++ rest) with ((d0 :: ds) ++ rest).
  by rewrite digits_value_app.
Qed.

(** A command line that starts with digits: the count is their value,
    1 for 0, and the command is what follows them. *)
Lemma parse_count_digits (iswspace : Z → bool) (ds rest : list Z) :
  (∀ ch, is_digit ch = true → iswspace ch = false) →
  ds ≠ [] → Forall (λ ch, is_digit ch = true) ds → no_digit_ahead rest →
  decimal ds ≤ INT_MAX →
  parse_count iswspace (ds ++ rest)
  = (if decide (decimal ds = 0) then 1 else decimal ds, rest).
Proof.
  intros Hsp Hne Hds Hrest Hmax.
  destruct ds as [|d0 ds]; [done|].
  pose proof (Forall_inv Hds) as Hd0.
  assert (d0 ≠ 45 ∧ d0 ≠ 43) as [H45 H43].
  { unfold is_digit in Hd0. apply bool_decide_eq_true in Hd0. lia. }
  pose proof (decimal_nonneg_from 0 (d0 :: ds) ltac:(lia) Hds) as Hnn.
  fold (decimal (d0 :: ds)) in Hnn.
  unfold parse_count, wcstol.
  assert (skip_space iswspace ((d0 :: ds) ++ rest) = d0 :: (ds ++ rest)) as ->.
  { simpl. by rewrite (Hsp d0 Hd0). }
  rewrite take_sign_other by done. rewrite Hd0.
  change (d0 :: ds ++ rest) with ((d0 :: ds) ++ rest).
  rewrite digits_value_app by done.
  fold (decimal (d0 :: ds)).
  assert (Z.min LONG_MAX (decimal (d0 :: ds)) = decimal (d0 :: ds)) as ->.
  { unfold LONG_MAX, INT_MAX in *. lia. }
  rewrite to_int_small by (unfold INT_MAX in *; lia). done.
Qed.

Lemma skip_space_blanks (iswspace : Z → bool) (ws s : list Z) :
  Forall (λ ch, iswspace ch = true) ws →
  (∀ ch, head s = Some ch → iswspace ch = false) →
  skip_space iswspace (ws ++ s) = s.
Proof.
  intros Hws Hs. induction Hws as [|w ws Hw _ IH]; simpl.
  - destruct s as [|ch r]; [done|]. simpl. by rewrite (Hs ch eq_refl).
  - by rewrite Hw.
Qed.

(** A command line of blanks, an optional sign and digits: the count is
    what is left of the value of the digits, within the range of [long],
    as an [int], 1 for 0; the command is what follows the digits. *)
Lemma parse_count_number (iswspace : Z → bool) (ws sg ds rest : list Z) :
  (∀ ch, is_digit ch = true → iswspace ch = false) →
  iswspace 43 = false → iswspace 45 = false →
  Forall (λ ch, iswspace ch = true) ws →
  sign_text sg →
  ds ≠ [] → Forall (λ ch, is_digit ch = true) ds → no_digit_ahead rest →
  parse_count iswspace (ws ++ sg ++ ds ++ rest)
  = (count_of (signed_value sg ds), rest).
Proof.
  intros Hsp H43 H45 Hws Hsg Hne Hds Hrest.
  destruct ds as [|d0 ds]; [done|].
  pose proof (Forall_inv Hds) as Hd0.
  assert (d0 ≠ 45 ∧ d0 ≠ 43) as [Hd45 Hd43].
  { unfold is_digit in Hd0. apply bool_decide_eq_true in Hd0. lia. }
  assert (Hdig : digits_value 0 ((d0 :: ds) ++ rest)
                 = (decimal (d0 :: ds), rest)).
  { by rewrite digits_value_app. }
  unfold parse_count, wcstol, count_of, signed_value.
  rewrite skip_space_blanks; [|done|].
  - destruct Hsg as [-> | [-> | ->]].
    + rewrite app_nil_l. cbn [app]. rewrite take_sign_other by done.
      rewrite Hd0. cbn [app] in Hdig. rewrite Hdig.
      by destruct (decide (_ = [45])).
    + cbn [app take_sign]. rewrite Hd0. cbn [app] in Hdig. rewrite Hdig.
      by destruct (decide (_ = [45])).
    + cbn [app take_sign]. rewrite Hd0. cbn [app] in Hdig. rewrite Hdig.
      by destruct (decide (_ = [45])).
  - intros ch Hch. destruct Hsg as [-> | [-> | ->]]; simpl in Hch.
    + injection Hch as <-. by apply Hsp.
    + by injection Hch as <-.
    + by injection Hch as <-.
Qed.

(** A command line of blanks and an optional sign with no digit after
    them: the count is 1 and the command is the whole line. *)
Lemma parse_count_no_digits (iswspace : Z → bool) (ws sg rest : list Z) :
  iswspace 43 = false → iswspace 45 = false →
  Forall (λ ch, iswspace ch = true) ws →
  sign_text sg →
  (sg = [] → no_number_ahead iswspace rest) →
  no_digit_ahead rest →
  parse_count iswspace (ws ++ sg ++ rest) = (1, ws ++ sg ++ rest).
Proof.
  intros H43 H45 Hws Hsg Hnone Hrest.
  unfold parse_count, wcstol.
  rewrite skip_space_blanks; [|done|].
  - destruct Hsg as [-> | [-> | ->]].
    + rewrite app_nil_l. destruct rest as [|ch r]; [done|].
      destruct (Hnone eq_refl ch eq_refl) as (_ & Hc45 & Hc43 & Hd).
      rewrite take_sign_other by done. by rewrite Hd.
    + cbn [app take_sign]. destruct rest as [|ch r]; [done|].
      by rewrite (Hrest ch eq_refl).
    + cbn [app take_sign]. destruct rest as [|ch r]; [done|].
      by rewrite (Hrest ch eq_refl).
  - intros ch Hch. destruct Hsg as [-> | [-> | ->]]; simpl in Hch.
    + by destruct (Hnone eq_refl ch Hch) as (? & _).
    + by injection Hch as <-.
    + by injection Hch as <-.
Qed.

(** A command line that does not start like a number: the count is 1 and
    the command is the whole line. *)
Lemma parse_count_absent (iswspace : Z → bool) (buf : list Z) :
  no_number_ahead iswspace buf →
  parse_count iswspace buf = (1, buf).
Proof.
  intros H. unfold parse_count, wcstol.
  destruct buf as [|ch r]; [done|].
  destruct (H ch eq_refl) as (Hsp & H45 & H43 & Hd).
  simpl skip_space. rewrite Hsp.
  rewrite take_sign_other by done. by rewrite Hd.
Qed.

Lemma expected_calls_capped (cfg : Config.t) (wcsrtombs : list Z → string)
    (out : string → option string) (n : Z) (cmd : list Z) :
  Config.max_cmd_repetition cfg < n →
  expected_calls cfg wcsrtombs out n cmd
  = expected_calls cfg wcsrtombs out (Config.max_cmd_repetition cfg) cmd.
Proof.
  intros H. unfold expected_calls.
  by replace (Z.min n (Config.max_cmd_repetition cfg))
    with (Z.min (Config.max_cmd_repetition cfg) (Config.max_cmd_repetition cfg))
    by lia.
Qed.

(** C10. For every action and every requested count [n >= 1], [mrepeat]
    invokes the operation of the action exactly
    [min(n, max_cmd_repetition)] times: whatever the operation does to the
    state, the result is that many applications of it, and on a state that
    logs the calls the action is logged that many times. A count parsed
    from a command line that exceeds the maximum is capped: the calls are
    those of the maximum. *)
Theorem mrepeat_capped (cfg : Config.t) (St : Type)
    (call : Action.t → St → St) (ac : Action.t) (n : Z) (s : St) :
  1 ≤ n → 0 ≤ Config.max_cmd_repetition cfg →
  mrepeat cfg call ac n s
  = Nat.iter (Z.to_nat (Z.min n (Config.max_cmd_repetition cfg))) (call ac) s
  ∧ mrepeat cfg log_call ac n []
    = replicate (Z.to_nat (Z.min n (Config.max_cmd_repetition cfg))) ac
  ∧ Z.of_nat (calls_of ac (mrepeat cfg log_call ac n []))
    = Z.min n (Config.max_cmd_repetition cfg)
  ∧ ∀ iswspace wcsrtombs out buf,
      (parse_count iswspace buf).1 = n →
      Config.max_cmd_repetition cfg < n →
      invocations cfg iswspace wcsrtombs out buf
      = expected_calls cfg wcsrtombs out (Config.max_cmd_repetition cfg)
          (parse_count iswspace buf).2.
Proof.
  intros Hn Hmax. split; [apply mrepeat_iter|].
  rewrite mrepeat_log, app_nil_l. split; [done|]. split.
  - rewrite calls_of_replicate, decide_True by done. lia.
  - intros iswspace wcsrtombs out buf Hc Hlt.
    rewrite invocations_expected, Hc. by apply expected_calls_capped.
Qed.

Lemma mrepeat_capped_witness :
  1 ≤ 101 ∧ 0 ≤ Config.max_cmd_repetition sample_cfg
  ∧ mrepeat sample_cfg log_call dd_action 101 [] = replicate 100 dd_action.
Proof.
  split; [lia|]. split; [vm_compute; discriminate|].
  exact (proj1 (proj2 (mrepeat_capped sample_cfg (list Action.t) log_call
                         dd_action 101 [] ltac:(lia)
                         ltac:(vm_compute; discriminate)))).
Defined.

Lemma dd_matches (entry : Action.t) :
  Action.cmd entry = Some [100; 100] →
  cmd_matches [100; 100] (token_length [100; 100]) entry = true.
Proof.
  intros H. unfold cmd_matches. rewrite H.
  apply orb_true_iff. right. done.
Qed.

(** C4, as the code has it. [mruncmd] reads the repetition count from the
    head of the command line as [wcstol] does: after blanks and an
    optional sign, the decimal digits, their value kept within the range
    of [long] and then converted to [int] (the low 32 bits, signed).
    Without a digit there, or when the converted value is 0, the count is
    1; without a digit the command is the whole line. On a command line
    that the actions leave as it is (the calls are counted in a log),
    each matching action is invoked [max(0, min(count,
    max_cmd_repetition))] times. Digits of a value up to [INT_MAX] at the
    head of the line give that value as the count, 1 for 0. For an action
    bound once to [dd]: ["3dd"] invokes it [min(3, max_cmd_repetition)]
    times, so 3 times when the maximum is at least 3; ["dd"] and ["0dd"]
    invoke it [min(1, max_cmd_repetition)] times, so once when the maximum
    is at least 1; ["4294967299dd"], whose value is 3 as an [int], invokes
    it as ["3dd"] does, and ["2147483648dd"], negative as an [int], does
    not invoke it. *)
Theorem mruncmd_repetition (cfg : Config.t) (iswspace : Z → bool)
    (wcsrtombs : list Z → string) (out : string → option string)
    (entry : Action.t) :
  (∀ ch, is_digit ch = true → iswspace ch = false) →
  Action.cmd entry = Some [100; 100] →
  calls_of entry (Config.buffer_actions cfg) = 1%nat →
  (∀ ds rest,
     ds ≠ [] → Forall (λ ch, is_digit ch = true) ds → no_digit_ahead rest →
     decimal ds ≤ INT_MAX →
     parse_count iswspace (ds ++ rest)
     = (if decide (decimal ds = 0) then 1 else decimal ds, rest))
  ∧ (∀ buf, no_number_ahead iswspace buf → parse_count iswspace buf = (1, buf))
  ∧ (∀ buf,
       invocations cfg iswspace wcsrtombs out buf
       = expected_calls cfg wcsrtombs out (parse_count iswspace buf).1
           (parse_count iswspace buf).2)
  ∧ calls_of entry (invocations cfg iswspace wcsrtombs out [51; 100; 100])
    = Z.to_nat (Z.min 3 (Config.max_cmd_repetition cfg))
  ∧ calls_of entry (invocations cfg iswspace wcsrtombs out [100; 100])
    = Z.to_nat (Z.min 1 (Config.max_cmd_repetition cfg))
  ∧ calls_of entry (invocations cfg iswspace wcsrtombs out [48; 100; 100])
    = Z.to_nat (Z.min 1 (Config.max_cmd_repetition cfg))
  ∧ (3 ≤ Config.max_cmd_repetition cfg →
     calls_of entry (invocations cfg iswspace wcsrtombs out [51; 100; 100])
     = 3%nat)
  ∧ (1 ≤ Config.max_cmd_repetition cfg →
     calls_of entry (invocations cfg iswspace wcsrtombs out [100; 100]) = 1%nat
     ∧ calls_of entry (invocations cfg iswspace wcsrtombs out [48; 100; 100])
       = 1%nat)
  ∧ (∀ ds rest,
       ds ≠ [] → Forall (λ ch, is_digit ch = true) ds → no_digit_ahead rest →
       parse_count iswspace (ds ++ rest)
       = (count_of (Z.min LONG_MAX (decimal ds)), rest))
  ∧ (iswspace 43 = false → iswspace 45 = false →
     ∀ ws sg,
       Forall (λ ch, iswspace ch = true) ws → sign_text sg →
       (∀ ds rest,
          ds ≠ [] → Forall (λ ch, is_digit ch = true) ds →
          no_digit_ahead rest →
          parse_count iswspace (ws ++ sg ++ ds ++ rest)
          = (count_of (signed_value sg ds), rest))
       ∧ (∀ rest,
            (sg = [] → no_number_ahead iswspace rest) →
            no_digit_ahead rest →
            parse_count iswspace (ws ++ sg ++ rest) = (1, ws ++ sg ++ rest)))
  ∧ (∀ buf entry',
       argument wcsrtombs (parse_count iswspace buf).2 = None →
       calls_of entry' (invocations cfg iswspace wcsrtombs out buf)
       = if cmd_matches (parse_count iswspace buf).2
              (token_length (parse_count iswspace buf).2) entry'
         then (calls_of entry' (Config.buffer_actions cfg)
               * Z.to_nat (Z.max 0 (Z.min (parse_count iswspace buf).1
                                      (Config.max_cmd_repetition cfg))))%nat
         else 0%nat)
  ∧ calls_of entry
      (invocations cfg iswspace wcsrtombs out
         [52; 50; 57; 52; 57; 54; 55; 50; 57; 57; 100; 100])
    = Z.to_nat (Z.min 3 (Config.max_cmd_repetition cfg))
  ∧ calls_of entry
      (invocations cfg iswspace wcsrtombs out
         [50; 49; 52; 55; 52; 56; 51; 54; 52; 56; 100; 100])
    = 0%nat.
Proof.
  intros Hsp Hcmd Honce.
  assert (Hnd : no_digit_ahead [100; 100]).
  { intros ch [= <-]. done. }
  assert (H3 : parse_count iswspace [51; 100; 100] = (3, [100; 100])).
  { apply (parse_count_digits iswspace [51] [100; 100]); try done.
    repeat constructor. }
  assert (H0 : parse_count iswspace [48; 100; 100] = (1, [100; 100])).
  { apply (parse_count_digits iswspace [48] [100; 100]); try done.
    repeat constructor. }
  assert (Hdd : parse_count iswspace [100; 100] = (1, [100; 100])).
  { unfold parse_count, wcstol. simpl.
    destruct (iswspace 100); simpl; [|done].
    destruct (iswspace 100); simpl; done. }
  assert (Hwrap : parse_count iswspace
                    [52; 50; 57; 52; 57; 54; 55; 50; 57; 57; 100; 100]
                  = (3, [100; 100])).
  { etrans; [apply (parse_count_digits_long iswspace
                      [52; 50; 57; 52; 57; 54; 55; 50; 57; 57] [100; 100]);
               try done; repeat constructor|].
    by vm_compute. }
  assert (Hneg : parse_count iswspace
                   [50; 49; 52; 55; 52; 56; 51; 54; 52; 56; 100; 100]
                 = (- 2 ^ 31, [100; 100])).
  { etrans; [apply (parse_count_digits_long iswspace
                      [50; 49; 52; 55; 52; 56; 51; 54; 52; 56] [100; 100]);
               try done; repeat constructor|].
    by vm_compute. }
  assert (Hcalls : ∀ buf k,
            parse_count iswspace buf = (k, [100; 100]) →
            calls_of entry (invocations cfg iswspace wcsrtombs out buf)
            = Z.to_nat (Z.min k (Config.max_cmd_repetition cfg))).
  { intros buf k Hk. rewrite invocations_expected, Hk. simpl.
    rewrite calls_of_expected; [|done|by apply dd_matches].
    rewrite Honce. lia. }
  split; [intros; by apply parse_count_digits|].
  split; [apply parse_count_absent|].
  split; [apply invocations_expected|].
  rewrite (Hcalls _ _ H3), (Hcalls _ _ H0), (Hcalls _ _ Hdd),
    (Hcalls _ _ Hwrap), (Hcalls _ _ Hneg).
  split; [done|]. split; [done|]. split; [done|].
  split; [intros; lia|]. split; [intros; split; lia|].
  split; [intros; by apply parse_count_digits_long|].
  split.
  { intros H43 H45 ws sg Hws Hsg. split.
    - intros. by apply parse_count_number.
    - intros. by apply parse_count_no_digits. }
  split; [|split; [done|lia]].
  intros buf entry' Harg.
  rewrite invocations_expected.
  destruct (cmd_matches _ _ entry') eqn:Hm.
  - rewrite calls_of_expected by done. f_equal. lia.
  - by apply calls_of_expected_other.
Qed.

Lemma mruncmd_repetition_witness :
  (∀ ch, is_digit ch = true → iswspace_C ch = false)
  ∧ Action.cmd dd_action = Some [100; 100]
  ∧ calls_of dd_action (Config.buffer_actions sample_cfg) = 1%nat
  ∧ calls_of dd_action
      (invocations sample_cfg iswspace_C wcsrtombs_ascii (λ _, None)
         [51; 100; 100]) = 3%nat.
Proof.
  assert (H : ∀ ch, is_digit ch = true → iswspace_C ch = false).
  { intros ch Hd. unfold is_digit in Hd. apply bool_decide_eq_true in Hd.
    unfold iswspace_C. apply bool_decide_eq_false. lia. }
  split; [exact H|]. split; [reflexivity|]. split; [reflexivity|].
  exact (proj1 (proj2 (proj2 (proj2 (proj2 (proj2 (proj2
           (mruncmd_repetition sample_cfg iswspace_C wcsrtombs_ascii
              (λ _, None) dd_action H eq_refl eq_refl)))))))
         ltac:(vm_compute; discriminate)).
Defined.

(** C4, as stated, fails: with a maximum of 100 repetitions, the command
    line ["101dd"] has the count 101 and invokes the action bound to [dd]
    100 times. *)
Lemma count_above_maximum_is_capped :
  (parse_count iswspace_C [49; 48; 49; 100; 100]).1 = 101
  ∧ calls_of dd_action
      (invocations sample_cfg iswspace_C wcsrtombs_ascii (λ _, None)
         [49; 48; 49; 100; 100]) = 100%nat
  ∧ calls_of dd_action
      (invocations sample_cfg iswspace_C wcsrtombs_ascii (λ _, None)
         [49; 48; 49; 100; 100])
    ≠ Z.to_nat (parse_count iswspace_C [49; 48; 49; 100; 100]).1.
Proof.
  split; [by vm_compute|]. split; [by vm_compute|].
  vm_compute. lia.
Qed.

(** ** Jumps *)

(** C6 fails on the code: [mjump] does not use [buf]; it reads and writes
    [curbuf]. With ["abc"] in buffer 0 (column 3) and ["xy"] in the
    current buffer 1 (column 2), [mjump] on buffer 0 with the marker Start
    leaves the column of buffer 0 at 3 and sets that of buffer 1 to 0. *)
Theorem mjump_moves_curbuf :
  (∀ e buf mark, mjump e buf mark = mjump e (Editor.curbuf e) mark)
  ∧ Editor.curbuf <$> two_buffers = Some (Some 1%nat)
  ∧ views two_buffers
    = Some [([Some [97; 98; 99]], 0%nat, (3, 0), 0);
            ([Some [120; 121]], 0%nat, (2, 0), 0)]
  ∧ views (two_buffers ≫= λ e, mjump e (Some 0%nat) MARKER_START)
    = Some [([Some [97; 98; 99]], 0%nat, (3, 0), 0);
            ([Some [120; 121]], 0%nat, (0, 0), 0)].
Proof. split; [done|]. by vm_compute. Qed.

(** ** Backspace at the start of the buffer *)

(** C9. Backspace at column 0 of the first line of a buffer changes
    nothing: the state after [minsert] is the state before it. *)
Theorem backspace_at_start_of_buffer (cfg : Config.t) (iswspace : Z → bool)
    (runcmd : Editor.t → list Z → option Editor.t)
    (e : Editor.t) (p : nat) (b : Buffer.t) (ln : Line.t) :
  Editor.bufs e !! p = Some b →
  Buffer.curline b = 0%nat →
  Buffer.lines b !! 0%nat = Some ln →
  is_Some (wcslen (Line.data ln)) →
  cur_x b = 0 →
  minsert cfg iswspace runcmd e (Some p) KEY_BACKSPACE = Some e.
Proof.
  intros Hb Hcur Hln [l Hl] Hx. unfold minsert.
  rewrite Hb. simpl. rewrite Hcur, Hln, Hl. simpl.
  case_decide; [lia|done].
Qed.

Lemma backspace_at_start_of_buffer_witness :
  ∃ e b ln,
    session 24 80 = Some e
    ∧ Editor.bufs e !! 1%nat = Some b
    ∧ Buffer.curline b = 0%nat
    ∧ Buffer.lines b !! 0%nat = Some ln
    ∧ is_Some (wcslen (Line.data ln))
    ∧ cur_x b = 0
    ∧ minsert sample_cfg iswspace_C no_runcmd e (Some 1%nat) KEY_BACKSPACE
      = Some e.
Proof.
  eexists _, _, _. split; [vm_compute; reflexivity|].
  split; [reflexivity|]. split; [reflexivity|]. split; [reflexivity|].
  split; [vm_compute; eauto|]. split; [reflexivity|].
  eapply backspace_at_start_of_buffer.
  - reflexivity.
  - reflexivity.
  - reflexivity.
  - vm_compute. eauto.
  - reflexivity.
Defined.

(** ** The buffer store *)

Lemma mnewbuf_fresh (cfg : Config.t) (e : Editor.t) :
  (mnewbuf cfg e).2 = Some (length (Editor.bufs e))
  ∧ length (Editor.bufs (mnewbuf cfg e).1) = S (length (Editor.bufs e))
  ∧ Editor.files (mnewbuf cfg e).1 = Editor.files e
  ∧ ∃ b,
      Editor.bufs (mnewbuf cfg e).1 !! length (Editor.bufs e) = Some b
      ∧ Buffer.lines b
        = [Line.mk (Config.default_linebuf_size cfg)
             (zeros (new_line_capacity cfg))]
      ∧ Buffer.curline b = 0%nat
      ∧ Buffer.path b = None
      ∧ Buffer.cursor b
        = Cursor.mk (Coord.mk 0 0) (Coord.mk 0 0) (Coord.mk 0 0) 0.
Proof.
  unfold mnewbuf. simpl. split; [done|].
  destruct (Editor.buflist e) as [n|]; simpl.
  - split; [by rewrite length_alter, length_app; simpl; lia|]. split; [done|].
    rewrite list_lookup_alter.
    case_decide; subst; rewrite lookup_app_r, Nat.sub_diag by lia;
      simpl; eauto 10.
  - split; [by rewrite length_app; simpl; lia|]. split; [done|].
    rewrite lookup_app_r, Nat.sub_diag by lia. simpl. eauto 10.
Qed.

Lemma new_line_capacity_eq (cfg : Config.t) :
  new_line_capacity cfg = Config.default_linebuf_size cfg + 18.
Proof.
  unfold new_line_capacity, sizeof_wchar_t, sizeof_Line.
  replace (4 * (24 + Config.default_linebuf_size cfg) - 24)
    with ((Config.default_linebuf_size cfg + 18) * 4) by lia.
  by rewrite Z.quot_mul.
Qed.

Lemma open_write_Some (f : Files.t) (path : string) :
  path ∉ Files.unwritable f →
  open_write f path
  = Some (Files.mk (<[path := []]> (Files.content f)) (Files.unwritable f)
            (Files.stdin f)).
Proof. intros H. unfold open_write. by rewrite decide_False. Qed.

(** ** Loading a path that cannot be opened *)

(** C8. Loading a path that cannot be opened for reading succeeds
    ([mreadbuf] returns 1): the new buffer, which is the current one, has
    the requested path and a single line, which is empty. A later save
    without an argument, when the path can be opened for writing, creates
    the file, with that one empty line. *)
Theorem load_of_unreadable_path (cfg : Config.t) (e : Editor.t)
    (path : string) (load : Action.t) (write : Action.t) :
  0 < Config.default_linebuf_size cfg →
  open_read e path = None →
  Action.arg load = ArgV (Some path) →
  Action.arg write = ArgV None →
  ∃ e' p b ln,
    readfile cfg e load = Some e'
    ∧ mreadbuf cfg (set_curbuf (mnewbuf cfg e).2 (mnewbuf cfg e).1)
        (mnewbuf cfg e).2 path = Some (e', 1)
    ∧ Editor.curbuf e' = Some p
    ∧ Editor.bufs e' !! p = Some b
    ∧ Buffer.path b = Some path
    ∧ Buffer.lines b = [ln]
    ∧ wcs (Line.data ln) = Some []
    ∧ (path ∉ Files.unwritable (Editor.files e') →
       ∃ e'', save cfg e' write = Some e''
              ∧ Files.content (Editor.files e'') !! path = Some [NEWLINE]).
Proof.
  intros Hdls Hopen Hload Hwrite.
  destruct (mnewbuf_fresh cfg e) as (Hp & Hlen & Hfiles & b0 & Hb0 & Hlines & Hcur & Hpath & Hcs).
  assert (Hne : path ≠ "-"%string).
  { intros ->. unfold open_read in Hopen. by rewrite decide_True in Hopen. }
  destruct (mnewbuf cfg e) as [e1 p1] eqn:E1. simpl in *. subst p1.
  assert (Hopen1 : open_read (set_curbuf (Some (length (Editor.bufs e))) e1) path = None).
  { unfold open_read in *. rewrite decide_False in * by done. simpl.
    by rewrite Hfiles. }
  set (p := length (Editor.bufs e)) in *.
  set (ln := Line.mk (Config.default_linebuf_size cfg) (zeros (new_line_capacity cfg))).
  assert (Hread : mreadbuf cfg (set_curbuf (Some p) e1) (Some p) path
          = Some (setbuf (set_curbuf (Some p) e1) p (set_path (Some path) b0), 1)).
  { unfold mreadbuf. simpl. rewrite Hb0. simpl. rewrite Hopen1. simpl.
    by rewrite decide_False by done. }
  assert (Hlk : Editor.bufs (setbuf (set_curbuf (Some p) e1) p (set_path (Some path) b0)) !! p
          = Some (set_path (Some path) b0)).
  { simpl. apply list_lookup_insert_eq. lia. }
  assert (Hwcs : wcs (Line.data ln) = Some []).
  { simpl. apply wcs_zeros. rewrite new_line_capacity_eq. lia. }
  eexists _, p, (set_path (Some path) b0), ln.
  split.
  { unfold readfile. rewrite Hload. cbn -[mreadbuf mnewbuf].
    rewrite E1. fold p. by rewrite Hread. }
  split; [done|]. split; [done|].
  split; [exact Hlk|]. split; [done|]. split; [done|]. split; [exact Hwcs|].
  simpl. rewrite Hfiles. intros Hw.
  unfold save. rewrite Hwrite. simpl.
  unfold getbuf. simpl. simpl in Hlk. rewrite Hlk. simpl.
  rewrite Hlines. simpl. simpl in Hwcs. rewrite Hwcs. simpl.
  rewrite Hfiles.
  destruct (Config.backup_on_write cfg); simpl.
  - destruct (open_write (Editor.files e) (Config.backup_path cfg)) as [f1|] eqn:Ebak; simpl.
    + assert (Hun : Files.unwritable f1 = Files.unwritable (Editor.files e)).
      { unfold open_write in Ebak. case_decide; [done|]. by injection Ebak as <-. }
      destruct (Files.content f1 !! path) as [src|]; simpl.
      * rewrite open_write_Some by (simpl; by rewrite Hun). simpl.
        eexists. split; [done|]. simpl. by rewrite lookup_insert_eq.
      * rewrite open_write_Some by (by rewrite Hun). simpl.
        eexists. split; [done|]. simpl. by rewrite lookup_insert_eq.
    + rewrite open_write_Some by done. simpl.
      eexists. split; [done|]. simpl. by rewrite lookup_insert_eq.
  - rewrite open_write_Some by done. simpl.
    eexists. split; [done|]. simpl. by rewrite lookup_insert_eq.
Qed.

Lemma load_of_unreadable_path_witness :
  0 < Config.default_linebuf_size sample_cfg
  ∧ open_read (start 24 80 no_files) "notes.txt" = None
  ∧ ∃ e' p b ln,
      readfile sample_cfg (start 24 80 no_files) load_notes = Some e'
      ∧ Editor.curbuf e' = Some p
      ∧ Editor.bufs e' !! p = Some b
      ∧ Buffer.path b = Some "notes.txt"%string
      ∧ Buffer.lines b = [ln]
      ∧ wcs (Line.data ln) = Some [].
Proof.
  split; [reflexivity|]. split; [reflexivity|].
  destruct (load_of_unreadable_path sample_cfg (start 24 80 no_files)
              "notes.txt" load_notes save_action eq_refl eq_refl eq_refl
              eq_refl)
    as (e' & p & b & ln & H1 & _ & H3 & H4 & H5 & H6 & H7 & _).
  exists e', p, b, ln. repeat split; assumption.
Defined.

(** ** Moves *)

Lemma mnumvislines_same_window (e e' : Editor.t) (ln : Line.t) :
  Editor.bufwin_col e' = Editor.bufwin_col e →
  mnumvislines e' ln = mnumvislines e ln.
Proof. intros H. unfold mnumvislines. by rewrite H. Qed.

(** The loops of [mmove] walk over the lines and leave them as they are;
    they keep the row in view when every line fits the viewport. *)
Lemma mmove_up_spec (e : Editor.t) (n : nat) (b b' : Buffer.t) :
  mmove_up e n b = Some b' →
  Buffer.lines b' = Buffer.lines b
  ∧ Buffer.path b' = Buffer.path b
  ∧ cur_x b' = cur_x b
  ∧ (Buffer.curline b' ≤ Buffer.curline b)%nat
  ∧ (is_Some (Buffer.lines b !! Buffer.curline b) →
     is_Some (Buffer.lines b' !! Buffer.curline b'))
  ∧ (lines_fit e b → row_in_view e b → row_in_view e b').
Proof.
  revert b. induction n as [|n IH]; intros b; simpl.
  - intros [= <-]. done.
  - destruct (Buffer.lines b !! Buffer.curline b) as [ln|] eqn:Hln; simpl; [|done].
    case_decide as Hprev; [|intros [= <-]; rewrite Hln; eauto 10].
    set (b1 := set_y _ _).
    assert (Hln1 : is_Some (Buffer.lines b !! (Buffer.curline b - 1)%nat)).
    { apply lookup_lt_is_Some. apply lookup_lt_Some in Hln. lia. }
    destruct Hln1 as [ln1 Hln1].
    case_decide as Hscroll.
    + rewrite Hln1. simpl.
      destruct (mnumvislines e ln1) as [v|] eqn:Hv; simpl; [|done].
      intros H. destruct (IH _ H) as (Hl & Hp & Hx & Hc & Hs & Hr). simpl in *.
      split_and!; [done|done|done|lia|intros _; apply Hs; eauto|].
      intros Hfit Hview. apply Hr; [done|].
      destruct (Hfit ln1) as (v' & Hv' & Hb).
      { apply list_elem_of_lookup. eauto. }
      rewrite Hv in Hv'. injection Hv' as <-.
      unfold row_in_view in *. unfold b1 in Hscroll. simpl in *.
      unfold cur_y, cur_starty in *. simpl in *. lia.
    + intros H. destruct (IH _ H) as (Hl & Hp & Hx & Hc & Hs & Hr). simpl in *.
      split_and!; [done|done|done|lia|intros _; apply Hs; eauto|].
      intros Hfit Hview. apply Hr; [done|].
      unfold row_in_view in *. unfold b1 in Hscroll. simpl in *.
      unfold cur_y, cur_starty in *. simpl in *. lia.
Qed.

Lemma mmove_down_spec (e : Editor.t) (n : nat) (b b' : Buffer.t) :
  mmove_down e n b = Some b' →
  Buffer.lines b' = Buffer.lines b
  ∧ Buffer.path b' = Buffer.path b
  ∧ cur_x b' = cur_x b
  ∧ (Buffer.curline b ≤ Buffer.curline b')%nat
  ∧ (is_Some (Buffer.lines b !! Buffer.curline b) →
     is_Some (Buffer.lines b' !! Buffer.curline b'))
  ∧ (lines_fit e b → row_in_view e b → row_in_view e b').
Proof.
  revert b. induction n as [|n IH]; intros b; simpl.
  - intros [= <-]. done.
  - destruct (Buffer.lines b !! Buffer.curline b) as [ln|] eqn:Hln; simpl; [|done].
    case_decide as Hnext; [|intros [= <-]; rewrite Hln; eauto 10].
    set (b1 := set_y _ _).
    assert (Hln1 : is_Some (Buffer.lines b !! (Buffer.curline b + 1)%nat)).
    { apply lookup_lt_is_Some. lia. }
    destruct Hln1 as [ln1 Hln1].
    case_decide as Hscroll.
    + rewrite Hln1. simpl.
      destruct (mnumvislines e ln1) as [v|] eqn:Hv; simpl; [|done].
      intros H. destruct (IH _ H) as (Hl & Hp & Hx & Hc & Hs & Hr). simpl in *.
      split_and!; [done|done|done|lia|intros _; apply Hs; eauto|].
      intros Hfit Hview. apply Hr; [done|].
      destruct (Hfit ln1) as (v' & Hv' & Hb).
      { apply list_elem_of_lookup. eauto. }
      rewrite Hv in Hv'. injection Hv' as <-.
      unfold row_in_view in *. unfold b1 in Hscroll. simpl in *.
      unfold cur_y, cur_starty in *. simpl in *. lia.
    + intros H. destruct (IH _ H) as (Hl & Hp & Hx & Hc & Hs & Hr). simpl in *.
      split_and!; [done|done|done|lia|intros _; apply Hs; eauto|].
      intros Hfit Hview. apply Hr; [done|].
      unfold row_in_view in *. unfold b1 in Hscroll. simpl in *.
      unfold cur_y, cur_starty in *. simpl in *. lia.
Qed.

(** [mmove] on a buffer: the lines stay, the current line is one of
    them, the column ends within it, and the row stays in view when
    every line fits the viewport. *)
Lemma mmove_buffer_spec (e : Editor.t) (b b' : Buffer.t) (x y : Z) :
  mmove_buffer e b x y = Some b' →
  Buffer.lines b' = Buffer.lines b
  ∧ Buffer.path b' = Buffer.path b
  ∧ cursor_in_line b'
  ∧ (lines_fit e b → row_in_view e b → row_in_view e b').
Proof.
  unfold mmove_buffer. intros H.
  destruct (if decide (y < 0) then _ else _) as [b1|] eqn:Hloop; simpl in H; [|done].
  destruct (Buffer.lines b1 !! Buffer.curline b1) as [ln|] eqn:Hln; simpl in H; [|done].
  destruct (wcslen (Line.data ln)) as [len|] eqn:Hlen; simpl in H; [|done].
  injection H as <-.
  assert (Hspec : Buffer.lines b1 = Buffer.lines b ∧ Buffer.path b1 = Buffer.path b
                  ∧ (lines_fit e b → row_in_view e b → row_in_view e b1)).
  { case_decide.
    - by destruct (mmove_up_spec _ _ _ _ Hloop) as (Hl & Hp & _ & _ & _ & Hr).
    - by destruct (mmove_down_spec _ _ _ _ Hloop) as (Hl & Hp & _ & _ & _ & Hr). }
  destruct Hspec as (Hl & Hp & Hr).
  split; [done|]. split; [done|]. split.
  - exists ln. split; [done|]. simpl.
    rewrite (wcslen_content_length _ _ Hlen).
    pose proof (wcslen_bounds _ _ Hlen).
    unfold cur_x. simpl. rewrite max_spec, min_spec. lia.
  - intros Hfit Hview. specialize (Hr Hfit Hview).
    unfold row_in_view in *. done.
Qed.

Lemma mmove_Some (e e' : Editor.t) (p : nat) (x y : Z) :
  mmove e (Some p) x y = Some e' →
  ∃ b b', Editor.bufs e !! p = Some b
          ∧ mmove_buffer e b x y = Some b'
          ∧ e' = setbuf e p b'.
Proof.
  unfold mmove. simpl.
  destruct (Editor.bufs e !! p) as [b|] eqn:Hb; simpl; [|done].
  destruct (mmove_buffer e b x y) as [b'|] eqn:Hm; simpl; [|done].
  intros [= <-]. eauto.
Qed.

Lemma setbuf_lookup (e : Editor.t) (p : nat) (b b' : Buffer.t) :
  Editor.bufs e !! p = Some b →
  Editor.bufs (setbuf e p b') !! p = Some b'.
Proof.
  intros H. simpl. apply list_lookup_insert_eq. by apply lookup_lt_Some in H.
Qed.

(** X1. When the row of the current line is in view
    before a move and every line of the buffer takes between one visual
    row and as many as the viewport has, the row is in view after the
    move: [starty <= y < starty + viewportHeight]. The move leaves the
    size of the viewport as it is. *)
Theorem move_keeps_row_in_view (e e' : Editor.t) (p : nat) (b : Buffer.t)
    (x y : Z) :
  Editor.bufs e !! p = Some b →
  lines_fit e b →
  row_in_view e b →
  mmove e (Some p) x y = Some e' →
  Editor.bufwin_row e' = Editor.bufwin_row e
  ∧ ∃ b', Editor.bufs e' !! p = Some b' ∧ row_in_view e' b'.
Proof.
  intros Hb Hfit Hview Hm.
  destruct (mmove_Some _ _ _ _ _ Hm) as (b0 & b' & Hb0 & Hmb & ->).
  rewrite Hb in Hb0. injection Hb0 as <-.
  split; [done|]. exists b'. split; [by eapply setbuf_lookup|].
  destruct (mmove_buffer_spec _ _ _ _ _ Hmb) as (_ & _ & _ & Hr).
  by apply Hr.
Qed.

Lemma move_keeps_row_in_view_witness :
  short_lines_session = Some short_lines_state
  ∧ Editor.bufs short_lines_state !! 1%nat = Some short_lines_buffer
  ∧ lines_fit short_lines_state short_lines_buffer
  ∧ row_in_view short_lines_state short_lines_buffer
  ∧ (cur_y short_lines_buffer = 0 ∧ cur_starty short_lines_buffer = 0)
  ∧ mmove short_lines_state (Some 1%nat) 0 3 = Some short_lines_moved
  ∧ Editor.bufs short_lines_moved !! 1%nat = Some short_lines_moved_buffer
  ∧ (cur_y short_lines_moved_buffer = 3
     ∧ cur_starty short_lines_moved_buffer = 2)
  ∧ Editor.bufwin_row short_lines_moved = Editor.bufwin_row short_lines_state
  ∧ ∃ b', Editor.bufs short_lines_moved !! 1%nat = Some b'
          ∧ row_in_view short_lines_moved b'.
Proof.
  assert (Hfit : lines_fit short_lines_state short_lines_buffer).
  { unfold lines_fit. apply Forall_forall.
    unfold short_lines_buffer. cbn [Buffer.lines].
    repeat apply Forall_cons_2; [..|apply Forall_nil_2];
      (exists 1; split; [reflexivity|vm_compute; split; discriminate]). }
  assert (Hview : row_in_view short_lines_state short_lines_buffer).
  { vm_compute. split; [discriminate|reflexivity]. }
  assert (Hmove : mmove short_lines_state (Some 1%nat) 0 3
                  = Some short_lines_moved) by (vm_compute; reflexivity).
  split; [vm_compute; reflexivity|]. split; [reflexivity|].
  split; [exact Hfit|]. split; [exact Hview|].
  split; [split; reflexivity|]. split; [exact Hmove|].
  split; [reflexivity|]. split; [split; reflexivity|].
  exact (move_keeps_row_in_view short_lines_state short_lines_moved 1%nat
           short_lines_buffer 0 3 eq_refl Hfit Hview Hmove).
Defined.

(** The bound on the visual rows of the lines is needed. In a viewport
    of 2 rows and 5 columns, with
    the cursor on the first of three lines and row 0 in view
    ([starty = 0]), a move down by two lines lands on a line of ten
    characters, which takes 3 visual rows: the row is 2 and [starty]
    becomes 3. *)
Lemma move_onto_long_line_leaves_view :
  long_line_session = Some long_line_state
  ∧ Editor.bufs long_line_state !! 1%nat = Some long_line_buffer
  ∧ row_in_view long_line_state long_line_buffer
  ∧ ∃ e' b',
      mmove long_line_state (Some 1%nat) 0 2 = Some e'
      ∧ Editor.bufwin_row e' = Editor.bufwin_row long_line_state
      ∧ Editor.bufs e' !! 1%nat = Some b'
      ∧ cur_y b' = 2 ∧ cur_starty b' = 3
      ∧ ¬ row_in_view e' b'.
Proof.
  split; [by vm_compute|]. split; [reflexivity|].
  split; [vm_compute; split; [discriminate|reflexivity]|].
  eexists _, _.
  split; [vm_compute; reflexivity|]. split; [reflexivity|].
  split; [reflexivity|]. split; [reflexivity|]. split; [reflexivity|].
  unfold row_in_view. vm_compute. intros [H _]. by apply H.
Qed.

(** ** The line editor and the cursor column *)

Lemma fill_Some (d d' : list Z) (i : Z) (count : nat) (ch : Z) :
  fill d i count ch = Some d' →
  length d' = length d
  ∧ ∀ j : nat,
      d' !! j = if decide (i ≤ Z.of_nat j < i + Z.of_nat count)
                then Some ch else d !! j.
Proof.
  revert d i. induction count as [|k IH]; intros d i; simpl.
  - intros [= <-]. split; [done|]. intros j. by rewrite decide_False by lia.
  - destruct (store d i ch) as [d1|] eqn:Hst; simpl; [|done].
    apply store_Some in Hst as [Hi ->].
    intros H. destruct (IH _ _ H) as [Hlen Hlk].
    rewrite length_insert in Hlen. split; [done|].
    intros j. rewrite Hlk.
    destruct (decide (Z.of_nat j = i)) as [<-|Hne].
    + rewrite decide_False by lia. rewrite decide_True by lia.
      rewrite Nat2Z.id. apply list_lookup_insert_eq. lia.
    + rewrite list_lookup_insert_ne by lia.
      repeat case_decide; try done; lia.
Qed.

(** A plain indentation leaves no gap: the first [ox] characters of the
    line are tabs or spaces. *)
Lemma mindent_plain (cfg : Config.t) (ln ln' : Line.t) (mx ox : Z) :
  mindent cfg ln mx = Some (ln', ox) →
  plain_indent cfg mx →
  length (Line.data ln') = length (Line.data ln)
  ∧ ∀ j : nat, Z.of_nat j < ox → ∃ v, Line.data ln' !! j = Some v ∧ v ≠ 0.
Proof.
  unfold mindent, plain_indent. intros H Hplain.
  case_guard; simpl in H; [|done].
  destruct (fill (Line.data ln) 0 _ TAB) as [d1|] eqn:H1; simpl in H; [|done].
  destruct (fill d1 _ _ SPACE) as [d2|] eqn:H2; simpl in H; [|done].
  injection H as <- <-. simpl.
  apply fill_Some in H1 as [Hl1 Hk1]. apply fill_Some in H2 as [Hl2 Hk2].
  split; [congruence|].
  intros j Hj. rewrite Hk2. case_decide; [by exists SPACE|].
  rewrite Hk1. case_decide; [by exists TAB|]. lia.
Qed.

Lemma cursor_in_line_intro (b : Buffer.t) (ln : Line.t) (n : nat) :
  Buffer.lines b !! Buffer.curline b = Some ln →
  cur_x b = Z.of_nat n →
  (n ≤ length (Line.data ln))%nat →
  (∀ i, (i < n)%nat → Line.data ln !! i ≠ Some 0) →
  cursor_in_line b.
Proof.
  intros Hln Hx Hn Hnz. exists ln. split; [done|].
  rewrite Hx. split; [lia|]. by apply content_length_ge.
Qed.

(** The characters before the cursor are not zero. *)
Lemma before_cursor_nonzero (d : list Z) (x : Z) (i : nat) :
  0 ≤ x ≤ content_length d → (i < Z.to_nat x)%nat → d !! i ≠ Some 0.
Proof.
  intros Hx Hi.
  destruct (content_length_lookup d i) as (v & Hv & Hnz); [lia|].
  rewrite Hv. congruence.
Qed.

(** A key that is not the terminator is not stored as the terminator,
    and a key below [2^31] is stored as it is. *)
Lemma wchar_of_wint_nonzero (key : Z) : key ≠ 0 → wchar_of_wint key ≠ 0.
Proof. unfold wchar_of_wint. case_decide; lia. Qed.

Lemma wchar_of_wint_small (key : Z) : key < 2 ^ 31 → wchar_of_wint key = key.
Proof. unfold wchar_of_wint. intros H. rewrite decide_False by lia. done. Qed.

(** Inversion of one step of a computation that succeeded. *)
Ltac bind_inv H :=
  match type of H with
  | (?o ≫= _) = Some _ =>
      let E := fresh "E" in
      destruct o eqn:E;
      cbn -[mnewbuf mreadbuf mmove mjump minsert mfreebuf mindent] in H;
      [|discriminate H]
  end.

(** One step up, one step down. *)
Lemma mmove_buffer_up_one (e : Editor.t) (b b' : Buffer.t) (x : Z) :
  mmove_buffer e b x (-1) = Some b' →
  (0 < Buffer.curline b)%nat →
  Buffer.curline b' = (Buffer.curline b - 1)%nat.
Proof.
  unfold mmove_buffer. rewrite decide_True by lia.
  change (Z.to_nat (Z.abs (-1))) with 1%nat. simpl.
  intros H Hprev. rewrite decide_True in H by done.
  repeat case_decide; simplify_option_eq; done.
Qed.

Lemma mmove_buffer_down_one (e : Editor.t) (b b' : Buffer.t) (x : Z) :
  mmove_buffer e b x 1 = Some b' →
  (Buffer.curline b + 1 < length (Buffer.lines b))%nat →
  Buffer.curline b' = (Buffer.curline b + 1)%nat.
Proof.
  unfold mmove_buffer. rewrite decide_False by lia.
  change (Z.to_nat 1) with 1%nat. simpl.
  intros H Hnext. rewrite decide_True in H by done.
  repeat case_decide; simplify_option_eq; done.
Qed.

Lemma setbuf_result (e : Editor.t) (p : nat) (b b' : Buffer.t) :
  Editor.curbuf e = Some p →
  Editor.bufs e !! p = Some b →
  cursor_in_line b' →
  Editor.curbuf (setbuf e p b') = Some p
  ∧ ∃ b'', Editor.bufs (setbuf e p b') !! p = Some b'' ∧ cursor_in_line b''.
Proof.
  intros Hc Hb Hin. split; [done|]. exists b'. split; [|done].
  by eapply setbuf_lookup.
Qed.

#[local] Arguments mmove : simpl never.
#[local] Arguments mjump : simpl never.

(** An insertion the statement covers keeps the column within the
    current line, and leaves the current buffer the current buffer. *)
Lemma minsert_cursor (cfg : Config.t) (iswspace : Z → bool)
    (runcmd : Editor.t → list Z → option Editor.t)
    (e e' : Editor.t) (p : nat) (b : Buffer.t) (key : Z) :
  Editor.curbuf e = Some p →
  Editor.bufs e !! p = Some b →
  cursor_in_line b →
  op_ok cfg iswspace e (OpInsert key) →
  minsert cfg iswspace runcmd e (Some p) key = Some e' →
  Editor.curbuf e' = Some p
  ∧ ∃ b', Editor.bufs e' !! p = Some b' ∧ cursor_in_line b'.
Proof.
  intros Hcur Hb (ln & Hln & Hx) [Hkey Hnl]. unfold minsert.
  rewrite Hb. simpl. rewrite Hln.
  destruct (wcslen (Line.data ln)) as [l|] eqn:Hl; simpl; [|done].
  pose proof (wcslen_content_length _ _ Hl) as Hcl.
  pose proof (wcslen_bounds _ _ Hl) as Hlb.
  pose proof (lookup_lt_Some _ _ _ Hln) as Hlt.
  pose proof (lookup_lt_Some _ _ _ Hb) as Hp.
  set (cur := Buffer.curline b) in *.
  repeat case_decide; intros Hm.
  - (* Backspace within the line *)
    bind_inv Hm. injection Hm as <-.
    apply memcpy_Some in E as (Hbnd & Hlen & Hlk).
    eapply setbuf_result; [done..|].
    eapply (cursor_in_line_intro _ _ (Z.to_nat (cur_x b - 1))).
    + simpl. by apply list_lookup_insert_eq.
    + unfold cur_x. simpl. unfold cur_x in *. lia.
    + simpl. lia.
    + intros i Hi. simpl. rewrite Hlk. rewrite decide_False by lia.
      eapply before_cursor_nonzero; [exact Hx|lia].
  - (* Backspace at column 0: the line joins the previous one *)
    bind_inv Hm. bind_inv Hm. bind_inv Hm. bind_inv Hm.
    bind_inv Hm. injection Hm as <-.
    apply mmove_Some in E2 as (b1 & b2 & Hb1 & E4 & ->).
    rewrite (setbuf_lookup _ _ b) in Hb1 by done. injection Hb1 as <-.
    simpl in E3. rewrite list_insert_insert_eq in E3.
    rewrite list_lookup_insert_eq in E3 by done. injection E3 as <-.
    pose proof (mmove_buffer_up_one _ _ _ _ E4 ltac:(done)) as Hc.
    destruct (mmove_buffer_spec _ _ _ _ _ E4) as (Hls & _ & (ln' & Hln' & Hx') & _).
    simpl in Hc, Hls.
    split; [done|]. eexists. split.
    { simpl. rewrite list_insert_insert_eq. rewrite list_insert_insert_eq.
      apply list_lookup_insert_eq. lia. }
    exists ln'. simpl. split; [|done].
    unfold mfreeln. rewrite list_lookup_delete_lt by (fold cur; lia).
    fold cur in Hc. by rewrite <- Hc.
  - (* Backspace at the start of the buffer *)
    injection Hm as <-. split; [done|]. exists b. split; [done|].
    by exists ln.
  - (* Delete *)
    bind_inv Hm. injection Hm as <-.
    apply memcpy_Some in E as (Hbnd & Hlen & Hlk).
    eapply setbuf_result; [done..|].
    eapply (cursor_in_line_intro _ _ (Z.to_nat (cur_x b))).
    + simpl. by apply list_lookup_insert_eq.
    + unfold cur_x. simpl. unfold cur_x in *. lia.
    + simpl. lia.
    + intros i Hi. simpl. rewrite Hlk. rewrite decide_False by lia.
      eapply before_cursor_nonzero; [exact Hx|lia].
  - (* Newline on the command line *)
    by destruct (Hnl ltac:(done)).
  - (* Newline: the line is split *)
    destruct (Hnl ltac:(done)) as [_ Hplain].
    bind_inv Hm. destruct p0 as [nl ox]. bind_inv Hm. bind_inv Hm.
    bind_inv Hm. bind_inv Hm. bind_inv Hm. injection Hm as <-.
    (* the jump *)
    unfold mjump in E2. simpl in E2. rewrite Hcur in E2. simpl in E2.
    rewrite list_lookup_insert_eq in E2 by (by apply lookup_lt_Some in Hb).
    simpl in E2. injection E2 as <-.
    (* the move *)
    apply mmove_Some in E3 as (b1 & b2 & Hb1 & Hmv & ->).
    simpl in Hb1. rewrite list_insert_insert_eq in Hb1.
    rewrite list_lookup_insert_eq in Hb1 by (by apply lookup_lt_Some in Hb).
    injection Hb1 as <-.
    simpl in E4. rewrite !list_insert_insert_eq in E4.
    rewrite list_lookup_insert_eq in E4 by (by apply lookup_lt_Some in Hb).
    injection E4 as <-.
    destruct (mmove_buffer_spec _ _ _ _ _ Hmv) as (Hls & _ & _ & _).
    assert (Hc : Buffer.curline b2 = (cur + 1)%nat).
    { apply mmove_buffer_down_one in Hmv; [done|]. simpl.
      rewrite length_app, length_take, length_insert. cbn [length]. fold cur. lia. }
    simpl in Hls.
    split; [done|]. eexists. split.
    { simpl. rewrite !list_insert_insert_eq.
      apply list_lookup_insert_eq. by apply lookup_lt_Some in Hb. }
    apply memcpy_Some in E0 as (Hbnd & Hlen & Hlk).
    eapply (cursor_in_line_intro _ (set_data l0 nl) (Z.to_nat ox)).
    + simpl. rewrite Hc, Hls.
      rewrite lookup_app_r by (rewrite length_take, length_insert; lia).
      rewrite length_take, length_insert.
      by replace (cur + 1 - S cur `min` length (Buffer.lines b))%nat with 0%nat by lia.
    + unfold cur_x. simpl. lia.
    + simpl. lia.
    + intros i Hi. simpl. rewrite Hlk. rewrite decide_False by lia.
      destruct (Config.auto_indent cfg) eqn:Hai.
      * bind_inv E.
        destruct (mindent_plain _ _ _ _ _ E) as [_ Hnz].
        { apply Hplain; [done|]. unfold measured_indent, getbuf.
          rewrite Hcur. simpl. rewrite Hb. simpl. fold cur. by rewrite Hln. }
        destruct (Hnz i) as (v & Hv & Hv0); [lia|]. rewrite Hv. congruence.
      * injection E as <- <-. lia.
  - (* Any other character *)
    bind_inv Hm. bind_inv Hm. injection Hm as <-.
    apply memcpy_Some in E as (Hbnd & Hlen & Hlk).
    apply store_Some in E0 as [Hi ->].
    eapply setbuf_result; [done..|].
    eapply (cursor_in_line_intro _ _ (Z.to_nat (cur_x b + 1))).
    + simpl. by apply list_lookup_insert_eq.
    + unfold cur_x. simpl. unfold cur_x in *. lia.
    + simpl. rewrite length_insert. lia.
    + intros i Hi'. simpl.
      destruct (decide (i = Z.to_nat (cur_x b))) as [->|Hne].
      * rewrite list_lookup_insert_eq by lia. intros [= Hzero].
        by apply (wchar_of_wint_nonzero key Hkey).
      * rewrite list_lookup_insert_ne by done.
        rewrite Hlk. rewrite decide_False by lia.
        eapply before_cursor_nonzero; [exact Hx|lia].
Qed.

Section Sequences.

Variable cfg : Config.t.
Variable iswspace : Z → bool.
Variable runcmd : Editor.t → list Z → option Editor.t.

Lemma apply_op_cursor (e e' : Editor.t) (p : nat) (b : Buffer.t) (op : EditOp) :
  Editor.curbuf e = Some p →
  Editor.bufs e !! p = Some b →
  cursor_in_line b →
  op_ok cfg iswspace e op →
  apply_op cfg iswspace runcmd e op = Some e' →
  Editor.curbuf e' = Some p
  ∧ ∃ b', Editor.bufs e' !! p = Some b' ∧ cursor_in_line b'.
Proof.
  intros Hcur Hb Hin Hok. destruct op as [key|x y]; simpl; rewrite Hcur.
  - by apply (minsert_cursor _ _ _ _ _ _ b).
  - intros Hm. apply mmove_Some in Hm as (b0 & b' & Hb0 & Hmb & ->).
    split; [done|]. exists b'. split; [by eapply setbuf_lookup|].
    by destruct (mmove_buffer_spec _ _ _ _ _ Hmb) as (_ & _ & ? & _).
Qed.

Lemma apply_ops_cursor (ops : list EditOp) (e e' : Editor.t) (p : nat)
    (b : Buffer.t) :
  Editor.curbuf e = Some p →
  Editor.bufs e !! p = Some b →
  cursor_in_line b →
  ops_ok cfg iswspace runcmd e ops →
  apply_ops cfg iswspace runcmd e ops = Some e' →
  Editor.curbuf e' = Some p
  ∧ ∃ b', Editor.bufs e' !! p = Some b' ∧ cursor_in_line b'.
Proof.
  revert e b. induction ops as [|op ops IH]; intros e b Hcur Hb Hin; simpl.
  - intros _ [= <-]. eauto.
  - intros [Hok Hrest] H.
    destruct (apply_op cfg iswspace runcmd e op) as [e1|] eqn:E; simpl in H; [|done].
    destruct (apply_op_cursor _ _ _ _ _ Hcur Hb Hin Hok E) as (Hcur1 & b1 & Hb1 & Hin1).
    eapply IH; eauto.
Qed.

(** A sequence that runs, runs up to each of its operations. *)
Lemma apply_ops_take (ops : list EditOp) (e e' : Editor.t) (k : nat) :
  apply_ops cfg iswspace runcmd e ops = Some e' →
  is_Some (apply_ops cfg iswspace runcmd e (take k ops)).
Proof.
  revert e k. induction ops as [|op ops IH]; intros e k; simpl.
  - intros _. destruct k; simpl; eauto.
  - destruct k as [|k]; simpl; [eauto|].
    destruct (apply_op cfg iswspace runcmd e op) as [e1|]; simpl; [|done].
    apply IH.
Qed.

Lemma ops_ok_take (ops : list EditOp) (e : Editor.t) (k : nat) :
  ops_ok cfg iswspace runcmd e ops →
  ops_ok cfg iswspace runcmd e (take k ops).
Proof.
  revert e k. induction ops as [|op ops IH]; intros e k; simpl.
  - by destruct k.
  - destruct k as [|k]; simpl; [done|].
    intros [Hok Hrest]. split; [done|]. intros e1 He1. apply IH. by apply Hrest.
Qed.

End Sequences.

(** X2. Take a sequence of moves and of key
    insertions (characters, Backspace, Delete, newline) on the current
    buffer in which no key is the terminator 0 and every newline is typed
    outside the command line and, with auto-indent, opens a line whose
    indentation is of tabs only or of spaces only. If the column lies
    within the current line before the sequence and the sequence runs
    (every access stays within the capacity of the lines), then after each
    operation [0 <= x <= length(currentLine)], where the length is the
    number of characters before the first terminator; it is [wcslen]
    wherever the line holds a string. *)
Theorem cursor_stays_in_line (cfg : Config.t) (iswspace : Z → bool)
    (runcmd : Editor.t → list Z → option Editor.t)
    (e e' : Editor.t) (p : nat) (b : Buffer.t) (ops : list EditOp) :
  Editor.curbuf e = Some p →
  Editor.bufs e !! p = Some b →
  cursor_in_line b →
  ops_ok cfg iswspace runcmd e ops →
  apply_ops cfg iswspace runcmd e ops = Some e' →
  ∀ k, ∃ ek bk,
    apply_ops cfg iswspace runcmd e (take k ops) = Some ek
    ∧ Editor.curbuf ek = Some p
    ∧ Editor.bufs ek !! p = Some bk
    ∧ cursor_in_line bk
    ∧ ∀ ln l, Buffer.lines bk !! Buffer.curline bk = Some ln →
              wcslen (Line.data ln) = Some l → 0 ≤ cur_x bk ≤ l.
Proof.
  intros Hcur Hb Hin Hok Hrun k.
  destruct (apply_ops_take cfg iswspace runcmd ops e e' k Hrun) as [ek Hk].
  destruct (apply_ops_cursor cfg iswspace runcmd _ _ _ _ _ Hcur Hb Hin
              (ops_ok_take cfg iswspace runcmd ops e k Hok) Hk)
    as (Hcurk & bk & Hbk & Hink).
  exists ek, bk. split_and!; try done.
  intros ln l Hln Hl. destruct Hink as (ln' & Hln' & Hx).
  rewrite Hln in Hln'. injection Hln' as <-.
  by rewrite (wcslen_content_length _ _ Hl) in Hx.
Qed.

Lemma cursor_stays_in_line_witness :
  Editor.curbuf fresh = Some 1%nat
  ∧ Editor.bufs fresh !! 1%nat = Some fresh_buffer
  ∧ cursor_in_line fresh_buffer
  ∧ ops_ok sample_cfg iswspace_C no_runcmd fresh typed_ops
  ∧ ∃ e' b',
      apply_ops sample_cfg iswspace_C no_runcmd fresh typed_ops = Some e'
      ∧ Editor.bufs e' !! 1%nat = Some b'
      ∧ cursor_in_line b'.
Proof.
  assert (Hin : cursor_in_line fresh_buffer).
  { eexists. split; [reflexivity|]. vm_compute. split; discriminate. }
  assert (Hok : ops_ok sample_cfg iswspace_C no_runcmd fresh typed_ops).
  { simpl. split; [split; [discriminate|discriminate]|].
    intros e1 He1. vm_compute in He1. injection He1 as <-.
    split.
    { split; [discriminate|]. intros _. split; [discriminate|].
      intros _ mx Hmx. vm_compute in Hmx. injection Hmx as <-.
      left. reflexivity. }
    intros e2 He2. vm_compute in He2. injection He2 as <-.
    split; [exact I|]. intros e3 _. exact I. }
  split; [reflexivity|]. split; [reflexivity|].
  split; [exact Hin|]. split; [exact Hok|].
  destruct (cursor_stays_in_line sample_cfg iswspace_C no_runcmd fresh
              (default fresh
                 (apply_ops sample_cfg iswspace_C no_runcmd fresh typed_ops))
              1%nat fresh_buffer typed_ops eq_refl eq_refl Hin Hok
              ltac:(vm_compute; reflexivity) (length typed_ops))
    as (ek & bk & Hk & _ & Hbk & Hink & _).
  exists ek, bk. split; [exact Hk|]. split; [exact Hbk|exact Hink].
Defined.

(** The key 0 is left out for a reason: it is inserted like any character, and
    ends the string where it is written. After the keys [a] and 0 in an
    empty line the column is 2 and the line holds the string ["a"], of
    length 1. Every access is within the capacity of the line. *)
Lemma nul_key_leaves_column_past_line :
  session 24 80 = Some fresh
  ∧ Editor.curbuf fresh = Some 1%nat
  ∧ Editor.bufs fresh !! 1%nat = Some fresh_buffer
  ∧ cursor_in_line fresh_buffer
  ∧ ∃ e' b' ln,
      apply_ops sample_cfg iswspace_C no_runcmd fresh
        [OpInsert 97; OpInsert 0] = Some e'
      ∧ Editor.bufs e' !! 1%nat = Some b'
      ∧ Buffer.lines b' !! Buffer.curline b' = Some ln
      ∧ wcs (Line.data ln) = Some [97]
      ∧ wcslen (Line.data ln) = Some 1
      ∧ cur_x b' = 2
      ∧ ¬ cursor_in_line b'.
Proof.
  split; [by vm_compute|]. split; [reflexivity|]. split; [reflexivity|].
  split. { eexists. split; [reflexivity|]. vm_compute. split; discriminate. }
  eexists _, _, _.
  split; [vm_compute; reflexivity|]. split; [reflexivity|].
  split; [reflexivity|]. split; [reflexivity|]. split; [reflexivity|].
  split; [reflexivity|].
  intros (ln' & Hln' & Hx). injection Hln' as <-.
  vm_compute in Hx. destruct Hx as [_ Hx]. by apply Hx.
Qed.

(** ** Every buffer keeps a line *)

Lemma valid_has_lines (e : Editor.t) : current_lines_valid e → has_lines e.
Proof.
  intros H b Hb Hnil. destruct (H b Hb) as [ln Hln].
  rewrite Hnil in Hln. done.
Qed.

Lemma buffers_valid_insert (bs : list Buffer.t) (p : nat) (b : Buffer.t) :
  buffers_valid bs →
  is_Some (Buffer.lines b !! Buffer.curline b) →
  buffers_valid (<[p := b]> bs).
Proof.
  intros He Hb b' Hin.
  apply list_elem_of_lookup in Hin as [i Hi].
  apply list_lookup_insert_Some in Hi as [(_ & <- & _)|[_ Hi]]; [done|].
  apply He. apply list_elem_of_lookup. eauto.
Qed.

Lemma buffers_valid_lookup (bs : list Buffer.t) (p : nat) (b : Buffer.t) :
  bs !! p = Some b → buffers_valid bs →
  is_Some (Buffer.lines b !! Buffer.curline b).
Proof. intros Hb He. apply He. apply list_elem_of_lookup. eauto. Qed.

Lemma buffers_valid_alter (bs : list Buffer.t) (f : Buffer.t → Buffer.t)
    (p : nat) :
  (∀ b, Buffer.lines (f b) = Buffer.lines b
        ∧ Buffer.curline (f b) = Buffer.curline b) →
  buffers_valid bs → buffers_valid (alter f p bs).
Proof.
  intros Hf He b Hin.
  apply list_elem_of_lookup in Hin as [i Hi].
  rewrite list_lookup_alter in Hi. case_decide; subst.
  - destruct (bs !! i) as [b0|] eqn:E; simpl in Hi; [|done].
    injection Hi as <-. destruct (Hf b0) as [-> ->].
    by eapply buffers_valid_lookup.
  - by eapply buffers_valid_lookup.
Qed.

Lemma buffers_valid_snoc (bs : list Buffer.t) (b : Buffer.t) :
  buffers_valid bs →
  is_Some (Buffer.lines b !! Buffer.curline b) →
  buffers_valid (bs ++ [b]).
Proof.
  intros He Hb b' Hin. apply elem_of_app in Hin as [Hin|Hin].
  - by apply He.
  - apply list_elem_of_singleton in Hin. by subst b'.
Qed.

Create HintDb valid.

#[local] Hint Resolve buffers_valid_insert buffers_valid_lookup
  buffers_valid_snoc : valid.

#[local] Hint Extern 2 (is_Some (Buffer.lines _ !! Buffer.curline _)) =>
  progress simpl : valid.

Ltac valid_cases :=
  unfold current_lines_valid in *;
  intros; simplify_option_eq;
  repeat (case_match; simplify_option_eq);
  repeat case_decide;
  simpl in *;
  eauto 14 with valid.

Lemma valid_mnewbuf (cfg : Config.t) (e : Editor.t) :
  current_lines_valid e → current_lines_valid (mnewbuf cfg e).1.
Proof.
  unfold mnewbuf, current_lines_valid. intros He. simpl.
  destruct (Editor.buflist e) as [n|]; simpl.
  - apply buffers_valid_alter; [done|]. apply buffers_valid_snoc; simpl; eauto.
  - apply buffers_valid_snoc; simpl; eauto.
Qed.

Lemma valid_mfreebuf (e e' : Editor.t) (buf : ptr) :
  current_lines_valid e → mfreebuf e buf = Some e' → current_lines_valid e'.
Proof. unfold mfreebuf. valid_cases. Qed.

Lemma mreadbuf_loop_nonempty (cfg : Config.t) (fuel : nat) (stream : list Z)
    (done : list Line.t) (ln : Line.t) (ls : list Line.t) :
  mreadbuf_loop cfg fuel stream done ln = Some ls → is_Some (ls !! 0%nat).
Proof.
  revert stream done ln. induction fuel as [|fuel IH]; intros stream done ln; simpl.
  - intros [= <-]. rewrite reverse_cons. apply lookup_lt_is_Some.
    rewrite length_app. simpl. lia.
  - destruct (fgetws _ stream) as [[rec rest]|].
    + intros H. simplify_option_eq. eauto.
    + intros [= <-]. rewrite reverse_cons. apply lookup_lt_is_Some.
      rewrite length_app. simpl. lia.
Qed.

Lemma valid_mreadbuf (cfg : Config.t) (e e' : Editor.t) (buf : ptr)
    (path : string) (r : Z) :
  mreadbuf cfg e buf path = Some (e', r) →
  buffers_valid (Editor.bufs e) → buffers_valid (Editor.bufs e').
Proof.
  unfold mreadbuf. intros H He.
  destruct buf as [p|]; simpl in H; [|done].
  destruct (Editor.bufs e !! p) as [b|] eqn:Hb; simpl in H; [|done].
  bind_inv H. injection H as <- <-.
  assert (Hv : is_Some (Buffer.lines t !! Buffer.curline t)).
  { destruct (open_read e path) as [stream|].
    - destruct (fgetws _ stream) as [?|].
      + bind_inv E. bind_inv E. bind_inv E. injection E as <-. simpl.
        rewrite e0. by eapply mreadbuf_loop_nonempty.
      + injection E as <-. by eapply buffers_valid_lookup.
    - injection E as <-. by eapply buffers_valid_lookup. }
  clear E. destruct (decide (path = "-"%string)); simpl;
    (apply buffers_valid_insert; [done|by simpl]).
Qed.

Lemma valid_mclearbuf (e e' : Editor.t) (buf : ptr) :
  mclearbuf e buf = Some e' →
  buffers_valid (Editor.bufs e) → buffers_valid (Editor.bufs e').
Proof. unfold mclearbuf. valid_cases. Qed.

Lemma valid_mmove (e e' : Editor.t) (buf : ptr) (x y : Z) :
  mmove e buf x y = Some e' →
  buffers_valid (Editor.bufs e) → buffers_valid (Editor.bufs e').
Proof.
  destruct buf as [p|]; [|done]. intros H He.
  apply mmove_Some in H as (b & b' & Hb & Hm & ->).
  destruct (mmove_buffer_spec _ _ _ _ _ Hm) as (_ & _ & (ln & Hln & _) & _).
  simpl. eauto with valid.
Qed.

Lemma valid_mjump (e e' : Editor.t) (buf : ptr) (mark : Marker) :
  mjump e buf mark = Some e' →
  buffers_valid (Editor.bufs e) → buffers_valid (Editor.bufs e').
Proof. unfold mjump. valid_cases. Qed.

#[local] Hint Resolve valid_mreadbuf valid_mclearbuf valid_mmove valid_mjump
  valid_mfreebuf : valid.

#[local] Arguments mmove : simpl never.
#[local] Arguments mjump : simpl never.
#[local] Arguments mfreebuf : simpl never.
#[local] Arguments mreadbuf : simpl never.
#[local] Arguments mnewbuf : simpl never.
#[local] Arguments mindent : simpl never.

Lemma valid_after_delete (ls : list Line.t) (cur : nat) :
  (0 < cur)%nat → is_Some (ls !! cur) →
  is_Some (mfreeln ls cur !! (cur - 1)%nat).
Proof.
  intros Hc Hs. unfold mfreeln. rewrite list_lookup_delete_lt by lia.
  apply lookup_lt_is_Some. apply lookup_lt_is_Some in Hs. lia.
Qed.

Lemma valid_minsert (cfg : Config.t) (iswspace : Z → bool)
    (runcmd : Editor.t → list Z → option Editor.t)
    (e e' : Editor.t) (buf : ptr) (key : Z) :
  (∀ e1 e2 s, runcmd e1 s = Some e2 →
     buffers_valid (Editor.bufs e1) → buffers_valid (Editor.bufs e2)) →
  minsert cfg iswspace runcmd e buf key = Some e' →
  buffers_valid (Editor.bufs e) → buffers_valid (Editor.bufs e').
Proof.
  intros Hrun. unfold minsert. destruct buf as [p|]; [|by intros [= <-]].
  destruct (Editor.bufs e !! p) as [b|] eqn:Hb; simpl; [|done].
  destruct (Buffer.lines b !! Buffer.curline b) as [ln|] eqn:Hln; [|by intros [= <-]].
  pose proof (lookup_lt_Some _ _ _ Hln) as Hlt.
  destruct (wcslen (Line.data ln)) as [l|] eqn:Hl; simpl; [|done].
  repeat case_decide; intros Hm He.
  - (* Backspace within the line *)
    simplify_option_eq. simpl. apply buffers_valid_insert; [done|]. simpl.
    apply lookup_lt_is_Some. by rewrite length_insert.
  - (* Backspace at column 0 *)
    bind_inv Hm. bind_inv Hm. bind_inv Hm. bind_inv Hm. bind_inv Hm.
    injection Hm as <-.
    assert (Hv : buffers_valid (Editor.bufs t0)).
    { eapply valid_mmove; [exact E2|]. simpl.
      apply buffers_valid_insert; [done|]. simpl.
      apply lookup_lt_is_Some. by rewrite length_insert. }
    apply mmove_Some in E2 as (b1 & b2 & Hb1 & Hmv & ->).
    simpl in Hb1. rewrite list_lookup_insert_eq in Hb1 by (by eapply lookup_lt_Some).
    injection Hb1 as <-.
    simpl in E3. rewrite list_insert_insert_eq in E3.
    rewrite list_lookup_insert_eq in E3 by (by eapply lookup_lt_Some).
    injection E3 as <-.
    destruct (mmove_buffer_spec _ _ _ _ _ Hmv) as (Hls & _ & _ & _).
    simpl in Hls. simpl. apply buffers_valid_insert; [done|]. simpl.
    apply valid_after_delete; [done|].
    rewrite Hls. apply lookup_lt_is_Some. by rewrite length_insert.
  - by injection Hm as <-.
  - (* Delete *)
    simplify_option_eq. simpl. apply buffers_valid_insert; [done|]. simpl.
    apply lookup_lt_is_Some. by rewrite length_insert.
  - (* Newline on the command line *)
    simplify_option_eq. eauto.
  - (* Newline *)
    bind_inv Hm. destruct p0 as [nl ox]. bind_inv Hm. bind_inv Hm.
    bind_inv Hm. bind_inv Hm. bind_inv Hm. injection Hm as <-.
    assert (Hv : buffers_valid (Editor.bufs t0)).
    { eapply valid_mmove; [exact E3|]. eapply valid_mjump; [exact E2|].
      simpl. apply buffers_valid_insert; [done|]. simpl.
      apply lookup_lt_is_Some.
      rewrite length_app, length_take, length_insert. cbn [length]. lia. }
    simpl. apply buffers_valid_insert; [done|]. simpl.
    by eapply buffers_valid_lookup.
  - (* Any other character *)
    simplify_option_eq. simpl. apply buffers_valid_insert; [done|]. simpl.
    apply lookup_lt_is_Some. by rewrite length_insert.
Qed.

(** *** The dispatcher keeps what every operation keeps *)

Section DispatchInvariant.

Context {St : Type}.
Variable cfg : Config.t.
Variable iswspace : Z → bool.
Variable wcsrtombs : list Z → string.
Variable call : Action.t → St → St.
Variable setmode_to : Mode → St → St.
Variable mexec : string → St → option string * St.
Variable P : St → Prop.

Hypothesis call_keeps : ∀ ac s, P s → P (call ac s).
Hypothesis setmode_keeps : ∀ m s, P s → P (setmode_to m s).
Hypothesis mexec_keeps : ∀ sh s, P s → P (mexec sh s).2.

Lemma mrepeat_keeps (ac : Action.t) (n : Z) (s : St) :
  P s → P (mrepeat cfg call ac n s).
Proof.
  unfold mrepeat. generalize (Z.to_nat (min n (Config.max_cmd_repetition cfg))).
  intros k. revert s. induction k as [|k IH]; intros s Hs; simpl; auto.
Qed.

Lemma mruncmd_keeps (buf : list Z) (s : St) :
  P s → P (mruncmd cfg iswspace wcsrtombs call setmode_to mexec buf s).
Proof.
  unfold mruncmd. destruct (parse_count iswspace buf) as [cnt cmd].
  fold (token_length cmd).
  generalize (if decide (Z.of_nat (length cmd) > token_length cmd)
              then Some (wcsrtombs (drop (Z.to_nat (token_length cmd + 1)) cmd))
              else None).
  intros arg.
  generalize (Config.buffer_actions cfg). intros table. revert s.
  induction table as [|entry table IH]; intros s Hs; simpl; [done|].
  apply IH. destruct (cmd_matches _ _ entry); [|done].
  destruct arg as [[|ch sh]|]; simpl.
  - by apply setmode_keeps, mrepeat_keeps, setmode_keeps.
  - destruct ch as [[] [] [] [] [] [] [] []]; simpl;
      try (by apply setmode_keeps, mrepeat_keeps, setmode_keeps).
    specialize (mexec_keeps sh s Hs). destruct (mexec sh s) as [out s'].
    by apply setmode_keeps, mrepeat_keeps, setmode_keeps.
  - by apply setmode_keeps, mrepeat_keeps, setmode_keeps.
Qed.

End DispatchInvariant.

(** *** The bindable functions *)

Section BindableInvariant.

Variable cfg : Config.t.
Variable iswspace : Z → bool.
Variable wcsrtombs : list Z → string.
Variable regcomp : string → bool.
Variable regexec : string → string → bool.
Variable getmouse : Editor.t → option (Z * Z).
Variable runcmd : Editor.t → list Z → option Editor.t.

Hypothesis runcmd_keeps :
  ∀ e1 e2 s, runcmd e1 s = Some e2 →
    buffers_valid (Editor.bufs e1) → buffers_valid (Editor.bufs e2).

Lemma valid_minsert' (e e' : Editor.t) (buf : ptr) (key : Z) :
  minsert cfg iswspace runcmd e buf key = Some e' →
  buffers_valid (Editor.bufs e) → buffers_valid (Editor.bufs e').
Proof. by apply valid_minsert. Qed.

#[local] Hint Resolve valid_minsert' : valid.
#[local] Arguments minsert : simpl never.

Lemma valid_handlemouse (e e' : Editor.t) :
  handlemouse getmouse e = Some e' →
  buffers_valid (Editor.bufs e) → buffers_valid (Editor.bufs e').
Proof. unfold handlemouse. valid_cases. Qed.

Lemma valid_quit_loop (fuel : nat) (e e' : Editor.t) (buf : ptr) :
  quit_loop fuel e buf = Some e' →
  buffers_valid (Editor.bufs e) → buffers_valid (Editor.bufs e').
Proof.
  revert e buf. induction fuel as [|fuel IH]; intros e buf; simpl.
  - destruct buf; [done|]. by intros [= <-].
  - destruct buf as [p|]; [|by intros [= <-]].
    intros H He. bind_inv H. bind_inv H.
    eapply IH; [exact H|]. by eapply valid_mfreebuf.
Qed.

Lemma valid_quit (e e' : Editor.t) :
  quit e = Some e' →
  buffers_valid (Editor.bufs e) → buffers_valid (Editor.bufs e').
Proof.
  unfold quit. intros H He. bind_inv H. injection H as <-. simpl.
  by eapply valid_quit_loop.
Qed.

Lemma valid_setmode (e e' : Editor.t) (ac : Action.t) :
  setmode e ac = Some e' →
  buffers_valid (Editor.bufs e) → buffers_valid (Editor.bufs e').
Proof. unfold setmode. valid_cases. Qed.

Lemma valid_save (e e' : Editor.t) (ac : Action.t) :
  save cfg e ac = Some e' →
  buffers_valid (Editor.bufs e) → buffers_valid (Editor.bufs e').
Proof.
  unfold save. intros H He. bind_inv H. bind_inv H.
  destruct b; [by injection H as <-|].
  bind_inv H. bind_inv H.
  destruct (o0 ≫= open_write t); [|by injection H as <-].
  bind_inv H. bind_inv H. by injection H as <-.
Qed.

Lemma valid_readfile (e e' : Editor.t) (ac : Action.t) :
  readfile cfg e ac = Some e' →
  buffers_valid (Editor.bufs e) → buffers_valid (Editor.bufs e').
Proof.
  unfold readfile. intros H He. bind_inv H. destruct o as [path|]; [|by injection H as <-].
  pose proof (valid_mnewbuf cfg e He) as Hn.
  destruct (mnewbuf cfg e) as [e1 p]. simpl in Hn.
  destruct (mreadbuf cfg (set_curbuf p e1) p path) as [[e2 r]|] eqn:Hr; simpl in H; [|done].
  injection H as <-. by eapply valid_mreadbuf.
Qed.

Lemma valid_readstr_loop (s : string) (e e' : Editor.t) :
  readstr_loop cfg iswspace runcmd e s = Some e' →
  buffers_valid (Editor.bufs e) → buffers_valid (Editor.bufs e').
Proof.
  revert e. induction s as [|ch s IH]; intros e; simpl.
  - by intros [= <-].
  - intros H He. bind_inv H. eapply IH; [exact H|]. by eapply valid_minsert'.
Qed.

Lemma valid_readstr (e e' : Editor.t) (ac : Action.t) :
  readstr cfg iswspace runcmd e ac = Some e' →
  buffers_valid (Editor.bufs e) → buffers_valid (Editor.bufs e').
Proof.
  unfold readstr. intros H He. bind_inv H.
  destruct o; [by eapply valid_readstr_loop|by injection H as <-].
Qed.

Lemma valid_find_loop (pat : string) (ls : list Line.t) (y : Z) (e e' : Editor.t) :
  find_loop wcsrtombs regexec e pat ls y = Some e' →
  buffers_valid (Editor.bufs e) → buffers_valid (Editor.bufs e').
Proof.
  revert y. induction ls as [|ln ls IH]; intros y; simpl.
  - by intros [= <-].
  - intros H He. bind_inv H. destruct (regexec pat _).
    + by eapply valid_mmove.
    + by eapply IH.
Qed.

Lemma valid_find (e e' : Editor.t) (ac : Action.t) :
  find wcsrtombs regcomp regexec e ac = Some e' →
  buffers_valid (Editor.bufs e) → buffers_valid (Editor.bufs e').
Proof.
  unfold find. intros H He. bind_inv H.
  destruct o as [pat|]; [|by injection H as <-].
  destruct (regcomp pat); [|by injection H as <-].
  bind_inv H. by eapply valid_find_loop.
Qed.

Lemma valid_command (e e' : Editor.t) (ac : Action.t) :
  command runcmd e ac = Some e' →
  buffers_valid (Editor.bufs e) → buffers_valid (Editor.bufs e').
Proof.
  unfold command. intros H He.
  destruct (Action.arg ac) as [| |[]| |]; try done.
  - by injection H as <-.
  - by eapply runcmd_keeps.
Qed.

Lemma valid_motion (e e' : Editor.t) (ac : Action.t) :
  motion e ac = Some e' →
  buffers_valid (Editor.bufs e) → buffers_valid (Editor.bufs e').
Proof.
  unfold motion. intros H He. bind_inv H. destruct p. by eapply valid_mmove.
Qed.

Lemma valid_jump (e e' : Editor.t) (ac : Action.t) :
  jump e ac = Some e' →
  buffers_valid (Editor.bufs e) → buffers_valid (Editor.bufs e').
Proof. unfold jump. intros H He. bind_inv H. by eapply valid_mjump. Qed.

Lemma valid_coc (e e' : Editor.t) :
  coc e = Some e' →
  buffers_valid (Editor.bufs e) → buffers_valid (Editor.bufs e').
Proof. unfold coc. valid_cases. Qed.

Lemma valid_bufsel (e e' : Editor.t) (ac : Action.t) :
  bufsel e ac = Some e' →
  buffers_valid (Editor.bufs e) → buffers_valid (Editor.bufs e').
Proof. unfold bufsel. valid_cases. Qed.

Lemma valid_bufdel (e e' : Editor.t) (ac : Action.t) :
  bufdel e ac = Some e' →
  buffers_valid (Editor.bufs e) → buffers_valid (Editor.bufs e').
Proof.
  unfold bufdel. intros H He. bind_inv H.
  case_decide; [by eapply valid_mfreebuf|by injection H as <-].
Qed.

Lemma valid_insert (e e' : Editor.t) (ac : Action.t) :
  insert cfg iswspace runcmd e ac = Some e' →
  buffers_valid (Editor.bufs e) → buffers_valid (Editor.bufs e').
Proof. unfold insert. intros H He. bind_inv H. by eapply valid_minsert'. Qed.

Lemma valid_freeln (e e' : Editor.t) :
  freeln e = Some e' →
  buffers_valid (Editor.bufs e) → buffers_valid (Editor.bufs e').
Proof.
  unfold freeln. intros H He. bind_inv H. bind_inv H. bind_inv H.
  pose proof (lookup_lt_Some _ _ _ E1) as Hlt.
  repeat case_decide; injection H as <-; simpl; try done.
  - apply buffers_valid_insert; [done|]. simpl. unfold mfreeln.
    rewrite list_lookup_delete_ge by lia. apply lookup_lt_is_Some. lia.
  - apply buffers_valid_insert; [done|]. simpl.
    apply valid_after_delete; [done|eauto].
Qed.

Lemma valid_append (e e' : Editor.t) :
  append e = Some e' →
  buffers_valid (Editor.bufs e) → buffers_valid (Editor.bufs e').
Proof.
  unfold append. intros H He. bind_inv H. injection H as <-.
  simpl. eapply valid_mjump; [exact E|done].
Qed.

Lemma valid_newln (e e' : Editor.t) :
  newln cfg iswspace runcmd e = Some e' →
  buffers_valid (Editor.bufs e) → buffers_valid (Editor.bufs e').
Proof.
  unfold newln. intros H He. bind_inv H. bind_inv H. injection H as <-.
  simpl. eapply valid_minsert'; [exact E0|].
  eapply valid_mjump; [exact E|done].
Qed.

End BindableInvariant.

(** *** The program *)

Section ProgramInvariant.

Variable cfg : Config.t.
Variable iswspace : Z → bool.
Variable wcsrtombs : list Z → string.
Variable regcomp : string → bool.
Variable regexec : string → string → bool.
Variable getmouse : Editor.t → option (Z * Z).
Variable shell : string → Files.t → option string * Files.t.

Lemma valid_mruncmd_with (call : Action.t → Editor.t → option Editor.t)
    (e e' : Editor.t) (buf : list Z) :
  (∀ ac e1 e2, call ac e1 = Some e2 →
     buffers_valid (Editor.bufs e1) → buffers_valid (Editor.bufs e2)) →
  mruncmd_with cfg iswspace wcsrtombs shell call e buf = Some e' →
  buffers_valid (Editor.bufs e) → buffers_valid (Editor.bufs e').
Proof.
  intros Hcall H He. unfold mruncmd_with in H. bind_inv H.
  eapply (mruncmd_keeps cfg iswspace wcsrtombs _ _ _ valid_if_defined); [| | | |exact H].
  - intros ac [e1|] Hs e2; simpl; [|done].
    intros Hc. eapply Hcall; [exact Hc|]. exact (Hs e1 eq_refl).
  - intros m [e1|] Hs e2; simpl; [|done]. intros [= <-]. exact (Hs e1 eq_refl).
  - intros sh [e1|] Hs; simpl; [|done].
    destruct (shell sh (Editor.files e1)) as [out f]. simpl.
    intros e2 [= <-]. exact (Hs e1 eq_refl).
  - by intros e1 [= <-].
Qed.

Lemma editing_Some (live : bool) (e e' : Editor.t) (r : option Editor.t) :
  editing live e r = Some e' → r = Some e'.
Proof. unfold editing. by destruct (live && _). Qed.

Lemma valid_exec (fuel : nat) (live : bool) (ac : Action.t) (e e' : Editor.t) :
  exec cfg iswspace wcsrtombs regcomp regexec getmouse shell fuel live ac e
  = Some e' →
  buffers_valid (Editor.bufs e) → buffers_valid (Editor.bufs e').
Proof.
  revert live ac e e'.
  induction fuel as [|fuel IH]; intros live ac e e'; simpl; [done|].
  destruct (Editor.exited e); [by intros [= <-]|].
  assert (Hrun : ∀ lv e1 e2 s,
            mruncmd_with cfg iswspace wcsrtombs shell
              (exec cfg iswspace wcsrtombs regcomp regexec getmouse shell fuel lv)
              e1 s = Some e2 →
            buffers_valid (Editor.bufs e1) → buffers_valid (Editor.bufs e2)).
  { intros lv e1 e2 s. apply valid_mruncmd_with. intros ac' e3 e4. apply IH. }
  destruct (Action.fn ac).
  - by intros [= <-].
  - apply valid_handlemouse.
  - apply valid_quit.
  - apply valid_setmode.
  - apply valid_save.
  - apply valid_readfile.
  - intros H%editing_Some. revert H. apply valid_readstr. apply Hrun.
  - apply valid_find.
  - apply valid_command. apply Hrun.
  - apply valid_motion.
  - apply valid_jump.
  - apply valid_coc.
  - apply valid_mmove.
  - apply valid_mmove.
  - apply valid_bufsel.
  - apply valid_bufdel.
  - intros H%editing_Some. revert H. apply valid_insert. apply Hrun.
  - intros H%editing_Some. revert H. apply valid_freeln.
  - apply valid_append.
  - intros H%editing_Some. revert H. apply valid_newln. apply Hrun.
Qed.

Lemma valid_handle_key (fuel : nat) (e e' : Editor.t) (key : Z) :
  handle_key cfg iswspace wcsrtombs regcomp regexec getmouse shell fuel e key
  = Some e' →
  buffers_valid (Editor.bufs e) → buffers_valid (Editor.bufs e').
Proof.
  unfold handle_key. destruct (Editor.exited e); [by intros [= <-]|].
  destruct (decide (key = ERR)) as [_|_]; [by intros [= <-]|].
  assert (Hrun : ∀ e1 e2 s,
            mruncmd_with cfg iswspace wcsrtombs shell
              (exec cfg iswspace wcsrtombs regcomp regexec getmouse shell fuel
                 true)
              e1 s = Some e2 →
            buffers_valid (Editor.bufs e1) → buffers_valid (Editor.bufs e2)).
  { intros e1 e2 s. apply valid_mruncmd_with. intros ac' e3 e4.
    apply valid_exec. }
  intros H He. bind_inv H. unfold repaint in H. injection H as <-.
  destruct (Editor.mode e).
  - set (e0 := if decide (key = Config.ESC cfg ∨ key = NEWLINE)
               then set_repcnt 0 e else e) in *.
    assert (He0 : buffers_valid (Editor.bufs e0))
      by (unfold e0; destruct (decide (key = Config.ESC cfg ∨ key = NEWLINE)); exact He).
    clearbody e0.
    destruct (isdigit (to_int key)) as [digit|]; simpl in E; [|done].
    destruct (digit && _); [by injection E as <-|].
    bind_inv E. injection E as <-. simpl.
    revert E0.
    assert (Hv : valid_if_defined (Some e0)) by (by intros e1 [= <-]).
    generalize dependent (Some e0).
    induction (Config.buffer_actions cfg) as [|entry table IHt]; intros s Hs; simpl.
    + intros Hs'. exact (Hs _ Hs').
    + apply IHt. case_decide; [|done].
      destruct s as [e1|]; simpl; [|done].
      apply (mrepeat_keeps cfg _ valid_if_defined); [|done].
      intros ac' [e2|] Hs2 e3; simpl; [|done].
      intros Hc. eapply valid_exec; [exact Hc|]. exact (Hs2 e2 eq_refl).
  - destruct (decide (key = Config.ESC cfg)); [by injection E as <-|].
    by eapply valid_minsert.
  - injection E as <-. destruct (decide (key = Config.ESC cfg)); exact He.
  - destruct (decide (key = Config.ESC cfg)); [by injection E as <-|].
    by eapply valid_minsert.
Qed.

Lemma valid_run (fuel : nat) (keys : list Z) (e e' : Editor.t) :
  run cfg iswspace wcsrtombs regcomp regexec getmouse shell fuel e keys
  = Some e' →
  buffers_valid (Editor.bufs e) → buffers_valid (Editor.bufs e').
Proof.
  revert e. induction keys as [|k keys IH]; intros e; simpl.
  - by intros [= <-].
  - intros H He. bind_inv H. eapply IH; [exact H|].
    by eapply valid_handle_key.
Qed.

Lemma valid_main_args (args : list string) (e e' : Editor.t) :
  main_args cfg e args = Some e' →
  buffers_valid (Editor.bufs e) → buffers_valid (Editor.bufs e').
Proof.
  revert e. induction args as [|a args IH]; intros e; cbn -[mnewbuf mreadbuf].
  - by intros [= <-].
  - intros H He. pose proof (valid_mnewbuf cfg e He) as Hn.
    destruct (mnewbuf cfg e) as [e1 p]. simpl in Hn.
    destruct (mreadbuf cfg (set_curbuf p e1) p a) as [[e2 r]|] eqn:Hr;
      cbn -[mnewbuf mreadbuf] in H; [|done].
    eapply IH; [exact H|]. by eapply valid_mreadbuf.
Qed.

Lemma valid_main_init (row col : Z) (f : Files.t) (args : list string)
    (e : Editor.t) :
  main_init cfg (start row col f) args = Some e →
  buffers_valid (Editor.bufs e).
Proof.
  unfold main_init. intros H.
  assert (H0 : buffers_valid (Editor.bufs (start row col f))).
  { intros b Hb. simpl in Hb. by apply elem_of_nil in Hb. }
  pose proof (valid_mnewbuf cfg _ H0) as Hn.
  destruct (mnewbuf cfg (start row col f)) as [e1 p]. simpl in Hn.
  bind_inv H. bind_inv H. bind_inv H. injection H as <-.
  assert (Hv : buffers_valid (Editor.bufs t0)).
  { eapply valid_main_args; [exact E1|]. simpl.
    apply buffers_valid_insert; [done|]. simpl. by eapply buffers_valid_lookup. }
  destruct (Editor.curbuf t0); [done|].
  exact (valid_mnewbuf cfg _ Hv).
Qed.

End ProgramInvariant.



(** ** Strings and their arrays *)

(** An array holds the string [s] when it starts with the characters of
    [s], none of them zero, and has a zero after them. *)
Lemma wcs_Some_lookup (d s : list Z) :
  wcs d = Some s ↔
    (∀ i v, s !! i = Some v → d !! i = Some v ∧ v ≠ 0)
    ∧ d !! length s = Some 0.
Proof.
  revert s. induction d as [|ch r IH]; intros s; simpl.
  - split; [done|]. intros [_ H]. done.
  - destruct (decide (ch = 0)) as [->|Hch].
    + split.
      * intros [= <-]. split; [done|done].
      * intros [Hs H0]. destruct s as [|c s]; [done|].
        destruct (Hs 0%nat c eq_refl) as [[= <-] Hnz]. done.
    + split.
      * destruct (wcs r) as [s'|] eqn:E; simpl; [|done]. intros [= <-].
        destruct (proj1 (IH s') eq_refl) as [Hs H0]. split; [|done].
        intros [|i] v; simpl; [by intros [= <-]|]. apply Hs.
      * intros [Hs H0]. destruct s as [|c s]; simpl in *; [congruence|].
        destruct (Hs 0%nat c eq_refl) as [[= <-] _].
        rewrite (proj2 (IH s)); [done|]. split; [|done].
        intros i v Hv. apply (Hs (S i) v Hv).
Qed.

Lemma wcs_wcslen (d s : list Z) :
  wcs d = Some s → wcslen d = Some (Z.of_nat (length s)).
Proof. unfold wcslen. by intros ->. Qed.

Lemma wcs_lookup_lt (d s : list Z) (i : nat) :
  wcs d = Some s → (i < length s)%nat → d !! i = s !! i.
Proof.
  intros H Hi. destruct (lookup_lt_is_Some_2 s i Hi) as [v Hv].
  rewrite Hv. by apply (proj1 (wcs_Some_lookup d s) H).
Qed.

Lemma wcs_nonzero (d s : list Z) (i : nat) (v : Z) :
  wcs d = Some s → s !! i = Some v → v ≠ 0.
Proof. intros H Hv. by apply (proj1 (wcs_Some_lookup d s) H) in Hv as []. Qed.

Lemma wcs_terminator (d s : list Z) :
  wcs d = Some s → d !! length s = Some 0.
Proof. intros H. by apply (proj1 (wcs_Some_lookup d s) H). Qed.

(** The characters of [take i s ++ key :: drop i s]. *)
Lemma lookup_inserted (s : list Z) (i j : nat) (key : Z) :
  (i ≤ length s)%nat →
  (take i s ++ key :: drop i s) !! j
  = if decide (j < i)%nat then s !! j
    else if decide (j = i) then Some key else s !! (j - 1)%nat.
Proof.
  intros Hi. case_decide.
  - rewrite lookup_app_l by (rewrite length_take; lia).
    by rewrite lookup_take_lt.
  - rewrite lookup_app_r by (rewrite length_take; lia).
    rewrite length_take. replace (i `min` length s)%nat with i by lia.
    case_decide.
    + subst j. by rewrite Nat.sub_diag.
    + destruct (j - i)%nat as [|k] eqn:E; [lia|]. simpl.
      rewrite lookup_drop. f_equal. lia.
Qed.

(** The characters of [take i s ++ drop (S i) s]. *)
Lemma lookup_removed (s : list Z) (i j : nat) :
  (i ≤ length s)%nat →
  (take i s ++ drop (S i) s) !! j
  = if decide (j < i)%nat then s !! j else s !! (S j).
Proof.
  intros Hi. case_decide.
  - rewrite lookup_app_l by (rewrite length_take; lia).
    by rewrite lookup_take_lt.
  - rewrite lookup_app_r by (rewrite length_take; lia).
    rewrite length_take. replace (i `min` length s)%nat with i by lia.
    rewrite lookup_drop. f_equal. lia.
Qed.

(** The string an array holds, from its elements: it is [s] when the
    array agrees with [s] on the indices of [s], no element of [s] is zero,
    and a zero follows. *)
Lemma wcs_intro (d s : list Z) :
  (∀ i, (i < length s)%nat → d !! i = s !! i) →
  (∀ i, s !! i ≠ Some 0) →
  d !! length s = Some 0 →
  wcs d = Some s.
Proof.
  intros Hs Hnz H0. apply wcs_Some_lookup. split; [|done].
  intros i v Hv. split.
  - rewrite Hs; [done|]. by apply lookup_lt_Some in Hv.
  - intros ->. by apply (Hnz i).
Qed.

Lemma wcs_no_zero (d s : list Z) (i : nat) :
  wcs d = Some s → s !! i ≠ Some 0.
Proof. intros H Hi. by apply (wcs_nonzero d s i 0 H Hi). Qed.

Lemma length_inserted (s : list Z) (i : nat) (key : Z) :
  (i ≤ length s)%nat → length (take i s ++ key :: drop i s) = S (length s).
Proof.
  intros Hi. rewrite length_app, length_take. cbn [length].
  rewrite length_drop. lia.
Qed.

Lemma length_removed (s : list Z) (i : nat) :
  (i < length s)%nat → length (take i s ++ drop (S i) s) = (length s - 1)%nat.
Proof.
  intros Hi. rewrite length_app, length_take, length_drop. lia.
Qed.



(** ** Where a move ends *)

Lemma mnumvislines_is_Some (e : Editor.t) (ln : Line.t) :
  is_Some (wcs (Line.data ln)) → is_Some (mnumvislines e ln).
Proof.
  intros [s Hs]. unfold mnumvislines, wcslen. rewrite Hs. simpl. eauto.
Qed.

Lemma terminated_lookup (b : Buffer.t) (i : nat) (ln : Line.t) :
  terminated b → Buffer.lines b !! i = Some ln → is_Some (wcs (Line.data ln)).
Proof. intros Ht Hi. apply Ht. apply list_elem_of_lookup. eauto. Qed.

Lemma mmove_up_total (e : Editor.t) (n : nat) (b : Buffer.t) :
  terminated b →
  (Buffer.curline b < length (Buffer.lines b))%nat →
  ∃ b', mmove_up e n b = Some b'
        ∧ Buffer.curline b' = (Buffer.curline b - n)%nat
        ∧ cur_y b' - Z.of_nat (Buffer.curline b')
          = cur_y b - Z.of_nat (Buffer.curline b)
        ∧ Buffer.lines b' = Buffer.lines b
        ∧ cur_x b' = cur_x b.
Proof.
  revert b. induction n as [|n IH]; intros b Ht Hc.
  - exists b. split_and!; [done|lia|done..].
  - cbn [mmove_up].
    destruct (lookup_lt_is_Some_2 _ _ Hc) as [ln Hln]. rewrite Hln.
    cbn [mbind option_bind].
    case_decide as Hprev.
    + set (b1 := set_y _ (set_curline _ b)).
      assert (Hl1 : Buffer.lines b1 = Buffer.lines b) by done.
      assert (Hc1 : Buffer.curline b1 = (Buffer.curline b - 1)%nat) by done.
      assert (Hy1 : cur_y b1 = cur_y b - 1) by done.
      assert (Hx1 : cur_x b1 = cur_x b) by done.
      assert (∃ b2, (if decide (cur_y b1 < cur_starty b1)
                     then ln ← Buffer.lines b1 !! Buffer.curline b1;
                          v ← mnumvislines e ln;
                          Some (set_starty (cur_starty b1 - v) b1)
                     else Some b1) = Some b2
                    ∧ Buffer.lines b2 = Buffer.lines b
                    ∧ Buffer.curline b2 = (Buffer.curline b - 1)%nat
                    ∧ cur_y b2 = cur_y b - 1
                    ∧ cur_x b2 = cur_x b) as (b2 & -> & Hl2 & Hc2 & Hy2 & Hx2).
      { case_decide; [|by exists b1].
        destruct (lookup_lt_is_Some_2 (Buffer.lines b1) (Buffer.curline b1))
          as [ln1 Hln1]; [rewrite Hl1, Hc1; lia|].
        rewrite Hln1. simpl.
        destruct (mnumvislines_is_Some e ln1) as [v ->].
        { eapply (terminated_lookup b); [done|]. by rewrite <- Hl1. }
        simpl. eexists. split; [done|]. done. }
      cbn [mbind option_bind].
      destruct (IH b2) as (b' & Hm & Hc' & Hy' & Hl' & Hx').
      { intros l. rewrite Hl2. apply Ht. }
      { rewrite Hl2, Hc2. lia. }
      exists b'. split; [done|]. split_and!; [lia|lia|congruence|congruence].
    + exists b. split_and!; [done|lia|done..].
Qed.

Lemma mmove_down_total (e : Editor.t) (n : nat) (b : Buffer.t) :
  terminated b →
  (Buffer.curline b < length (Buffer.lines b))%nat →
  ∃ b', mmove_down e n b = Some b'
        ∧ Buffer.curline b'
          = ((Buffer.curline b + n) `min` (length (Buffer.lines b) - 1))%nat
        ∧ cur_y b' - Z.of_nat (Buffer.curline b')
          = cur_y b - Z.of_nat (Buffer.curline b)
        ∧ Buffer.lines b' = Buffer.lines b
        ∧ cur_x b' = cur_x b.
Proof.
  revert b. induction n as [|n IH]; intros b Ht Hc.
  - exists b. split_and!; [done|simpl; lia|done..].
  - cbn [mmove_down].
    destruct (lookup_lt_is_Some_2 _ _ Hc) as [ln Hln]. rewrite Hln.
    cbn [mbind option_bind].
    case_decide as Hnext.
    + set (b1 := set_y _ (set_curline _ b)).
      assert (Hl1 : Buffer.lines b1 = Buffer.lines b) by done.
      assert (Hc1 : Buffer.curline b1 = (Buffer.curline b + 1)%nat) by done.
      assert (Hy1 : cur_y b1 = cur_y b + 1) by done.
      assert (Hx1 : cur_x b1 = cur_x b) by done.
      assert (∃ b2, (if decide (Editor.bufwin_row e ≤ cur_y b1 - cur_starty b1)
                     then ln ← Buffer.lines b1 !! Buffer.curline b1;
                          v ← mnumvislines e ln;
                          Some (set_starty (cur_starty b1 + v) b1)
                     else Some b1) = Some b2
                    ∧ Buffer.lines b2 = Buffer.lines b
                    ∧ Buffer.curline b2 = (Buffer.curline b + 1)%nat
                    ∧ cur_y b2 = cur_y b + 1
                    ∧ cur_x b2 = cur_x b) as (b2 & -> & Hl2 & Hc2 & Hy2 & Hx2).
      { case_decide; [|by exists b1].
        destruct (lookup_lt_is_Some_2 (Buffer.lines b1) (Buffer.curline b1))
          as [ln1 Hln1]; [rewrite Hl1, Hc1; lia|].
        rewrite Hln1. simpl.
        destruct (mnumvislines_is_Some e ln1) as [v ->].
        { eapply (terminated_lookup b); [done|]. by rewrite <- Hl1. }
        simpl. eexists. split; [done|]. done. }
      cbn [mbind option_bind].
      destruct (IH b2) as (b' & Hm & Hc' & Hy' & Hl' & Hx').
      { intros l. rewrite Hl2. apply Ht. }
      { rewrite Hl2, Hc2. lia. }
      exists b'. split; [done|].
      rewrite Hl2, Hc2 in Hc'. rewrite Hc2 in Hy'.
      split_and!; [lia|lia|congruence|congruence].
    + exists b. split_and!; [done|lia|done..].
Qed.

(** The move on the buffer itself. *)
Lemma mmove_buffer_total (e : Editor.t) (b : Buffer.t) (x y : Z) :
  terminated b →
  (Buffer.curline b < length (Buffer.lines b))%nat →
  ∃ b' ln s,
    mmove_buffer e b x y = Some b'
    ∧ Buffer.lines b' = Buffer.lines b
    ∧ Buffer.curline b' = mmove_target b y
    ∧ cur_y b' - Z.of_nat (Buffer.curline b')
      = cur_y b - Z.of_nat (Buffer.curline b)
    ∧ Buffer.lines b !! mmove_target b y = Some ln
    ∧ wcs (Line.data ln) = Some s
    ∧ cur_x b' = max (min (cur_x b + x) (Z.of_nat (length s))) 0.
Proof.
  intros Ht Hc. unfold mmove_buffer, mmove_target.
  set (b0 := set_x (cur_x b + x) b).
  assert (Ht0 : terminated b0) by done.
  assert (Hc0 : (Buffer.curline b0 < length (Buffer.lines b0))%nat) by done.
  assert (∃ b1, (if decide (y < 0) then mmove_up e (Z.to_nat (Z.abs y)) b0
                 else mmove_down e (Z.to_nat y) b0) = Some b1
                ∧ Buffer.curline b1
                  = (if decide (y < 0)
                     then (Buffer.curline b - Z.to_nat (- y))%nat
                     else ((Buffer.curline b + Z.to_nat y)
                            `min` (length (Buffer.lines b) - 1))%nat)
                ∧ cur_y b1 - Z.of_nat (Buffer.curline b1)
                  = cur_y b - Z.of_nat (Buffer.curline b)
                ∧ Buffer.lines b1 = Buffer.lines b
                ∧ cur_x b1 = cur_x b + x)
    as (b1 & -> & Hc1 & Hy1 & Hl1 & Hx1).
  { case_decide.
    - destruct (mmove_up_total e (Z.to_nat (Z.abs y)) b0 Ht0 Hc0)
        as (b1 & ? & ? & ? & ? & ?).
      exists b1. split_and!; try done.
      replace (Z.to_nat (- y)) with (Z.to_nat (Z.abs y)) by lia. done.
    - destruct (mmove_down_total e (Z.to_nat y) b0 Ht0 Hc0)
        as (b1 & ? & ? & ? & ? & ?).
      by exists b1. }
  simpl.
  destruct (lookup_lt_is_Some_2 (Buffer.lines b1) (Buffer.curline b1))
    as [ln Hln].
  { rewrite Hl1, Hc1. case_decide; lia. }
  rewrite Hln. simpl.
  destruct (terminated_lookup b (Buffer.curline b1) ln Ht) as [s Hs].
  { by rewrite <- Hl1. }
  rewrite (wcs_wcslen _ _ Hs). simpl.
  eexists _, ln, s. split; [reflexivity|].
  rewrite <- Hc1, <- Hl1. split_and!; try done.
  unfold cur_x at 1. simpl. by rewrite Hx1.
Qed.

(** X4. [mmove] on a buffer whose lines are terminated arrays always
    returns; it ends [-y] lines up but not above the first line, or [y]
    lines down but not below the last, never wrapping around; the row [y]
    of the cursor moves by as many lines as the current line; the lines
    are unchanged; the column is [x] further, brought back into
    [0 .. length] of the line it ends on. *)
Theorem mmove_lands (e : Editor.t) (p : nat) (b : Buffer.t) (x y : Z) :
  Editor.bufs e !! p = Some b →
  terminated b →
  (Buffer.curline b < length (Buffer.lines b))%nat →
  ∃ b' ln s,
    mmove e (Some p) x y = Some (setbuf e p b')
    ∧ Buffer.lines b' = Buffer.lines b
    ∧ Buffer.curline b' = mmove_target b y
    ∧ cur_y b' - Z.of_nat (Buffer.curline b')
      = cur_y b - Z.of_nat (Buffer.curline b)
    ∧ Buffer.lines b !! mmove_target b y = Some ln
    ∧ wcs (Line.data ln) = Some s
    ∧ cur_x b' = max (min (cur_x b + x) (Z.of_nat (length s))) 0.
Proof.
  intros Hb Ht Hc.
  destruct (mmove_buffer_total e b x y Ht Hc)
    as (b' & ln & s & Hm & Hrest).
  exists b', ln, s. split; [|exact Hrest].
  unfold mmove. cbn [mbind option_bind]. rewrite Hb.
  cbn [mbind option_bind]. rewrite Hm. reflexivity.
Qed.


(** ** The strings the line editor leaves *)

(** X5. A character typed into a line that has room for it: when the
    column is within the string and [x + length + 2] does not exceed the
    capacity of the array, [minsert] returns; the string of the line
    becomes the old one with the key, converted to a [wchar_t], inserted
    at the column (a key below [2^31] is stored as it is, a key from
    [2^31] to [2^32 - 1] as [key - 2^32]); the column moves one to the
    right; nothing else in the state changes. *)
Theorem minsert_character (cfg : Config.t) (iswspace : Z → bool)
    (runcmd : Editor.t → list Z → option Editor.t)
    (e : Editor.t) (p : nat) (b : Buffer.t) (ln : Line.t) (s : list Z)
    (key : Z) :
  Editor.bufs e !! p = Some b →
  Buffer.lines b !! Buffer.curline b = Some ln →
  wcs (Line.data ln) = Some s →
  0 ≤ cur_x b ≤ Z.of_nat (length s) →
  plain_key key → key ≠ 0 →
  cur_x b + Z.of_nat (length s) + 2 ≤ Z.of_nat (length (Line.data ln)) →
  ∃ d,
    minsert cfg iswspace runcmd e (Some p) key
    = Some (setbuf e p
              (set_x (cur_x b + 1)
                 (set_lines (<[Buffer.curline b := set_data d ln]>
                               (Buffer.lines b)) b)))
    ∧ wcs d = Some (take (Z.to_nat (cur_x b)) s
                      ++ wchar_of_wint key :: drop (Z.to_nat (cur_x b)) s)
    ∧ length d = length (Line.data ln)
    ∧ (key < 2 ^ 31 → wchar_of_wint key = key)
    ∧ (2 ^ 31 ≤ key < 2 ^ 32 → wchar_of_wint key = key - 2 ^ 32).
Proof.
  intros Hb Hln Hs Hx (Hk1 & Hk2 & Hk3) Hk0 Hcap.
  unfold minsert. rewrite Hb. simpl. rewrite Hln.
  rewrite (wcs_wcslen _ _ Hs). simpl.
  rewrite !decide_False by done.
  destruct (memcpy_is_Some (Line.data ln) (Line.data ln) (cur_x b + 1)
              (cur_x b) (Z.of_nat (length s) + 1)) as [d1 Hd1]; try lia.
  rewrite Hd1. simpl.
  apply memcpy_Some in Hd1 as (_ & Hlen1 & Hlk1).
  unfold store. rewrite decide_True by lia. simpl.
  eexists. split; [reflexivity|]. split.
  2:{ split; [by rewrite length_insert|]. split.
      - apply wchar_of_wint_small.
      - intros Hbig. unfold wchar_of_wint. by rewrite decide_True. }
  pose proof (wchar_of_wint_nonzero key Hk0) as Hw0.
  set (idx := Z.to_nat (cur_x b)) in *.
  assert (Hidx : (idx ≤ length s)%nat) by lia.
  apply wcs_intro.
  - intros i Hi. rewrite length_inserted in Hi by done.
    rewrite lookup_inserted by done.
    destruct (decide (i < idx)%nat) as [Hlt|Hge];
      [|destruct (decide (i = idx)) as [Heq|Hne]].
    + rewrite list_lookup_insert_ne by lia. rewrite Hlk1.
      rewrite decide_False by lia.
      apply (wcs_lookup_lt _ _ _ Hs). lia.
    + rewrite Heq. apply list_lookup_insert_eq. lia.
    + rewrite list_lookup_insert_ne by done. rewrite Hlk1.
      rewrite decide_True by lia.
      replace (idx + (i - Z.to_nat (cur_x b + 1)))%nat
        with (i - 1)%nat by lia.
      apply (wcs_lookup_lt _ _ _ Hs). lia.
  - intros i. rewrite lookup_inserted by done.
    repeat case_decide; try congruence; by apply (wcs_no_zero _ _ _ Hs).
  - rewrite length_inserted by done.
    rewrite list_lookup_insert_ne by lia. rewrite Hlk1.
    rewrite decide_True by lia.
    replace (idx + (S (length s) - Z.to_nat (cur_x b + 1)))%nat
      with (length s) by lia.
    apply (wcs_terminator _ _ Hs).
Qed.

(** X6. A character typed into a line that has no room for the copy:
    [minsert] copies [length + 1] characters from the column to one
    place further, whatever the column, so when [x + length + 2] exceeds
    the capacity of the array the copy runs past its end and the result
    is undefined. *)
Theorem minsert_character_overrun (cfg : Config.t) (iswspace : Z → bool)
    (runcmd : Editor.t → list Z → option Editor.t)
    (e : Editor.t) (p : nat) (b : Buffer.t) (ln : Line.t) (s : list Z)
    (key : Z) :
  Editor.bufs e !! p = Some b →
  Buffer.lines b !! Buffer.curline b = Some ln →
  wcs (Line.data ln) = Some s →
  plain_key key →
  Z.of_nat (length (Line.data ln)) < cur_x b + Z.of_nat (length s) + 2 →
  minsert cfg iswspace runcmd e (Some p) key = None.
Proof.
  intros Hb Hln Hs (Hk1 & Hk2 & Hk3) Hcap.
  unfold minsert. rewrite Hb. simpl. rewrite Hln.
  rewrite (wcs_wcslen _ _ Hs). simpl.
  rewrite !decide_False by done.
  unfold memcpy. rewrite decide_False by lia. done.
Qed.

(** X7. The key 0 is inserted like any character: the string of the
    line then ends at the column, and the column moves one to the right,
    past the end of the string. *)
Theorem minsert_nul (cfg : Config.t) (iswspace : Z → bool)
    (runcmd : Editor.t → list Z → option Editor.t)
    (e : Editor.t) (p : nat) (b : Buffer.t) (ln : Line.t) (s : list Z) :
  Editor.bufs e !! p = Some b →
  Buffer.lines b !! Buffer.curline b = Some ln →
  wcs (Line.data ln) = Some s →
  0 ≤ cur_x b ≤ Z.of_nat (length s) →
  cur_x b + Z.of_nat (length s) + 2 ≤ Z.of_nat (length (Line.data ln)) →
  ∃ d,
    minsert cfg iswspace runcmd e (Some p) 0
    = Some (setbuf e p
              (set_x (cur_x b + 1)
                 (set_lines (<[Buffer.curline b := set_data d ln]>
                               (Buffer.lines b)) b)))
    ∧ wcs d = Some (take (Z.to_nat (cur_x b)) s)
    ∧ Z.of_nat (length (take (Z.to_nat (cur_x b)) s)) < cur_x b + 1.
Proof.
  intros Hb Hln Hs Hx Hcap.
  unfold minsert. rewrite Hb. simpl. rewrite Hln.
  rewrite (wcs_wcslen _ _ Hs). simpl.
  destruct (memcpy_is_Some (Line.data ln) (Line.data ln) (cur_x b + 1)
              (cur_x b) (Z.of_nat (length s) + 1)) as [d1 Hd1]; try lia.
  rewrite Hd1. simpl.
  apply memcpy_Some in Hd1 as (_ & Hlen1 & Hlk1).
  unfold store. rewrite decide_True by lia. simpl.
  eexists. split; [reflexivity|].
  set (idx := Z.to_nat (cur_x b)) in *.
  assert (Hidx : (idx ≤ length s)%nat) by lia.
  assert (Hlen : length (take idx s) = idx) by (rewrite length_take; lia).
  split; [|lia].
  apply wcs_intro.
  - intros i Hi. rewrite Hlen in Hi.
    rewrite list_lookup_insert_ne by lia. rewrite Hlk1.
    rewrite decide_False by lia. rewrite lookup_take_lt by done.
    apply (wcs_lookup_lt _ _ _ Hs). lia.
  - intros i Hi. apply lookup_take_Some in Hi as [Hi _].
    by apply (wcs_no_zero _ _ _ Hs) in Hi.
  - rewrite Hlen. apply list_lookup_insert_eq. lia.
Qed.

(** X8. Backspace with a character before the column
    ([1 <= x <= length], and [x + length + 1] within the capacity)
    removes that character and moves the column one to the left; nothing
    else in the state changes. *)
Theorem minsert_backspace (cfg : Config.t) (iswspace : Z → bool)
    (runcmd : Editor.t → list Z → option Editor.t)
    (e : Editor.t) (p : nat) (b : Buffer.t) (ln : Line.t) (s : list Z) :
  Editor.bufs e !! p = Some b →
  Buffer.lines b !! Buffer.curline b = Some ln →
  wcs (Line.data ln) = Some s →
  1 ≤ cur_x b ≤ Z.of_nat (length s) →
  cur_x b + Z.of_nat (length s) + 1 ≤ Z.of_nat (length (Line.data ln)) →
  ∃ d,
    minsert cfg iswspace runcmd e (Some p) KEY_BACKSPACE
    = Some (setbuf e p
              (set_x (cur_x b - 1)
                 (set_lines (<[Buffer.curline b := set_data d ln]>
                               (Buffer.lines b)) b)))
    ∧ wcs d = Some (take (Z.to_nat (cur_x b - 1)) s
                      ++ drop (Z.to_nat (cur_x b)) s).
Proof.
  intros Hb Hln Hs Hx Hcap.
  unfold minsert. rewrite Hb. simpl. rewrite Hln.
  rewrite (wcs_wcslen _ _ Hs). simpl.
  rewrite decide_True by lia.
  destruct (memcpy_is_Some (Line.data ln) (Line.data ln) (cur_x b - 1)
              (cur_x b) (Z.of_nat (length s) + 1)) as [d1 Hd1]; try lia.
  rewrite Hd1. simpl.
  apply memcpy_Some in Hd1 as (_ & Hlen1 & Hlk1).
  eexists. split; [reflexivity|].
  set (idx := Z.to_nat (cur_x b - 1)) in *.
  replace (Z.to_nat (cur_x b)) with (S idx) in * by lia.
  assert (Hidx : (idx < length s)%nat) by lia.
  apply wcs_intro.
  - intros i Hi. rewrite length_removed in Hi by done.
    rewrite lookup_removed by lia. rewrite Hlk1.
    destruct (decide (i < idx)%nat).
    + rewrite decide_False by lia. apply (wcs_lookup_lt _ _ _ Hs). lia.
    + rewrite decide_True by lia.
      replace (S idx + (i - idx))%nat with (S i) by lia.
      apply (wcs_lookup_lt _ _ _ Hs). lia.
  - intros i. rewrite lookup_removed by lia.
    case_decide; by apply (wcs_no_zero _ _ _ Hs).
  - rewrite length_removed by done. rewrite Hlk1.
    rewrite decide_True by lia.
    replace (S idx + (length s - 1 - idx))%nat with (length s) by lia.
    apply (wcs_terminator _ _ Hs).
Qed.

(** X9. Delete with the column on a character ([0 <= x < length], and
    [x + length + 2] within the capacity) removes that character and
    leaves the column; nothing else in the state changes. *)
Theorem minsert_delete (cfg : Config.t) (iswspace : Z → bool)
    (runcmd : Editor.t → list Z → option Editor.t)
    (e : Editor.t) (p : nat) (b : Buffer.t) (ln : Line.t) (s : list Z) :
  Editor.bufs e !! p = Some b →
  Buffer.lines b !! Buffer.curline b = Some ln →
  wcs (Line.data ln) = Some s →
  0 ≤ cur_x b < Z.of_nat (length s) →
  cur_x b + Z.of_nat (length s) + 2 ≤ Z.of_nat (length (Line.data ln)) →
  ∃ d,
    minsert cfg iswspace runcmd e (Some p) KEY_DC
    = Some (setbuf e p
              (set_lines (<[Buffer.curline b := set_data d ln]>
                            (Buffer.lines b)) b))
    ∧ wcs d = Some (take (Z.to_nat (cur_x b)) s
                      ++ drop (S (Z.to_nat (cur_x b))) s).
Proof.
  intros Hb Hln Hs Hx Hcap.
  unfold minsert. rewrite Hb. simpl. rewrite Hln.
  rewrite (wcs_wcslen _ _ Hs). simpl.
  destruct (memcpy_is_Some (Line.data ln) (Line.data ln) (cur_x b)
              (cur_x b + 1) (Z.of_nat (length s) + 1)) as [d1 Hd1]; try lia.
  rewrite Hd1. simpl.
  apply memcpy_Some in Hd1 as (_ & Hlen1 & Hlk1).
  eexists. split; [reflexivity|].
  set (idx := Z.to_nat (cur_x b)) in *.
  replace (Z.to_nat (cur_x b + 1)) with (S idx) in * by lia.
  assert (Hidx : (idx < length s)%nat) by lia.
  apply wcs_intro.
  - intros i Hi. rewrite length_removed in Hi by done.
    rewrite lookup_removed by lia. rewrite Hlk1.
    destruct (decide (i < idx)%nat).
    + rewrite decide_False by lia. apply (wcs_lookup_lt _ _ _ Hs). lia.
    + rewrite decide_True by lia.
      replace (S idx + (i - idx))%nat with (S i) by lia.
      apply (wcs_lookup_lt _ _ _ Hs). lia.
  - intros i. rewrite lookup_removed by lia.
    case_decide; by apply (wcs_no_zero _ _ _ Hs).
  - rewrite length_removed by done. rewrite Hlk1.
    rewrite decide_True by lia.
    replace (S idx + (length s - 1 - idx))%nat with (length s) by lia.
    apply (wcs_terminator _ _ Hs).
Qed.

(** X10. Delete with the column at the end of the line copies the
    characters behind the terminator over it: the string of the line
    becomes the old one followed by the string the array holds behind
    its terminator (when that one is no longer than the line), so what an
    earlier split left there comes back. *)
Theorem minsert_delete_at_end (cfg : Config.t) (iswspace : Z → bool)
    (runcmd : Editor.t → list Z → option Editor.t)
    (e : Editor.t) (p : nat) (b : Buffer.t) (ln : Line.t) (s t : list Z) :
  Editor.bufs e !! p = Some b →
  Buffer.lines b !! Buffer.curline b = Some ln →
  wcs (Line.data ln) = Some s →
  cur_x b = Z.of_nat (length s) →
  wcs (drop (S (length s)) (Line.data ln)) = Some t →
  (length t ≤ length s)%nat →
  2 * Z.of_nat (length s) + 2 ≤ Z.of_nat (length (Line.data ln)) →
  ∃ d,
    minsert cfg iswspace runcmd e (Some p) KEY_DC
    = Some (setbuf e p
              (set_lines (<[Buffer.curline b := set_data d ln]>
                            (Buffer.lines b)) b))
    ∧ wcs d = Some (s ++ t).
Proof.
  intros Hb Hln Hs Hx Ht Hts Hcap.
  unfold minsert. rewrite Hb. simpl. rewrite Hln.
  rewrite (wcs_wcslen _ _ Hs). simpl.
  destruct (memcpy_is_Some (Line.data ln) (Line.data ln) (cur_x b)
              (cur_x b + 1) (Z.of_nat (length s) + 1)) as [d1 Hd1]; try lia.
  rewrite Hd1. simpl.
  apply memcpy_Some in Hd1 as (_ & Hlen1 & Hlk1).
  eexists. split; [reflexivity|].
  replace (Z.to_nat (cur_x b)) with (length s) in * by lia.
  replace (Z.to_nat (cur_x b + 1)) with (S (length s)) in * by lia.
  assert (Hdrop : ∀ j, Line.data ln !! (S (length s) + j)%nat
                       = drop (S (length s)) (Line.data ln) !! j).
  { intros j. by rewrite lookup_drop. }
  apply wcs_intro.
  - intros i Hi. rewrite length_app in Hi. rewrite Hlk1.
    destruct (decide (i < length s)%nat).
    + rewrite decide_False by lia. rewrite lookup_app_l by done.
      by apply (wcs_lookup_lt _ _ _ Hs).
    + rewrite decide_True by lia. rewrite lookup_app_r by lia.
      rewrite Hdrop. apply (wcs_lookup_lt _ _ _ Ht). lia.
  - intros i Hi. apply lookup_app_Some in Hi as [Hi|[_ Hi]].
    + by apply (wcs_no_zero _ _ _ Hs) in Hi.
    + by apply (wcs_no_zero _ _ _ Ht) in Hi.
  - rewrite length_app. rewrite Hlk1. rewrite decide_True by lia.
    replace (S (length s) + (length s + length t - length s))%nat
      with (S (length s) + length t)%nat by lia.
    rewrite Hdrop. apply (wcs_terminator _ _ Ht).
Qed.

Lemma setbuf_setbuf (e : Editor.t) (p : nat) (b1 b2 : Buffer.t) :
  setbuf (setbuf e p b1) p b2 = setbuf e p b2.
Proof.
  unfold setbuf, set_bufs. simpl. by rewrite list_insert_insert_eq.
Qed.

Lemma strings_of_split (b : Buffer.t) (ls : list Line.t) (old new : Line.t) :
  (Buffer.curline b < length (Buffer.lines b))%nat →
  ls = take (S (Buffer.curline b)) (<[Buffer.curline b := old]> (Buffer.lines b))
       ++ new :: drop (S (Buffer.curline b)) (Buffer.lines b) →
  (λ ln, wcs (Line.data ln)) <$> ls
  = take (Buffer.curline b) (strings_of b)
    ++ wcs (Line.data old) :: wcs (Line.data new)
    :: drop (S (Buffer.curline b)) (strings_of b).
Proof.
  intros Hc ->. unfold strings_of.
  rewrite (take_S_r _ _ old) by (by apply list_lookup_insert_eq).
  rewrite take_insert_ge by lia.
  rewrite !fmap_app, !fmap_cons, fmap_take, fmap_drop.
  by rewrite <- app_assoc.
Qed.

Lemma terminated_split (b : Buffer.t) (ls : list Line.t) (old new : Line.t) :
  terminated b →
  is_Some (wcs (Line.data old)) → is_Some (wcs (Line.data new)) →
  ls = take (S (Buffer.curline b)) (<[Buffer.curline b := old]> (Buffer.lines b))
       ++ new :: drop (S (Buffer.curline b)) (Buffer.lines b) →
  ∀ ln, ln ∈ ls → is_Some (wcs (Line.data ln)).
Proof.
  intros Ht Ho Hn -> ln Hin.
  apply elem_of_app in Hin as [Hin|Hin].
  - apply list_elem_of_lookup in Hin as [i Hi].
    apply lookup_take_Some in Hi as [Hi _].
    apply list_lookup_insert_Some in Hi as [(_ & <- & _)|[_ Hi]]; [done|].
    apply Ht. apply list_elem_of_lookup. eauto.
  - apply elem_of_cons in Hin as [->|Hin]; [done|].
    apply Ht. apply list_elem_of_lookup in Hin as [i Hi].
    rewrite lookup_drop in Hi. apply list_elem_of_lookup. eauto.
Qed.

(** A newline typed in a line, whatever the indentation: [nl] is the
    new line as [mindent] leaves it, [ox] the width it returns, [sn] the
    string of the new line once the tail is copied in. *)
Lemma newline_opens (cfg : Config.t) (iswspace : Z → bool)
    (runcmd : Editor.t → list Z → option Editor.t)
    (e : Editor.t) (p : nat) (b : Buffer.t) (ln nl : Line.t) (s sn : list Z)
    (ox : Z) :
  Editor.mode e ≠ MODE_COMMAND →
  Editor.curbuf e = Some p →
  Editor.bufs e !! p = Some b →
  terminated b →
  Buffer.lines b !! Buffer.curline b = Some ln →
  wcs (Line.data ln) = Some s →
  0 ≤ cur_x b ≤ Z.of_nat (length s) →
  cur_x b + Z.of_nat (length s) + 1 ≤ Z.of_nat (length (Line.data ln)) →
  (if Config.auto_indent cfg
   then indent_scan cfg iswspace (Line.data ln) 0 0 (Z.to_nat (cur_x b))
        ≫= mindent cfg (Line.mk 0 (zeros (new_line_capacity cfg)))
   else Some (Line.mk 0 (zeros (new_line_capacity cfg)), 0)) = Some (nl, ox) →
  0 ≤ ox →
  ox + Z.of_nat (length s) + 1 ≤ Z.of_nat (length (Line.data nl)) →
  (∀ d1, memcpy (Line.data nl) ox (Line.data ln) (cur_x b)
           (Z.of_nat (length s) + 1) = Some d1 →
         wcs d1 = Some sn) →
  ∃ e' b',
    minsert cfg iswspace runcmd e (Some p) NEWLINE = Some e'
    ∧ Editor.bufs e' !! p = Some b'
    ∧ strings_of b'
      = take (Buffer.curline b) (strings_of b)
        ++ Some (take (Z.to_nat (cur_x b)) s)
        :: Some sn
        :: drop (S (Buffer.curline b)) (strings_of b)
    ∧ Buffer.curline b' = S (Buffer.curline b)
    ∧ cur_x b' = ox
    ∧ cur_y b' = cur_y b + 1
    ∧ terminated b'
    ∧ (∃ old new,
         Buffer.lines b' !! Buffer.curline b = Some old
         ∧ Buffer.lines b' !! S (Buffer.curline b) = Some new
         ∧ wcs (Line.data old) = Some (take (Z.to_nat (cur_x b)) s)
         ∧ wcs (Line.data new) = Some sn
         ∧ length (Line.data old) = length (Line.data ln))
    ∧ Editor.curbuf e' = Some p
    ∧ Editor.mode e' = Editor.mode e.
Proof.
  intros Hmode Hcur Hb Ht Hln Hs Hx Hcap Hnl Hox Hcapn Hsn.
  pose proof (lookup_lt_Some _ _ _ Hln) as Hlt.
  pose proof (lookup_lt_Some _ _ _ Hb) as Hp.
  unfold minsert. rewrite Hb. cbn [mbind option_bind]. rewrite Hln.
  rewrite (wcs_wcslen _ _ Hs). cbn [mbind option_bind].
  rewrite (decide_False (P := NEWLINE = KEY_BACKSPACE)) by done.
  rewrite (decide_False (P := NEWLINE = KEY_DC)) by done.
  rewrite (decide_True (P := NEWLINE = NEWLINE)) by done.
  rewrite decide_False by done.
  change (mx ← indent_scan cfg iswspace (Line.data ln) 0 0 (Z.to_nat (cur_x b));
          mindent cfg (Line.mk 0 (zeros (new_line_capacity cfg))) mx)
    with (indent_scan cfg iswspace (Line.data ln) 0 0 (Z.to_nat (cur_x b))
          ≫= mindent cfg (Line.mk 0 (zeros (new_line_capacity cfg)))).
  rewrite Hnl. cbn [mbind option_bind].
  destruct (memcpy_is_Some (Line.data nl) (Line.data ln) ox
              (cur_x b) (Z.of_nat (length s) + 1)) as [d1 Hd1]; try lia.
  rewrite Hd1. cbn [mbind option_bind].
  pose proof (Hsn d1 Hd1) as Hnewl.
  apply memcpy_Some in Hd1 as (_ & Hlen1 & Hlk1).
  unfold store. rewrite decide_True by lia. cbn [mbind option_bind].
  set (idx := Z.to_nat (cur_x b)) in *.
  assert (Hidx : (idx ≤ length s)%nat) by lia.
  set (old := set_data (<[idx := 0]> (Line.data ln)) ln).
  set (new := set_data d1 nl).
  set (ls := take (S (Buffer.curline b)) (<[Buffer.curline b := old]> (Buffer.lines b))
             ++ new :: drop (S (Buffer.curline b)) (Buffer.lines b)).
  assert (Hold : wcs (Line.data old) = Some (take idx s)).
  { apply wcs_intro.
    - intros i Hi. rewrite length_take in Hi. simpl.
      rewrite list_lookup_insert_ne by lia. rewrite lookup_take_lt by lia.
      apply (wcs_lookup_lt _ _ _ Hs). lia.
    - intros i Hi. apply lookup_take_Some in Hi as [Hi _].
      by apply (wcs_no_zero _ _ _ Hs) in Hi.
    - rewrite length_take. replace (idx `min` length s)%nat with idx by lia.
      simpl. apply list_lookup_insert_eq. lia. }
  assert (Hto : is_Some (wcs (Line.data old))) by (by rewrite Hold).
  assert (Htn : is_Some (wcs (Line.data new))).
  { change (Line.data new) with d1. by rewrite Hnewl. }
  (* the jump *)
  unfold mjump. cbn [Editor.curbuf setbuf set_bufs]. rewrite Hcur.
  cbn [mbind option_bind].
  rewrite (setbuf_lookup _ _ b) by done. cbn [mbind option_bind].
  rewrite setbuf_setbuf.
  (* the move *)
  set (b1 := set_x 0 (set_lines ls b)).
  set (e1 := setbuf _ p b1).
  assert (Hb1 : Editor.bufs e1 !! p = Some b1).
  { by apply (setbuf_lookup _ _ b). }
  assert (Hls : length ls = S (length (Buffer.lines b))).
  { unfold ls. rewrite length_app, length_take, length_insert. cbn [length].
    rewrite length_drop. lia. }
  unfold mmove. cbn [mbind option_bind]. rewrite Hb1. cbn [mbind option_bind].
  destruct (mmove_buffer_total e1 b1 0 1) as (b2 & ln2 & s2 & -> & Hl2 & Hc2 & Hy2 & _).
  { intros l Hl. by apply (terminated_split b ls old new Ht Hto Htn eq_refl). }
  { simpl. rewrite Hls. lia. }
  cbn [mbind option_bind].
  rewrite (setbuf_lookup _ _ b1) by done. cbn [mbind option_bind].
  rewrite setbuf_setbuf.
  eexists _, _. split; [reflexivity|].
  assert (Htarget : mmove_target b1 1 = S (Buffer.curline b)).
  { unfold mmove_target. rewrite decide_False by lia. simpl.
    rewrite Hls. lia. }
  rewrite Htarget in Hc2. rewrite Hc2 in Hy2.
  split.
  { by apply (setbuf_lookup _ _ b1). }
  split.
  { transitivity ((λ ln, wcs (Line.data ln)) <$> ls).
    { unfold strings_of. f_equal. exact Hl2. }
    rewrite (strings_of_split b ls old new Hlt eq_refl).
    change (Line.data new) with d1. by rewrite Hold, Hnewl. }
  split; [done|]. split; [done|].
  split.
  { change (cur_y b2 = cur_y b + 1).
    change (cur_y b2 - Z.of_nat (S (Buffer.curline b))
            = cur_y b - Z.of_nat (Buffer.curline b)) in Hy2. lia. }
  assert (Hlo : ls !! Buffer.curline b = Some old).
  { unfold ls. rewrite lookup_app_l by (rewrite length_take, length_insert; lia).
    rewrite lookup_take_lt by lia. by apply list_lookup_insert_eq. }
  assert (Hln' : ls !! S (Buffer.curline b) = Some new).
  { unfold ls. rewrite lookup_app_r by (rewrite length_take, length_insert; lia).
    rewrite length_take, length_insert.
    by replace (S (Buffer.curline b)
                - S (Buffer.curline b) `min` length (Buffer.lines b))%nat
      with 0%nat by lia. }
  split.
  { intros l Hl. cbn [Buffer.lines set_x] in Hl. rewrite Hl2 in Hl.
    by apply (terminated_split b ls old new Ht Hto Htn eq_refl). }
  split; [|done].
  exists old, new. cbn [Buffer.lines set_x]. rewrite Hl2.
  split_and!; try done. simpl. by rewrite length_insert.
Qed.

Lemma newline_split (cfg : Config.t) (iswspace : Z → bool)
    (runcmd : Editor.t → list Z → option Editor.t)
    (e : Editor.t) (p : nat) (b : Buffer.t) (ln : Line.t) (s : list Z) :
  Config.auto_indent cfg = false →
  Editor.mode e ≠ MODE_COMMAND →
  Editor.curbuf e = Some p →
  Editor.bufs e !! p = Some b →
  terminated b →
  Buffer.lines b !! Buffer.curline b = Some ln →
  wcs (Line.data ln) = Some s →
  0 ≤ cur_x b ≤ Z.of_nat (length s) →
  cur_x b + Z.of_nat (length s) + 1 ≤ Z.of_nat (length (Line.data ln)) →
  Z.of_nat (length s) + 1 ≤ new_line_capacity cfg →
  ∃ e' b',
    minsert cfg iswspace runcmd e (Some p) NEWLINE = Some e'
    ∧ Editor.bufs e' !! p = Some b'
    ∧ strings_of b'
      = take (Buffer.curline b) (strings_of b)
        ++ Some (take (Z.to_nat (cur_x b)) s)
        :: Some (drop (Z.to_nat (cur_x b)) s)
        :: drop (S (Buffer.curline b)) (strings_of b)
    ∧ Buffer.curline b' = S (Buffer.curline b)
    ∧ cur_x b' = 0
    ∧ cur_y b' = cur_y b + 1
    ∧ terminated b'
    ∧ (∃ old new,
         Buffer.lines b' !! Buffer.curline b = Some old
         ∧ Buffer.lines b' !! S (Buffer.curline b) = Some new
         ∧ wcs (Line.data old) = Some (take (Z.to_nat (cur_x b)) s)
         ∧ wcs (Line.data new) = Some (drop (Z.to_nat (cur_x b)) s)
         ∧ length (Line.data old) = length (Line.data ln))
    ∧ Editor.curbuf e' = Some p
    ∧ Editor.mode e' = Editor.mode e.
Proof.
  intros Hai Hmode Hcur Hb Ht Hln Hs Hx Hcap Hnew.
  apply (newline_opens cfg iswspace runcmd e p b ln
           (Line.mk 0 (zeros (new_line_capacity cfg))) s
           (drop (Z.to_nat (cur_x b)) s) 0); try done.
  - by rewrite Hai.
  - simpl. rewrite length_zeros. lia.
  - intros d1 Hd1. apply memcpy_Some in Hd1 as (_ & Hlen1 & Hlk1).
    set (idx := Z.to_nat (cur_x b)) in *.
    apply wcs_intro.
    + intros i Hi. rewrite length_drop in Hi. rewrite Hlk1.
      rewrite decide_True by lia. rewrite lookup_drop.
      replace (Z.to_nat 0) with 0%nat by done. rewrite Nat.sub_0_r.
      apply (wcs_lookup_lt _ _ _ Hs). lia.
    + intros i. rewrite lookup_drop. by apply (wcs_no_zero _ _ _ Hs).
    + rewrite length_drop. rewrite Hlk1.
      rewrite decide_True by lia.
      replace (Z.to_nat 0) with 0%nat by done. rewrite Nat.sub_0_r.
      replace (idx + (length s - idx))%nat with (length s) by lia.
      apply (wcs_terminator _ _ Hs).
Qed.

(** X11. Without auto-indent, a newline typed outside the command line
    splits the line at the column: the line keeps the characters before
    the column, a new line after it takes the rest, the other lines are
    as they were, and the cursor is at column 0 of the new line, one row
    down. *)
Theorem minsert_newline_splits (cfg : Config.t) (iswspace : Z → bool)
    (runcmd : Editor.t → list Z → option Editor.t)
    (e : Editor.t) (p : nat) (b : Buffer.t) (ln : Line.t) (s : list Z) :
  Config.auto_indent cfg = false →
  Editor.mode e ≠ MODE_COMMAND →
  Editor.curbuf e = Some p →
  Editor.bufs e !! p = Some b →
  terminated b →
  Buffer.lines b !! Buffer.curline b = Some ln →
  wcs (Line.data ln) = Some s →
  0 ≤ cur_x b ≤ Z.of_nat (length s) →
  cur_x b + Z.of_nat (length s) + 1 ≤ Z.of_nat (length (Line.data ln)) →
  Z.of_nat (length s) + 1 ≤ new_line_capacity cfg →
  ∃ e' b',
    minsert cfg iswspace runcmd e (Some p) NEWLINE = Some e'
    ∧ Editor.bufs e' !! p = Some b'
    ∧ strings_of b'
      = take (Buffer.curline b) (strings_of b)
        ++ Some (take (Z.to_nat (cur_x b)) s)
        :: Some (drop (Z.to_nat (cur_x b)) s)
        :: drop (S (Buffer.curline b)) (strings_of b)
    ∧ Buffer.curline b' = S (Buffer.curline b)
    ∧ cur_x b' = 0
    ∧ cur_y b' = cur_y b + 1.
Proof.
  intros Hai Hmode Hcur Hb Ht Hln Hs Hx Hcap Hnew.
  destruct (newline_split cfg iswspace runcmd e p b ln s)
    as (e' & b' & ? & ? & ? & ? & ? & ? & _); try done.
  by exists e', b'.
Qed.

Lemma delete_after_insert {A} (l : list A) (k : nat) (x : A) :
  (S k < length l)%nat →
  delete (S k) (<[k := x]> l) = take k l ++ x :: drop (S (S k)) l.
Proof.
  intros Hk. apply list_eq. intros i.
  destruct (decide (i < S k)%nat).
  - rewrite list_lookup_delete_lt by done.
    destruct (decide (i = k)) as [->|].
    + rewrite list_lookup_insert_eq by lia.
      rewrite lookup_app_r by (rewrite length_take; lia).
      rewrite length_take. by replace (k - k `min` length l)%nat with 0%nat by lia.
    + rewrite list_lookup_insert_ne by done.
      rewrite lookup_app_l by (rewrite length_take; lia).
      by rewrite lookup_take_lt by lia.
  - rewrite list_lookup_delete_ge by lia.
    rewrite list_lookup_insert_ne by lia.
    rewrite lookup_app_r by (rewrite length_take; lia).
    rewrite length_take. replace (k `min` length l)%nat with k by lia.
    destruct (i - k)%nat as [|j] eqn:E; [lia|]. simpl.
    rewrite lookup_drop. f_equal. lia.
Qed.

Lemma backspace_join (cfg : Config.t) (iswspace : Z → bool)
    (runcmd : Editor.t → list Z → option Editor.t)
    (e : Editor.t) (p : nat) (b : Buffer.t) (k : nat) (lp ln : Line.t)
    (sp s : list Z) :
  Editor.bufs e !! p = Some b →
  terminated b →
  Buffer.curline b = S k →
  Buffer.lines b !! k = Some lp →
  Buffer.lines b !! S k = Some ln →
  wcs (Line.data lp) = Some sp →
  wcs (Line.data ln) = Some s →
  cur_x b = 0 →
  Z.of_nat (length sp) + Z.of_nat (length s) + 1
    ≤ Z.of_nat (length (Line.data lp)) →
  ∃ e' b',
    minsert cfg iswspace runcmd e (Some p) KEY_BACKSPACE = Some e'
    ∧ Editor.bufs e' !! p = Some b'
    ∧ strings_of b'
      = take k (strings_of b) ++ Some (sp ++ s) :: drop (S (S k)) (strings_of b)
    ∧ Buffer.curline b' = k
    ∧ cur_x b' = Z.of_nat (length sp)
    ∧ cur_y b' = cur_y b - 1
    ∧ Editor.curbuf e' = Editor.curbuf e
    ∧ Editor.mode e' = Editor.mode e.
Proof.
  intros Hb Ht Hcur Hlp Hln Hsp Hs Hx Hcap.
  pose proof (lookup_lt_Some _ _ _ Hln) as Hlt.
  pose proof (lookup_lt_Some _ _ _ Hb) as Hp.
  pose proof (wcslen_bounds _ _ (wcs_wcslen _ _ Hs)) as Hsb.
  unfold minsert. rewrite Hb. cbn [mbind option_bind]. rewrite Hcur, Hln.
  rewrite (wcs_wcslen _ _ Hs). cbn [mbind option_bind].
  rewrite (decide_True (P := KEY_BACKSPACE = KEY_BACKSPACE)) by done.
  rewrite decide_False by (intros H; by apply H).
  rewrite decide_True by lia.
  replace (S k - 1)%nat with k by lia. rewrite Hlp.
  cbn [mbind option_bind].
  rewrite (wcs_wcslen _ _ Hsp). cbn [mbind option_bind].
  destruct (memcpy_is_Some (Line.data lp) (Line.data ln)
              (Z.of_nat (length sp)) 0 (Z.of_nat (length s) + 1))
    as [d1 Hd1]; try lia.
  rewrite Hd1. cbn [mbind option_bind].
  apply memcpy_Some in Hd1 as (_ & Hlen1 & Hlk1).
  set (joined := set_data d1 lp).
  assert (Hj : wcs (Line.data joined) = Some (sp ++ s)).
  { apply wcs_intro.
    - intros i Hi. rewrite length_app in Hi. simpl. rewrite Hlk1.
      destruct (decide (i < length sp)%nat).
      + rewrite decide_False by lia. rewrite lookup_app_l by done.
        by apply (wcs_lookup_lt _ _ _ Hsp).
      + rewrite decide_True by lia. rewrite lookup_app_r by lia.
        replace (Z.to_nat 0 + (i - Z.to_nat (Z.of_nat (length sp))))%nat
          with (i - length sp)%nat by lia.
        apply (wcs_lookup_lt _ _ _ Hs). lia.
    - intros i Hi. apply lookup_app_Some in Hi as [Hi|[_ Hi]].
      + by apply (wcs_no_zero _ _ _ Hsp) in Hi.
      + by apply (wcs_no_zero _ _ _ Hs) in Hi.
    - rewrite length_app. simpl. rewrite Hlk1. rewrite decide_True by lia.
      replace (Z.to_nat 0 + (length sp + length s
                             - Z.to_nat (Z.of_nat (length sp))))%nat
        with (length s) by lia.
      apply (wcs_terminator _ _ Hs). }
  set (ls := <[k := joined]> (Buffer.lines b)).
  set (b1 := set_lines ls b).
  set (e1 := setbuf e p b1).
  assert (Hb1 : Editor.bufs e1 !! p = Some b1) by (by apply (setbuf_lookup _ _ b)).
  unfold mmove. cbn [mbind option_bind]. rewrite Hb1. cbn [mbind option_bind].
  destruct (mmove_buffer_total e1 b1 (Z.of_nat (length sp) + cur_x b1) (-1))
    as (b2 & ln2 & s2 & -> & Hl2 & Hc2 & Hy2 & Hln2 & Hs2 & Hx2).
  { intros l Hl. apply list_elem_of_lookup in Hl as [i Hi].
    apply list_lookup_insert_Some in Hi as [(_ & <- & _)|[_ Hi]]; [by eexists|].
    apply Ht. apply list_elem_of_lookup. eauto. }
  { simpl. unfold ls. rewrite length_insert. lia. }
  cbn [mbind option_bind].
  rewrite (setbuf_lookup _ _ b1) by done. cbn [mbind option_bind].
  rewrite setbuf_setbuf.
  assert (Htarget : mmove_target b1 (-1) = k).
  { unfold mmove_target. rewrite decide_True by lia. simpl. lia. }
  rewrite Htarget in Hc2, Hln2. rewrite Hc2 in Hy2.
  assert (ln2 = joined) as ->.
  { simpl in Hln2. unfold ls in Hln2.
    rewrite list_lookup_insert_eq in Hln2 by lia. congruence. }
  assert (s2 = sp ++ s) as -> by congruence.
  eexists _, _. split; [reflexivity|]. split.
  { by apply (setbuf_lookup _ _ b1). }
  split.
  { unfold strings_of. cbn [Buffer.lines set_lines set_curline].
    rewrite Hl2. unfold mfreeln. simpl. unfold ls.
    rewrite delete_after_insert by done.
    rewrite fmap_app, fmap_cons, fmap_take, fmap_drop. by rewrite Hj. }
  split; [done|]. split; [|split; [|done]].
  - change (cur_x b2 = Z.of_nat (length sp)). rewrite Hx2.
    change (cur_x b1) with (cur_x b). rewrite Hx, length_app.
    unfold max, min. repeat case_decide; lia.
  - change (cur_y b2 = cur_y b - 1).
    change (cur_y b1) with (cur_y b) in Hy2.
    change (Buffer.curline b1) with (Buffer.curline b) in Hy2.
    rewrite Hcur in Hy2. lia.
Qed.

(** X12. Backspace at column 0 of a line that has a line before it
    joins the two, when they fit the array of the first: that line
    becomes its string followed by the string of the current line, the
    current line is released, the other lines are as they were, and the
    cursor is at the seam, one row up. *)
Theorem minsert_backspace_joins (cfg : Config.t) (iswspace : Z → bool)
    (runcmd : Editor.t → list Z → option Editor.t)
    (e : Editor.t) (p : nat) (b : Buffer.t) (k : nat) (lp ln : Line.t)
    (sp s : list Z) :
  Editor.bufs e !! p = Some b →
  terminated b →
  Buffer.curline b = S k →
  Buffer.lines b !! k = Some lp →
  Buffer.lines b !! S k = Some ln →
  wcs (Line.data lp) = Some sp →
  wcs (Line.data ln) = Some s →
  cur_x b = 0 →
  Z.of_nat (length sp) + Z.of_nat (length s) + 1
    ≤ Z.of_nat (length (Line.data lp)) →
  ∃ e' b',
    minsert cfg iswspace runcmd e (Some p) KEY_BACKSPACE = Some e'
    ∧ Editor.bufs e' !! p = Some b'
    ∧ strings_of b'
      = take k (strings_of b) ++ Some (sp ++ s) :: drop (S (S k)) (strings_of b)
    ∧ Buffer.curline b' = k
    ∧ cur_x b' = Z.of_nat (length sp)
    ∧ cur_y b' = cur_y b - 1.
Proof.
  intros Hb Ht Hcur Hlp Hln Hsp Hs Hx Hcap.
  destruct (backspace_join cfg iswspace runcmd e p b k lp ln sp s)
    as (e' & b' & ? & ? & ? & ? & ? & ? & _); try done.
  by exists e', b'.
Qed.

Lemma drop_two_after {A} (l1 l2 : list A) (a b : A) (n : nat) :
  length l1 = n → drop (S (S n)) (l1 ++ a :: b :: l2) = l2.
Proof. intros <-. induction l1; simpl; done. Qed.

(** X13. Without auto-indent, a newline and then Backspace leave the
    strings of all lines, the current line, the column and the row as
    they were: both keys run, and the join undoes the split. *)
Theorem newline_then_backspace (cfg : Config.t) (iswspace : Z → bool)
    (runcmd : Editor.t → list Z → option Editor.t)
    (e : Editor.t) (p : nat) (b : Buffer.t) (ln : Line.t) (s : list Z) :
  Config.auto_indent cfg = false →
  Editor.mode e ≠ MODE_COMMAND →
  Editor.curbuf e = Some p →
  Editor.bufs e !! p = Some b →
  terminated b →
  Buffer.lines b !! Buffer.curline b = Some ln →
  wcs (Line.data ln) = Some s →
  0 ≤ cur_x b ≤ Z.of_nat (length s) →
  cur_x b + Z.of_nat (length s) + 1 ≤ Z.of_nat (length (Line.data ln)) →
  Z.of_nat (length s) + 1 ≤ new_line_capacity cfg →
  ∃ e1 e2 b2,
    minsert cfg iswspace runcmd e (Some p) NEWLINE = Some e1
    ∧ minsert cfg iswspace runcmd e1 (Some p) KEY_BACKSPACE = Some e2
    ∧ Editor.bufs e2 !! p = Some b2
    ∧ strings_of b2 = strings_of b
    ∧ Buffer.curline b2 = Buffer.curline b
    ∧ cur_x b2 = cur_x b
    ∧ cur_y b2 = cur_y b.
Proof.
  intros Hai Hmode Hcur Hb Ht Hln Hs Hx Hcap Hnew.
  pose proof (lookup_lt_Some _ _ _ Hln) as Hlt.
  destruct (newline_split cfg iswspace runcmd e p b ln s)
    as (e1 & b1 & He1 & Hb1 & Hstr1 & Hc1 & Hx1 & Hy1 & Ht1
        & (old & new & Hold & Hnew' & Hso & Hsn & Hcapo) & _ & _); try done.
  set (idx := Z.to_nat (cur_x b)) in *.
  assert (Hidx : (idx ≤ length s)%nat) by lia.
  destruct (backspace_join cfg iswspace runcmd e1 p b1 (Buffer.curline b)
              old new (take idx s) (drop idx s))
    as (e2 & b2 & He2 & Hb2 & Hstr2 & Hc2 & Hx2 & Hy2 & _); try done.
  { rewrite length_take, length_drop. lia. }
  exists e1, e2, b2. split_and!; try done.
  - rewrite Hstr2, Hstr1. rewrite take_drop.
    assert (Hlen : length (take (Buffer.curline b) (strings_of b))
                   = Buffer.curline b).
    { rewrite length_take. unfold strings_of. rewrite length_fmap. lia. }
    rewrite take_app_length' by done.
    rewrite drop_two_after by done.
    rewrite <- (take_drop_middle (strings_of b) (Buffer.curline b) (Some s)) at 3;
      [done|].
    unfold strings_of. rewrite list_lookup_fmap, Hln. simpl. by rewrite Hs.
  - rewrite Hx2, length_take. lia.
  - lia.
Qed.


(** ** Files *)

Lemma fgetws_chars_record (n : nat) (s rest : list Z) :
  NEWLINE ∉ s → (length s < n)%nat →
  fgetws_chars n (s ++ NEWLINE :: rest) = (s ++ [NEWLINE], rest).
Proof.
  revert n. induction s as [|ch s IH]; intros n Hnl Hn.
  - destruct n; [simpl in Hn; lia|]. done.
  - destruct n; [simpl in Hn; lia|]. simpl.
    apply not_elem_of_cons in Hnl as [Hne Hnl].
    rewrite decide_False by done.
    rewrite IH; [done|done|simpl in Hn; lia].
Qed.

Lemma fgetws_chars_tail (n : nat) (s : list Z) :
  NEWLINE ∉ s → (length s ≤ n)%nat →
  fgetws_chars n s = (s, []).
Proof.
  revert n. induction s as [|ch s IH]; intros n Hnl Hn.
  - by destruct n.
  - destruct n; [simpl in Hn; lia|]. simpl.
    apply not_elem_of_cons in Hnl as [Hne Hnl].
    rewrite decide_False by done.
    rewrite IH; [done|done|simpl in Hn; lia].
Qed.

(** The array after a record [rec] of [fgetws] is copied in and its last
    character is overwritten. *)
Lemma record_stored (dls : Z) (dst rec : list Z) :
  0 < dls → dls ≤ Z.of_nat (length dst) →
  rec ≠ [] → Z.of_nat (length rec) < dls → 0 ∉ rec →
  ∃ d d', wcsncpy dst rec dls = Some d
          ∧ store d (Z.of_nat (length rec) - 1) 0 = Some d'
          ∧ wcs d' = Some (removelast rec)
          ∧ length d' = length dst.
Proof.
  intros Hdls Hdst Hne Hlen Hz. unfold wcsncpy.
  set (src := take (Z.to_nat dls) (rec ++ replicate (Z.to_nat dls) 0)).
  assert (Hsrc : length src = Z.to_nat dls).
  { unfold src. rewrite length_take, length_app, length_replicate. lia. }
  destruct (memcpy_is_Some dst src 0 0 dls) as [d Hd]; try lia.
  exists d. rewrite Hd.
  apply memcpy_Some in Hd as (_ & Hlend & Hlk).
  assert (Hrec : (0 < length rec)%nat) by (destruct rec; [done|simpl; lia]).
  unfold store. rewrite decide_True by lia.
  eexists. split; [done|]. split; [done|]. split; [|by rewrite length_insert].
  assert (Hrl : length (removelast rec) = (length rec - 1)%nat).
  { destruct (exists_last Hne) as (r & a & ->).
    rewrite removelast_last, length_app. simpl. lia. }
  assert (Hrlk : ∀ i, (i < length rec - 1)%nat → removelast rec !! i = rec !! i).
  { intros i Hi. destruct (exists_last Hne) as (r & a & ->).
    rewrite removelast_last. rewrite length_app in Hi. simpl in Hi.
    by rewrite lookup_app_l by lia. }
  apply wcs_intro.
  - intros i Hi. rewrite Hrl in Hi.
    rewrite list_lookup_insert_ne by lia. rewrite Hlk.
    rewrite decide_True by lia. rewrite Hrlk by done.
    unfold src. replace (Z.to_nat 0 + (i - Z.to_nat 0))%nat with i by lia.
    rewrite lookup_take_lt by lia. by rewrite lookup_app_l by lia.
  - intros i Hi. destruct (decide (i < length rec - 1)%nat).
    + rewrite Hrlk in Hi by done. apply Hz. apply list_elem_of_lookup. eauto.
    + apply lookup_lt_Some in Hi. lia.
  - rewrite Hrl. replace (Z.to_nat (Z.of_nat (length rec) - 1))
      with (length rec - 1)%nat by lia.
    apply list_lookup_insert_eq. lia.
Qed.

(** The string of a record. *)
Lemma upto_nul_id (l : list Z) : 0 ∉ l → upto_nul l = l.
Proof.
  induction l as [|ch r IH]; [done|]. intros Hz.
  apply not_elem_of_cons in Hz as [Hne Hz]. simpl.
  rewrite decide_False by done. by rewrite IH.
Qed.

Lemma upto_nul_no_zero (l : list Z) : 0 ∉ upto_nul l.
Proof.
  induction l as [|ch r IH]; simpl; [apply not_elem_of_nil|].
  case_decide; [apply not_elem_of_nil|].
  apply not_elem_of_cons. split; [congruence|done].
Qed.

Lemma length_upto_nul (l : list Z) : (length (upto_nul l) ≤ length l)%nat.
Proof.
  induction l as [|ch r IH]; simpl; [done|]. case_decide; simpl; lia.
Qed.

Lemma upto_nul_nonempty (l : list Z) (ch : Z) :
  head l = Some ch → ch ≠ 0 → upto_nul l ≠ [].
Proof.
  destruct l as [|c r]; [done|]. intros [= ->] Hne. simpl.
  by rewrite decide_False.
Qed.

Lemma fgetws_record (dls : Z) (s rest : list Z) :
  NEWLINE ∉ s → Z.of_nat (length s) + 2 ≤ dls →
  fgetws dls (s ++ NEWLINE :: rest) = Some (s ++ [NEWLINE], rest).
Proof.
  intros Hnl Hlen. unfold fgetws.
  rewrite fgetws_chars_record by (done || lia).
  by destruct s.
Qed.

Lemma text_of_cons (s : list Z) (recs : list (list Z)) :
  text_of (s :: recs) = s ++ NEWLINE :: text_of recs.
Proof. unfold text_of. simpl. by rewrite <- app_assoc. Qed.

(** The loop of [mreadbuf] on the text of short records. *)
Lemma mreadbuf_loop_records (cfg : Config.t) (recs : list (list Z))
    (fuel : nat) (done : list Line.t) (ln : Line.t) :
  (length (text_of recs) ≤ fuel)%nat →
  0 < Config.default_linebuf_size cfg →
  Config.default_linebuf_size cfg ≤ Z.of_nat (length (Line.data ln)) →
  Forall (short_record cfg) recs →
  ∃ ls,
    mreadbuf_loop cfg fuel (text_of recs) done ln = Some (reverse done ++ ls)
    ∧ (λ l, wcs (Line.data l)) <$> ls
      = (Some <$> recs)
        ++ [match recs with
            | [] => wcs (Line.data ln)
            | _ => Some []
            end].
Proof.
  intros Hfuel Hdls. revert fuel done ln Hfuel.
  induction recs as [|s recs IH]; intros fuel done ln Hfuel Hcap Hrecs.
  - exists [ln]. split; [|done].
    destruct fuel; simpl; [by rewrite reverse_cons|].
    unfold fgetws. destruct (Z.to_nat _); simpl; by rewrite reverse_cons.
  - apply Forall_cons in Hrecs as [(Hnl & Hz & Hlen) Hrecs].
    rewrite text_of_cons in *.
    destruct fuel as [|fuel]; [rewrite length_app in Hfuel; simpl in Hfuel; lia|].
    cbn [mreadbuf_loop]. rewrite fgetws_record by done.
    assert (Hzr : 0 ∉ s ++ [NEWLINE]).
    { intros Hin. apply elem_of_app in Hin as [Hin|Hin]; [done|].
      by apply list_elem_of_singleton in Hin. }
    cbv zeta. rewrite (upto_nul_id _ Hzr).
    destruct (record_stored (Config.default_linebuf_size cfg) (Line.data ln)
                (s ++ [NEWLINE])) as (d & d' & -> & Hst & Hd' & Hlen');
      try done.
    { by destruct s. }
    { rewrite length_app. simpl. lia. }
    cbn [mbind option_bind]. rewrite Hst. cbn [mbind option_bind].
    rewrite removelast_last in Hd'.
    set (fresh := Line.mk 0 (zeros (Config.default_linebuf_size cfg))).
    set (ln' := Line.mk (Config.default_linebuf_size cfg) d').
    destruct (IH fuel (ln' :: done) fresh) as (ls & -> & Hls).
    { rewrite length_app in Hfuel. simpl in Hfuel. lia. }
    { simpl. rewrite length_zeros. lia. }
    { done. }
    exists (ln' :: ls). split.
    { by rewrite reverse_cons, <- app_assoc. }
    rewrite fmap_cons, Hls. cbn [Line.data ln'] . rewrite Hd'.
    rewrite fmap_cons. cbn [app]. do 2 f_equal.
    destruct recs; [|done]. simpl. by rewrite wcs_zeros.
Qed.

Lemma save_lines_text (ls : list Line.t) (ss : list (list Z)) :
  (λ l, wcs (Line.data l)) <$> ls = Some <$> ss →
  save_lines ls = Some (text_of ss).
Proof.
  revert ss. induction ls as [|ln ls IH]; intros [|s ss] H; try done.
  rewrite !fmap_cons in H. injection H as Hs H.
  rewrite text_of_cons. cbn [save_lines]. rewrite Hs.
  cbn [mbind option_bind]. by rewrite (IH ss H).
Qed.

(** What [mreadbuf] makes of a buffer fresh from [mnewbuf] and a stream. *)
Lemma mreadbuf_text (cfg : Config.t) (e : Editor.t) (p : nat) (b : Buffer.t)
    (ln : Line.t) (path : string) (recs : list (list Z)) :
  Editor.bufs e !! p = Some b →
  Buffer.lines b = [ln] →
  Buffer.curline b = 0%nat →
  0 < Config.default_linebuf_size cfg →
  Config.default_linebuf_size cfg ≤ Z.of_nat (length (Line.data ln)) →
  open_read e path = Some (text_of recs) →
  recs ≠ [] →
  Forall (short_record cfg) recs →
  ∃ e' b',
    mreadbuf cfg e (Some p) path = Some (e', 1)
    ∧ Editor.bufs e' !! p = Some b'
    ∧ strings_of b' = (Some <$> recs) ++ [Some []]
    ∧ Buffer.path b' = Some path
    ∧ Editor.curbuf e' = Editor.curbuf e
    ∧ length (Editor.bufs e') = length (Editor.bufs e).
Proof.
  intros Hb Hls Hcur Hdls Hcap Hopen Hne Hrecs.
  unfold mreadbuf. cbn [mbind option_bind]. rewrite Hb.
  cbn [mbind option_bind]. rewrite Hopen.
  destruct recs as [|s recs]; [done|].
  pose proof Hrecs as Hrecs'.
  apply Forall_cons in Hrecs' as [(Hnl & Hz & Hlen) _].
  assert (Hfg : fgetws (Config.default_linebuf_size cfg) (text_of (s :: recs))
                = Some (s ++ [NEWLINE], text_of recs)).
  { rewrite text_of_cons. by apply fgetws_record. }
  rewrite Hfg.
  rewrite Hls. cbn [head mbind option_bind]. rewrite Hcur.
  rewrite option_guard_True by done. cbn [mbind option_bind].
  destruct (mreadbuf_loop_records cfg (s :: recs)
              (length (text_of (s :: recs))) [] ln) as (ls & -> & Hstr);
    try done.
  cbn [mbind option_bind].
  eexists _, _. split; [reflexivity|].
  split.
  { case_decide; by apply (setbuf_lookup _ _ b). }
  split; [exact Hstr|]. split; [done|].
  split; [by case_decide|].
  case_decide; unfold setbuf; simpl; by rewrite length_insert.
Qed.

(** X14. Loading a file of [N] short records, each ending in a newline,
    into a buffer fresh from [mnewbuf] gives [N + 1] lines: the records
    without their newlines, and an empty line after them. *)
Theorem mreadbuf_records (cfg : Config.t) (e : Editor.t) (p : nat)
    (b : Buffer.t) (ln : Line.t) (path : string) (recs : list (list Z)) :
  Editor.bufs e !! p = Some b →
  Buffer.lines b = [ln] →
  Buffer.curline b = 0%nat →
  0 < Config.default_linebuf_size cfg →
  Config.default_linebuf_size cfg ≤ Z.of_nat (length (Line.data ln)) →
  open_read e path = Some (text_of recs) →
  recs ≠ [] →
  Forall (short_record cfg) recs →
  ∃ e' b',
    mreadbuf cfg e (Some p) path = Some (e', 1)
    ∧ Editor.bufs e' !! p = Some b'
    ∧ strings_of b' = (Some <$> recs) ++ [Some []]
    ∧ mnumlines e' (Some p) = Z.of_nat (length recs) + 1.
Proof.
  intros Hb Hls Hcur Hdls Hcap Hopen Hne Hrecs.
  destruct (mreadbuf_text cfg e p b ln path recs)
    as (e' & b' & He' & Hb' & Hstr & _); try done.
  exists e', b'. split_and!; try done.
  unfold mnumlines. simpl. rewrite Hb'.
  apply (f_equal length) in Hstr. unfold strings_of in Hstr.
  rewrite length_fmap, length_app, length_fmap in Hstr. simpl in Hstr. lia.
Qed.

(** X15. [mreadbuf] overwrites the last character of the string of
    every record it reads, newline or not. A stream that is one record
    without a newline (not empty, its first character not 0, at most
    [default_linebuf_size - 1] characters) is loaded as the characters of
    the record before its first 0 (all of them when it has none) without
    the last of these, followed by one empty line. *)
Theorem mreadbuf_unterminated (cfg : Config.t) (e : Editor.t) (p : nat)
    (b : Buffer.t) (ln : Line.t) (path : string) (s : list Z) (c : Z) :
  Editor.bufs e !! p = Some b →
  Buffer.lines b = [ln] →
  Buffer.curline b = 0%nat →
  Config.default_linebuf_size cfg ≤ Z.of_nat (length (Line.data ln)) →
  open_read e path = Some s →
  head s = Some c → c ≠ 0 → NEWLINE ∉ s →
  Z.of_nat (length s) + 1 ≤ Config.default_linebuf_size cfg →
  ∃ e' b',
    mreadbuf cfg e (Some p) path = Some (e', 1)
    ∧ Editor.bufs e' !! p = Some b'
    ∧ strings_of b' = [Some (removelast (upto_nul s)); Some []]
    ∧ (0 ∉ s → upto_nul s = s).
Proof.
  intros Hb Hls Hcur Hcap Hopen Hhead Hc Hnl Hlen.
  assert (Hfg : fgetws (Config.default_linebuf_size cfg) s = Some (s, [])).
  { unfold fgetws. rewrite fgetws_chars_tail by (done || lia). by destruct s. }
  unfold mreadbuf. cbn [mbind option_bind]. rewrite Hb.
  cbn [mbind option_bind]. rewrite Hopen, Hfg.
  rewrite Hls. cbn [head mbind option_bind]. rewrite Hcur.
  rewrite option_guard_True by done. cbn [mbind option_bind].
  pose proof (upto_nul_nonempty s c Hhead Hc) as Hne.
  pose proof (length_upto_nul s) as Hle.
  assert (Hfuel : ∃ k, length s = S k) by (destruct s; [done|by eexists]).
  destruct Hfuel as [k ->].
  cbn [mreadbuf_loop]. rewrite Hfg. cbv zeta.
  destruct (record_stored (Config.default_linebuf_size cfg) (Line.data ln)
              (upto_nul s))
    as (d & d' & -> & Hst & Hd' & Hlen'); try done; try lia.
  { apply upto_nul_no_zero. }
  cbn [mbind option_bind]. rewrite Hst. cbn [mbind option_bind].
  assert (Hend : ∀ fuel dn l,
            mreadbuf_loop cfg fuel [] dn l = Some (reverse (l :: dn))).
  { intros [|fuel] dn l; [done|]. simpl. unfold fgetws.
    by destruct (Z.to_nat _). }
  rewrite Hend. cbn [mbind option_bind].
  eexists _, _. split; [reflexivity|]. split.
  { case_decide; by apply (setbuf_lookup _ _ b). }
  split; [|apply upto_nul_id].
  unfold strings_of. cbn [Buffer.lines set_path set_lines].
  rewrite !reverse_cons, reverse_nil. simpl. rewrite Hd'.
  rewrite wcs_zeros by lia. done.
Qed.

(** The files after the backup [save] makes first. *)
Lemma save_files (cfg : Config.t) (e : Editor.t) (ac : Action.t) (p : nat)
    (b : Buffer.t) (v : option string) (path : string) (ss : list (list Z)) :
  Action.arg ac = ArgV v →
  Editor.curbuf e = Some p →
  Editor.bufs e !! p = Some b →
  strings_of b = Some <$> ss →
  from_option Some (Buffer.path b) v = Some path →
  path ∉ Files.unwritable (Editor.files e) →
  ∃ f,
    save cfg e ac = Some (set_files (write_file f path (text_of ss)) e).
Proof.
  intros Harg Hcur Hb Hstr Hdst Hw.
  unfold save. rewrite Harg. cbn [arg_v mbind option_bind].
  unfold getbuf. rewrite Hcur. cbn [mbind option_bind]. rewrite Hb.
  assert (Hback : ∀ (q : option string) (o : option Files.t),
    o = (if Config.backup_on_write cfg
         then match open_write (Editor.files e) (Config.backup_path cfg) with
              | Some f1 =>
                  match q ≫= (λ p, Files.content f1 !! p) with
                  | Some src => Some (write_file f1 (Config.backup_path cfg) src)
                  | None => Some f1
                  end
              | None => Some (Editor.files e)
              end
         else Some (Editor.files e)) →
    ∃ f, o = Some f ∧ Files.unwritable f = Files.unwritable (Editor.files e)).
  { intros q o ->. destruct (Config.backup_on_write cfg); [|by eexists].
    unfold open_write. case_decide; [by eexists|].
    destruct (q ≫= _); by eexists. }
  destruct v as [a|]; cbn [from_option] in Hdst.
  - injection Hdst as ->. cbn [mbind option_bind].
    destruct (Hback (Buffer.path b) _ eq_refl) as (f & -> & Hun).
    cbn [mbind option_bind].
    unfold open_write. rewrite decide_False by (by rewrite Hun).
    cbn [mbind option_bind].
    rewrite (save_lines_text _ ss Hstr). cbn [mbind option_bind default].
    eexists. reflexivity.
  - cbn [mbind option_bind].
    replace (bool_decide (Buffer.path b = None)) with false
      by (symmetry; apply bool_decide_false; congruence).
    destruct (Hback (Buffer.path b) _ eq_refl) as (f & -> & Hun).
    cbn [mbind option_bind]. rewrite Hdst. cbn [mbind option_bind].
    unfold open_write. rewrite decide_False by (by rewrite Hun).
    cbn [mbind option_bind].
    rewrite (save_lines_text _ ss Hstr). cbn [mbind option_bind default].
    eexists. reflexivity.
Qed.


(** X17. A [save] that has no name to write to, or cannot open the file,
    says nothing and changes nothing. *)
Theorem save_without_effect (cfg : Config.t) (e : Editor.t) (ac : Action.t)
    (p : nat) (b : Buffer.t) (v : option string) :
  Action.arg ac = ArgV v →
  Editor.curbuf e = Some p →
  Editor.bufs e !! p = Some b →
  (v = None ∧ Buffer.path b = None)
  ∨ (Config.backup_on_write cfg = false
     ∧ ∃ path, from_option Some (Buffer.path b) v = Some path
               ∧ path ∈ Files.unwritable (Editor.files e)) →
  save cfg e ac = Some e.
Proof.
  intros Harg Hcur Hb Hcase.
  unfold save. rewrite Harg. cbn [arg_v mbind option_bind].
  unfold getbuf. rewrite Hcur. cbn [mbind option_bind]. rewrite Hb.
  destruct Hcase as [[-> Hnone]|(Hbk & path & Hdst & Hw)].
  - cbn [mbind option_bind]. by rewrite bool_decide_true.
  - rewrite Hbk. destruct v as [a|]; cbn [from_option] in Hdst.
    + injection Hdst as ->. cbn [mbind option_bind].
      unfold open_write. rewrite decide_True by done. by destruct e.
    + cbn [mbind option_bind].
      replace (bool_decide (Buffer.path b = None)) with false
        by (symmetry; apply bool_decide_false; congruence).
      rewrite Hdst. cbn [mbind option_bind].
      unfold open_write. rewrite decide_True by done. by destruct e.
Qed.



(** ** What a command line invokes *)

Lemma findchr_from_bounds (s : list Z) (i ch : Z) :
  findchr_from s i ch = -1 ∨ i ≤ findchr_from s i ch < i + Z.of_nat (length s).
Proof.
  revert i. induction s as [|c s IH]; intros i; simpl; [by left|].
  case_decide; [right; lia|].
  destruct (IH (i + 1)) as [->|?]; [by left|right; lia].
Qed.

Lemma token_length_bounds (cmd : list Z) :
  0 ≤ token_length cmd ≤ Z.of_nat (length cmd).
Proof.
  unfold token_length.
  change (findchr cmd 0 SPACE) with (findchr_from cmd 0 SPACE).
  destruct (findchr_from_bounds cmd 0 SPACE) as [->|?].
  - rewrite decide_True by lia. lia.
  - case_decide; lia.
Qed.

Lemma expected_calls_nil (cfg : Config.t) (wcsrtombs : list Z → string)
    (out : string → option string) (k : Z) (cmd : list Z) :
  Z.min k (Config.max_cmd_repetition cfg) ≤ 0 →
  expected_calls cfg wcsrtombs out k cmd = [].
Proof.
  intros Hk. unfold expected_calls.
  induction (Config.buffer_actions cfg) as [|entry table IH]; [done|].
  simpl. rewrite IH.
  replace (Z.to_nat _) with 0%nat by lia. by destruct (cmd_matches _ _ _).
Qed.

(** X19. A count that is negative, or a maximum that is not positive,
    and nothing is invoked. *)
Theorem nothing_invoked (cfg : Config.t) (iswspace : Z → bool)
    (wcsrtombs : list Z → string) (out : string → option string)
    (buf : list Z) :
  (parse_count iswspace buf).1 < 0 ∨ Config.max_cmd_repetition cfg ≤ 0 →
  invocations cfg iswspace wcsrtombs out buf = []
  ∧ ∀ (St : Type) (call : Action.t → St → St) (ac : Action.t) (s : St),
      mrepeat cfg call ac (parse_count iswspace buf).1 s = s.
Proof.
  intros Hk. split.
  - rewrite invocations_expected. apply expected_calls_nil. lia.
  - intros St call ac s. rewrite mrepeat_iter.
    by replace (Z.to_nat _) with 0%nat by lia.
Qed.

(** A command token is matched as a prefix of the name of an entry. *)
Lemma wcsncmp_eq_prefix (name cmd : list Z) :
  wcsncmp_eq name cmd (Z.of_nat (length cmd)) = true ↔ cmd `prefix_of` name.
Proof.
  unfold wcsncmp_eq. rewrite bool_decide_eq_true, Nat2Z.id.
  rewrite firstn_all. split.
  - intros <-. apply prefix_take.
  - intros [r ->]. by rewrite take_app_length.
Qed.

(** X20. A command token without an argument invokes the entries whose
    name it is a prefix of, and, when it is one character, also the named
    entries bound to that key. *)
Theorem cmd_matches_prefix (cmd : list Z) (entry : Action.t) :
  token_length cmd = Z.of_nat (length cmd) →
  cmd_matches cmd (token_length cmd) entry = true
  ↔ ∃ name, Action.cmd entry = Some name
            ∧ (cmd `prefix_of` name ∨ cmd = [Action.key entry]).
Proof.
  intros Hlen. unfold cmd_matches. rewrite Hlen.
  destruct (Action.cmd entry) as [name|]; [|split; [done|by intros (? & ? & _)]].
  rewrite orb_true_iff, bool_decide_eq_true, wcsncmp_eq_prefix.
  split.
  - intros [[Hone Hkey]|Hpre]; exists name; (split; [done|]); [right|by left].
    destruct cmd as [|c [|c' cmd']]; simpl in *; try lia. congruence.
  - intros (name' & [= <-] & [Hpre|Hkey]); [by right|left].
    rewrite Hkey. done.
Qed.

(** With no command token, every named entry matches. *)
Lemma cmd_matches_empty (cmd : list Z) (entry : Action.t) :
  token_length cmd = 0 →
  cmd_matches cmd (token_length cmd) entry
  = bool_decide (is_Some (Action.cmd entry)).
Proof.
  intros Hlen. unfold cmd_matches. rewrite Hlen.
  destruct (Action.cmd entry) as [name|].
  - rewrite (bool_decide_true (is_Some _)) by eauto.
    unfold wcsncmp_eq. change (Z.to_nat 0) with 0%nat. rewrite !take_0.
    rewrite (bool_decide_true ([] = [])) by done. apply orb_true_r.
  - symmetry. apply bool_decide_false. by intros [? ?].
Qed.

(** X21. An empty command line invokes every named entry of the table,
    once each, in the order of the table. *)
Theorem empty_command_invokes_all (cfg : Config.t) (iswspace : Z → bool)
    (wcsrtombs : list Z → string) (out : string → option string) :
  1 ≤ Config.max_cmd_repetition cfg →
  invocations cfg iswspace wcsrtombs out [] = named cfg.
Proof.
  intros Hmax. rewrite invocations_expected.
  rewrite parse_count_absent by (by intros ch).
  unfold expected_calls, named. simpl.
  induction (Config.buffer_actions cfg) as [|entry table IH]; [done|].
  simpl. rewrite IH. rewrite filter_cons.
  rewrite (cmd_matches_empty [] entry) by done.
  replace (Z.to_nat (Z.min 1 (Config.max_cmd_repetition cfg))) with 1%nat by lia.
  case_bool_decide; by case_decide.
Qed.

(** The step of the loop of [mruncmd] on the editor. *)
Lemma mruncmd_state_unfold (cfg : Config.t) (iswspace : Z → bool)
    (wcsrtombs : list Z → string)
    (call : Action.t → Editor.t → option Editor.t)
    (shell : string → Files.t → option string * Files.t)
    (buf : list Z) (s : option Editor.t) :
  ∃ step : option Editor.t → Action.t → option Editor.t,
    mruncmd_state cfg iswspace wcsrtombs call shell buf s
    = foldl step s (Config.buffer_actions cfg)
    ∧ ∀ st entry,
        (cmd_matches (parse_count iswspace buf).2
           (token_length (parse_count iswspace buf).2) entry = true →
         ∃ st', step st entry = set_mode MODE_COMMAND <$> st')
        ∧ (cmd_matches (parse_count iswspace buf).2
             (token_length (parse_count iswspace buf).2) entry = false →
           step st entry = st).
Proof.
  unfold mruncmd_state, mruncmd, token_length.
  destruct (parse_count iswspace buf) as [cnt cmd]. cbn [fst snd].
  eexists. split; [reflexivity|].
  intros st entry. cbv beta. split; intros ->; [|done].
  destruct (if decide (_ > _) then _ else _) as [[|a sh]|].
  - by eexists.
  - destruct a as [[] [] [] [] [] [] [] []]; try (by eexists).
    destruct (mexec shell sh st). by eexists.
  - by eexists.
Qed.

(** X22. After a command line that names an entry of the table the
    editor is in Command mode, whatever the entry did; a command line that
    names none changes nothing. *)
Theorem mruncmd_mode (cfg : Config.t) (iswspace : Z → bool)
    (wcsrtombs : list Z → string)
    (call : Action.t → Editor.t → option Editor.t)
    (shell : string → Files.t → option string * Files.t)
    (buf : list Z) (e : Editor.t) :
  (∀ e', mruncmd_state cfg iswspace wcsrtombs call shell buf (Some e) = Some e' →
         (∃ entry, entry ∈ Config.buffer_actions cfg
                   ∧ cmd_matches (parse_count iswspace buf).2
                       (token_length (parse_count iswspace buf).2) entry = true) →
         Editor.mode e' = MODE_COMMAND)
  ∧ ((∀ entry, entry ∈ Config.buffer_actions cfg →
               cmd_matches (parse_count iswspace buf).2
                 (token_length (parse_count iswspace buf).2) entry = false) →
     mruncmd_state cfg iswspace wcsrtombs call shell buf (Some e) = Some e).
Proof.
  destruct (mruncmd_state_unfold cfg iswspace wcsrtombs call shell buf (Some e))
    as (step & -> & Hstep).
  generalize (Some e) as s.
  induction (Config.buffer_actions cfg) as [|x table IH] using rev_ind;
    intros s.
  - split; [|done]. intros e' _ (entry & Hin & _). by apply elem_of_nil in Hin.
  - rewrite foldl_app. cbn [foldl]. split.
    + intros e' He' (entry & Hin & Hm).
      destruct (cmd_matches (parse_count iswspace buf).2
                  (token_length (parse_count iswspace buf).2) x) eqn:Hx.
      * destruct (proj1 (Hstep (foldl step s table) x) Hx) as [st' Hst'].
        rewrite Hst' in He'. destruct st' as [e''|]; [|done].
        injection He' as <-. done.
      * rewrite (proj2 (Hstep _ x) Hx) in He'.
        apply (proj1 (IH s) e' He').
        apply elem_of_app in Hin as [Hin|Hin]; [by exists entry|].
        apply list_elem_of_singleton in Hin. subst entry. congruence.
    + intros Hnone.
      rewrite (proj2 (Hstep _ x)).
      * apply (proj2 (IH s)). intros entry Hin. apply Hnone.
        apply elem_of_app. by left.
      * apply Hnone. apply elem_of_app. right. by apply list_elem_of_singleton.
Qed.


(** ** The main loop, and the actions on lines and buffers *)

(** X23. A digit typed in Normal mode extends the repetition count,
    which never goes beyond the maximum; a [0] with no count before it
    is not a digit of a count. *)
Theorem handle_key_digit (cfg : Config.t) (iswspace : Z → bool)
    (wcsrtombs : list Z → string) (regcomp : string → bool)
    (regexec : string → string → bool)
    (getmouse : Editor.t → option (Z * Z))
    (shell : string → Files.t → option string * Files.t)
    (fuel : nat) (e : Editor.t) (key : Z) :
  Editor.exited e = false →
  Editor.mode e = MODE_NORMAL →
  48 ≤ key ≤ 57 →
  key ≠ Config.ESC cfg →
  ¬ (key = 48 ∧ Editor.repcnt e = 0) →
  handle_key cfg iswspace wcsrtombs regcomp regexec getmouse shell fuel e key
  = Some (set_repcnt
            (Z.min (10 * Editor.repcnt e + (key - 48))
               (Config.max_cmd_repetition cfg)) e).
Proof.
  intros Hex Hmode Hkey Hesc Hzero. unfold handle_key.
  rewrite Hex, Hmode. rewrite (decide_False (P := key = ERR)) by (unfold ERR; lia).
  rewrite decide_False by (unfold NEWLINE; lia).
  rewrite to_int_small by (unfold INT_MAX; lia). unfold isdigit, is_digit.
  rewrite decide_True by lia. cbn [mbind option_bind].
  rewrite bool_decide_true by done.
  rewrite bool_decide_false by done. simpl. by rewrite min_spec.
Qed.

(** X24. The escape key leaves Insert, Select and Command mode for Normal
    mode, and changes nothing else. The loop hands no key to the modes
    when [get_wch] leaves [ERR] in it: an escape key configured as that
    value changes nothing at all. *)
Theorem handle_key_escape (cfg : Config.t) (iswspace : Z → bool)
    (wcsrtombs : list Z → string) (regcomp : string → bool)
    (regexec : string → string → bool)
    (getmouse : Editor.t → option (Z * Z))
    (shell : string → Files.t → option string * Files.t)
    (fuel : nat) (e : Editor.t) :
  Editor.exited e = false →
  Editor.mode e ≠ MODE_NORMAL →
  handle_key cfg iswspace wcsrtombs regcomp regexec getmouse shell fuel e
    (Config.ESC cfg)
  = Some (if decide (Config.ESC cfg = ERR) then e else set_mode MODE_NORMAL e).
Proof.
  intros Hex Hmode. unfold handle_key. rewrite Hex.
  destruct (decide (Config.ESC cfg = ERR)) as [Herr|Herr]; [done|].
  destruct (Editor.mode e); [done|..]; by rewrite decide_True.
Qed.

(** X25. [freeln] releases the current line unless it is the only one;
    the line after it, or else the line before it, becomes the current
    line; the cursor keeps its column and its row. *)
Theorem freeln_deletes (e : Editor.t) (p : nat) (b : Buffer.t) :
  Editor.curbuf e = Some p →
  Editor.bufs e !! p = Some b →
  (Buffer.curline b < length (Buffer.lines b))%nat →
  (length (Buffer.lines b) = 1%nat → freeln e = Some e)
  ∧ ((2 ≤ length (Buffer.lines b))%nat →
     ∃ b',
       freeln e = Some (setbuf e p b')
       ∧ Buffer.lines b' = delete (Buffer.curline b) (Buffer.lines b)
       ∧ Buffer.curline b'
         = (Buffer.curline b `min` (length (Buffer.lines b) - 2))%nat
       ∧ Buffer.cursor b' = Buffer.cursor b).
Proof.
  intros Hcur Hb Hlt. unfold freeln. rewrite Hcur. simpl. rewrite Hb. simpl.
  destruct (lookup_lt_is_Some_2 _ _ Hlt) as [ln ->]. simpl.
  split.
  - intros Hone. rewrite decide_False by lia. by rewrite decide_False by lia.
  - intros Htwo. case_decide.
    + eexists. split; [done|]. simpl. split_and!; [done|lia|done].
    + rewrite decide_True by lia.
      eexists. split; [done|]. simpl. split_and!; [done|lia|done].
Qed.

(** X26. [coc] changes the scroll offset only, and puts the row of the
    cursor half a window below it, so within a window of one row or
    more. *)
Theorem coc_centers (e : Editor.t) (p : nat) (b : Buffer.t) :
  Editor.curbuf e = Some p →
  Editor.bufs e !! p = Some b →
  1 ≤ Editor.bufwin_row e →
  ∃ b',
    coc e = Some (setbuf e p b')
    ∧ b' = set_starty (cur_y b - Editor.bufwin_row e ÷ 2) b
    ∧ cur_y b' - cur_starty b' = Editor.bufwin_row e ÷ 2
    ∧ row_in_view e b'.
Proof.
  intros Hcur Hb Hrow. unfold coc. rewrite Hcur. simpl. rewrite Hb. simpl.
  eexists. split; [done|].
  replace (- (Editor.bufwin_row e ÷ 2 - cur_y b))
    with (cur_y b - Editor.bufwin_row e ÷ 2) by lia.
  split; [done|].
  assert (Hq : 0 ≤ Editor.bufwin_row e ÷ 2 < Editor.bufwin_row e).
  { split; [apply Z.quot_pos; lia|apply Z.quot_lt; lia]. }
  unfold row_in_view, cur_y, cur_starty. simpl.
  unfold cur_y in *. lia.
Qed.

(** X27. Closing the current buffer when no buffer follows it in the
    list leaves the editor without a current buffer; the list head is
    not updated; a motion, a line deletion or a centering after that is
    undefined. *)
Theorem bufdel_last (e : Editor.t) (ac mv : Action.t) (p : nat)
    (b : Buffer.t) :
  Action.arg ac = ArgI 0 →
  Editor.curbuf e = Some p →
  Editor.bufs e !! p = Some b →
  Buffer.next b = None →
  (∀ q, Buffer.prev b = Some q → is_Some (Editor.bufs e !! q)) →
  ∃ e',
    bufdel e ac = Some e'
    ∧ Editor.curbuf e' = None
    ∧ Editor.buflist e' = Editor.buflist e
    ∧ length (Editor.bufs e') = length (Editor.bufs e)
    ∧ (is_Some (arg_xy (Action.arg mv)) → motion e' mv = None)
    ∧ freeln e' = None
    ∧ coc e' = None.
Proof.
  intros Harg Hcur Hb Hnext Hprev.
  unfold bufdel. rewrite Harg. simpl. rewrite Hcur.
  unfold mfreebuf. rewrite Hb. simpl. rewrite Hnext.
  destruct (Buffer.prev b) as [q|] eqn:Hq.
  - destruct (Hprev q eq_refl) as [bq Hbq]. rewrite Hbq. simpl.
    rewrite Hcur. rewrite decide_True by done.
    eexists. split; [done|]. simpl. rewrite length_insert.
    split_and!; try done.
    intros [[x y] Hxy]. unfold motion. rewrite Hxy. done.
  - simpl. rewrite Hcur. rewrite decide_True by done.
    eexists. split; [done|]. simpl.
    split_and!; try done.
    intros [[x y] Hxy]. unfold motion. rewrite Hxy. done.
Qed.

(** X28. The command buffer is on the list of buffers: started without
    file arguments, the editor has one buffer beside the command buffer,
    and selecting the next buffer makes the command buffer the current
    one. *)
Theorem bufsel_reaches_cmdbuf (cfg : Config.t) (row col : Z) (f : Files.t)
    (ac : Action.t) (i : Z) :
  Action.arg ac = ArgI i → 0 < i →
  ∃ e e',
    main_init cfg (start row col f) [] = Some e
    ∧ Editor.cmdbuf e = Some 0%nat
    ∧ Editor.curbuf e = Some 1%nat
    ∧ bufsel e ac = Some e'
    ∧ Editor.curbuf e' = Editor.cmdbuf e'.
Proof.
  intros Harg Hi. unfold bufsel. rewrite Harg.
  eexists _, _. split; [reflexivity|]. simpl.
  split; [done|]. split; [done|].
  rewrite decide_False by lia. rewrite decide_True by lia.
  simpl. split; reflexivity.
Qed.

Lemma fill_is_Some (d : list Z) (i : Z) (count : nat) (ch : Z) :
  0 ≤ i → i + Z.of_nat count ≤ Z.of_nat (length d) →
  is_Some (fill d i count ch).
Proof.
  revert d i. induction count as [|k IH]; intros d i Hi Hlen; simpl; [eauto|].
  unfold store. rewrite decide_True by lia. simpl.
  apply IH; [lia|]. rewrite length_insert. lia.
Qed.

Lemma mindent_fresh (cfg : Config.t) (ln : Line.t) (n cap : Z) :
  0 < Config.tab_width cfg →
  0 ≤ n →
  Line.data ln = zeros cap →
  Z.max (n ÷ Config.tab_width cfg) (Z.rem n (Config.tab_width cfg)) < cap →
  ∃ ln',
    mindent cfg ln n = Some (ln', indent_width cfg n)
    ∧ wcs (Line.data ln') = Some (indent_string cfg n)
    ∧ length (Line.data ln') = length (Line.data ln).
Proof.
  intros Htw Hn Hdata Hcap. unfold mindent, indent_width.
  rewrite option_guard_True by lia. cbn [mbind option_bind].
  set (tabs := n ÷ Config.tab_width cfg) in *.
  set (spaces := Z.rem n (Config.tab_width cfg)) in *.
  assert (Htabs : 0 ≤ tabs) by (apply Z.quot_pos; lia).
  assert (Hspaces : 0 ≤ spaces) by (apply Z.rem_nonneg; lia).
  assert (Hlen : length (Line.data ln) = Z.to_nat cap).
  { by rewrite Hdata, length_zeros. }
  destruct (fill_is_Some (Line.data ln) 0 (Z.to_nat tabs) TAB) as [d1 Hd1];
    [lia|lia|].
  rewrite Hd1. cbn [mbind option_bind].
  apply fill_Some in Hd1 as [Hl1 Hk1].
  replace (Z.max 0 tabs) with tabs by lia.
  destruct (fill_is_Some d1 tabs (Z.to_nat (spaces - tabs)) SPACE) as [d2 Hd2];
    [lia|lia|].
  rewrite Hd2. cbn [mbind option_bind].
  apply fill_Some in Hd2 as [Hl2 Hk2].
  eexists. split; [reflexivity|]. cbn [Line.data set_data].
  split; [|congruence]. unfold indent_string. fold tabs spaces.
  set (nt := Z.to_nat tabs). set (ns := Z.to_nat (spaces - tabs)) in *.
  apply wcs_intro.
  - intros j Hj. rewrite length_app, !length_replicate in Hj.
    rewrite Hk2. destruct (decide (j < nt)%nat).
    + rewrite decide_False by lia. rewrite Hk1. rewrite decide_True by lia.
      rewrite lookup_app_l by (rewrite length_replicate; lia).
      symmetry. apply lookup_replicate_2. lia.
    + rewrite decide_True by lia.
      rewrite lookup_app_r by (rewrite length_replicate; lia).
      symmetry. apply lookup_replicate_2. rewrite length_replicate. lia.
  - intros j Hj. apply lookup_app_Some in Hj as [Hj|[_ Hj]];
      by apply lookup_replicate in Hj as [? _].
  - rewrite length_app, !length_replicate.
    rewrite Hk2. rewrite decide_False by lia.
    rewrite Hk1. rewrite decide_False by lia.
    rewrite Hdata. apply lookup_replicate_2. lia.
Qed.

(** X29. What [mindent] writes into a fresh line for an indentation of
    [n] columns: [n / tab_width] tabs, then spaces up to the index
    [n % tab_width] only, so fewer spaces than [n % tab_width] when there
    are tabs; the width it returns counts all of them. *)
Theorem mindent_writes (cfg : Config.t) (ln : Line.t) (n cap : Z) :
  0 < Config.tab_width cfg →
  0 ≤ n →
  Line.data ln = zeros cap →
  Z.max (n ÷ Config.tab_width cfg) (Z.rem n (Config.tab_width cfg)) < cap →
  ∃ ln',
    mindent cfg ln n
    = Some (ln', n ÷ Config.tab_width cfg + Z.rem n (Config.tab_width cfg))
    ∧ wcs (Line.data ln')
      = Some (replicate (Z.to_nat (n ÷ Config.tab_width cfg)) TAB
              ++ replicate (Z.to_nat (Z.rem n (Config.tab_width cfg)
                                      - n ÷ Config.tab_width cfg)) SPACE).
Proof.
  intros Htw Hn Hdata Hcap.
  destruct (mindent_fresh cfg ln n cap) as (ln' & ? & ? & _); try done.
  by exists ln'.
Qed.

Lemma indent_scan_nonneg (cfg : Config.t) (iswspace : Z → bool)
    (d : list Z) (x mx0 mx : Z) (count : nat) :
  0 ≤ Config.tab_width cfg → 0 ≤ mx0 →
  indent_scan cfg iswspace d x mx0 count = Some mx → 0 ≤ mx.
Proof.
  intros Htw. revert x mx0. induction count as [|k IH]; intros x mx0 H0 H.
  - simpl in H. congruence.
  - simpl in H. destruct (load d x) as [ch|]; simpl in H; [|done].
    case_decide; [by eapply (IH _ _ _ H)|].
    destruct (iswspace ch); [by eapply (IH _ _ _ H)|congruence].
    Unshelve. all: lia.
Qed.

Lemma length_indent_string (cfg : Config.t) (mx : Z) :
  0 < Config.tab_width cfg → 0 ≤ mx →
  Z.of_nat (length (indent_string cfg mx))
  = Z.max (mx ÷ Config.tab_width cfg) (Z.rem mx (Config.tab_width cfg)).
Proof.
  intros Htw Hmx. unfold indent_string.
  rewrite length_app, !length_replicate.
  assert (0 ≤ mx ÷ Config.tab_width cfg) by (apply Z.quot_pos; lia).
  assert (0 ≤ Z.rem mx (Config.tab_width cfg)) by (apply Z.rem_nonneg; lia).
  lia.
Qed.

(** X30. A newline typed in a line with auto-indent. The new line
    starts with the characters of [mindent] for the width [mx] measured
    before the cursor; the rest of the old line follows them when the
    indentation is of tabs only or of less than a tab, and is cut off
    otherwise; the column is the width [mindent] returns. *)
Theorem minsert_newline_indents (cfg : Config.t) (iswspace : Z → bool)
    (runcmd : Editor.t → list Z → option Editor.t)
    (e : Editor.t) (p : nat) (b : Buffer.t) (ln : Line.t) (s : list Z)
    (mx : Z) :
  Config.auto_indent cfg = true →
  0 < Config.tab_width cfg →
  Editor.mode e ≠ MODE_COMMAND →
  Editor.curbuf e = Some p →
  Editor.bufs e !! p = Some b →
  terminated b →
  Buffer.lines b !! Buffer.curline b = Some ln →
  wcs (Line.data ln) = Some s →
  0 ≤ cur_x b ≤ Z.of_nat (length s) →
  cur_x b + Z.of_nat (length s) + 1 ≤ Z.of_nat (length (Line.data ln)) →
  indent_scan cfg iswspace (Line.data ln) 0 0 (Z.to_nat (cur_x b)) = Some mx →
  indent_width cfg mx + Z.of_nat (length s) + 1 ≤ new_line_capacity cfg →
  ∃ e' b',
    minsert cfg iswspace runcmd e (Some p) NEWLINE = Some e'
    ∧ Editor.bufs e' !! p = Some b'
    ∧ strings_of b'
      = take (Buffer.curline b) (strings_of b)
        ++ Some (take (Z.to_nat (cur_x b)) s)
        :: Some (indent_string cfg mx
                 ++ if decide (mx ÷ Config.tab_width cfg = 0
                               ∨ Z.rem mx (Config.tab_width cfg) = 0)
                    then drop (Z.to_nat (cur_x b)) s else [])
        :: drop (S (Buffer.curline b)) (strings_of b)
    ∧ Buffer.curline b' = S (Buffer.curline b)
    ∧ cur_x b' = indent_width cfg mx
    ∧ cur_y b' = cur_y b + 1.
Proof.
  intros Hai Htw Hmode Hcur Hb Ht Hln Hs Hx Hcap Hmx Hnew.
  assert (Hmx0 : 0 ≤ mx).
  { eapply (indent_scan_nonneg cfg iswspace _ 0 0); [lia|lia|exact Hmx]. }
  assert (Htabs : 0 ≤ mx ÷ Config.tab_width cfg) by (apply Z.quot_pos; lia).
  assert (Hspaces : 0 ≤ Z.rem mx (Config.tab_width cfg))
    by (apply Z.rem_nonneg; lia).
  pose proof (length_indent_string cfg mx Htw Hmx0) as Hil.
  destruct (mindent_fresh cfg (Line.mk 0 (zeros (new_line_capacity cfg))) mx
              (new_line_capacity cfg)) as (nl & Hnl & Hsnl & Hlnl); try done.
  { unfold indent_width in Hnew. lia. }
  cbn [Line.data] in Hlnl. rewrite length_zeros in Hlnl.
  destruct (newline_opens cfg iswspace runcmd e p b ln nl s
              (indent_string cfg mx
               ++ if decide (mx ÷ Config.tab_width cfg = 0
                             ∨ Z.rem mx (Config.tab_width cfg) = 0)
                  then drop (Z.to_nat (cur_x b)) s else [])
              (indent_width cfg mx))
    as (e' & b' & ? & ? & ? & ? & ? & ? & _); try done.
  - rewrite Hai, Hmx. exact Hnl.
  - unfold indent_width. lia.
  - lia.
  - intros d1 Hd1. apply memcpy_Some in Hd1 as (_ & Hlen1 & Hlk1).
    set (idx := Z.to_nat (cur_x b)) in *.
    unfold indent_width in *.
    case_decide as Hplain.
    + (* no gap *)
      assert (Hfull : length (indent_string cfg mx)
                      = Z.to_nat (mx ÷ Config.tab_width cfg
                                  + Z.rem mx (Config.tab_width cfg))) by lia.
      apply wcs_intro.
      * intros i Hi. rewrite length_app, length_drop in Hi. rewrite Hlk1.
        destruct (decide (i < length (indent_string cfg mx))%nat).
        -- rewrite decide_False by lia. rewrite lookup_app_l by done.
           by apply (wcs_lookup_lt _ _ _ Hsnl).
        -- rewrite decide_True by lia. rewrite lookup_app_r by lia.
           rewrite lookup_drop, <- Hfull.
           apply (wcs_lookup_lt _ _ _ Hs). lia.
      * intros i Hi. apply lookup_app_Some in Hi as [Hi|[_ Hi]].
        -- by apply (wcs_no_zero _ _ _ Hsnl) in Hi.
        -- rewrite lookup_drop in Hi. by apply (wcs_no_zero _ _ _ Hs) in Hi.
      * rewrite length_app, length_drop. rewrite Hlk1.
        rewrite decide_True by lia. rewrite <- Hfull.
        replace (idx + (length (indent_string cfg mx) + (length s - idx)
                        - length (indent_string cfg mx)))%nat
          with (length s) by lia.
        apply (wcs_terminator _ _ Hs).
    + (* a gap: the terminator before the copy stays *)
      rewrite app_nil_r. apply wcs_intro.
      * intros i Hi. rewrite Hlk1. rewrite decide_False by lia.
        by apply (wcs_lookup_lt _ _ _ Hsnl).
      * intros i. by apply (wcs_no_zero _ _ _ Hsnl).
      * rewrite Hlk1. rewrite decide_False by lia.
        apply (wcs_terminator _ _ Hsnl).
  - by exists e', b'.
Qed.


(** ** The theorems at sample states *)

Lemma terminated_check (b : Buffer.t) :
  forallb (λ ln, bool_decide (is_Some (wcs (Line.data ln)))) (Buffer.lines b)
  = true →
  terminated b.
Proof.
  intros H ln Hin. rewrite forallb_forall in H.
  apply list_elem_of_In in Hin. apply H in Hin.
  by apply bool_decide_eq_true in Hin.
Qed.

(** Closed arithmetic facts about the sample states, by evaluation. *)
Ltac evaluated :=
  vm_compute;
  first [ reflexivity | discriminate | lia
        | split; first [ reflexivity | discriminate | lia ] ].

(** Closed decidable facts, by evaluation of the decision. *)
Ltac decided :=
  match goal with
  | |- ?P => apply (bool_decide_eq_true_1 P); vm_compute; reflexivity
  end.

Lemma mmove_lands_witness :
  ∃ b' ln s,
    mmove two_lines_state (Some 1%nat) 0 (-1)
    = Some (setbuf two_lines_state 1 b')
    ∧ Buffer.lines b' = Buffer.lines two_lines_buffer
    ∧ Buffer.curline b' = 0%nat
    ∧ cur_y b' - Z.of_nat (Buffer.curline b') = 0
    ∧ Buffer.lines two_lines_buffer !! 0%nat = Some ln
    ∧ wcs (Line.data ln) = Some s
    ∧ cur_x b' = max (min 0 (Z.of_nat (length s))) 0.
Proof.
  apply (mmove_lands two_lines_state 1 two_lines_buffer 0 (-1)).
  - reflexivity.
  - apply terminated_check. reflexivity.
  - evaluated.
Defined.

Lemma minsert_character_witness :
  ∃ d,
    minsert sample_cfg iswspace_C no_runcmd ab_state (Some 1%nat) 4294967235
    = Some (setbuf ab_state 1
              (set_x 2 (set_lines (<[0%nat := set_data d ab_line]>
                                     (Buffer.lines ab_buffer)) ab_buffer)))
    ∧ wcs d = Some [97; -61; 98]
    ∧ length d = 34%nat
    ∧ wchar_of_wint 4294967235 = -61.
Proof.
  destruct (minsert_character sample_cfg iswspace_C no_runcmd ab_state 1
              ab_buffer ab_line [97; 98] 4294967235)
    as (d & Hins & Hwcs & Hlen & _ & Hconv).
  - reflexivity.
  - reflexivity.
  - reflexivity.
  - evaluated.
  - unfold plain_key, KEY_BACKSPACE, KEY_DC, NEWLINE. lia.
  - lia.
  - evaluated.
  - exists d. split; [exact Hins|]. split; [exact Hwcs|].
    split; [exact Hlen|]. apply Hconv. lia.
Defined.

Lemma minsert_character_overrun_witness :
  minsert sample_cfg iswspace_C no_runcmd full_state (Some 1%nat) 120 = None.
Proof.
  apply (minsert_character_overrun sample_cfg iswspace_C no_runcmd full_state 1
           full_buffer full_line (replicate 17 120) 120).
  - reflexivity.
  - reflexivity.
  - reflexivity.
  - unfold plain_key, KEY_BACKSPACE, KEY_DC, NEWLINE. lia.
  - evaluated.
Defined.

Lemma minsert_nul_witness :
  ∃ d,
    minsert sample_cfg iswspace_C no_runcmd ab_state (Some 1%nat) 0
    = Some (setbuf ab_state 1
              (set_x 2 (set_lines (<[0%nat := set_data d ab_line]>
                                     (Buffer.lines ab_buffer)) ab_buffer)))
    ∧ wcs d = Some [97]
    ∧ 1 < 2.
Proof.
  apply (minsert_nul sample_cfg iswspace_C no_runcmd ab_state 1
           ab_buffer ab_line [97; 98]).
  - reflexivity.
  - reflexivity.
  - reflexivity.
  - evaluated.
  - evaluated.
Defined.

Lemma minsert_backspace_witness :
  ∃ d,
    minsert sample_cfg iswspace_C no_runcmd ab_state (Some 1%nat) KEY_BACKSPACE
    = Some (setbuf ab_state 1
              (set_x 0 (set_lines (<[0%nat := set_data d ab_line]>
                                     (Buffer.lines ab_buffer)) ab_buffer)))
    ∧ wcs d = Some [98].
Proof.
  apply (minsert_backspace sample_cfg iswspace_C no_runcmd ab_state 1
           ab_buffer ab_line [97; 98]).
  - reflexivity.
  - reflexivity.
  - reflexivity.
  - evaluated.
  - evaluated.
Defined.

Lemma minsert_delete_witness :
  ∃ d,
    minsert sample_cfg iswspace_C no_runcmd ab_state (Some 1%nat) KEY_DC
    = Some (setbuf ab_state 1
              (set_lines (<[0%nat := set_data d ab_line]>
                            (Buffer.lines ab_buffer)) ab_buffer))
    ∧ wcs d = Some [97].
Proof.
  apply (minsert_delete sample_cfg iswspace_C no_runcmd ab_state 1
           ab_buffer ab_line [97; 98]).
  - reflexivity.
  - reflexivity.
  - reflexivity.
  - evaluated.
  - evaluated.
Defined.

Lemma minsert_delete_at_end_witness :
  wcs (Line.data stale_line) = Some [97]
  ∧ ∃ d,
      minsert sample_cfg iswspace_C no_runcmd stale_state (Some 1%nat) KEY_DC
      = Some (setbuf stale_state 1
                (set_lines (<[0%nat := set_data d stale_line]>
                              (Buffer.lines stale_buffer)) stale_buffer))
      ∧ wcs d = Some [97; 99].
Proof.
  split; [reflexivity|].
  apply (minsert_delete_at_end sample_cfg iswspace_C no_runcmd stale_state 1
           stale_buffer stale_line [97] [99]).
  - reflexivity.
  - reflexivity.
  - reflexivity.
  - reflexivity.
  - reflexivity.
  - evaluated.
  - evaluated.
Defined.

Lemma minsert_newline_splits_witness :
  ∃ e' b',
    minsert plain_cfg iswspace_C no_runcmd ab_state (Some 1%nat) NEWLINE
    = Some e'
    ∧ Editor.bufs e' !! 1%nat = Some b'
    ∧ strings_of b' = [Some [97]; Some [98]]
    ∧ Buffer.curline b' = 1%nat
    ∧ cur_x b' = 0
    ∧ cur_y b' = 1.
Proof.
  apply (minsert_newline_splits plain_cfg iswspace_C no_runcmd ab_state 1
           ab_buffer ab_line [97; 98]).
  - reflexivity.
  - discriminate.
  - reflexivity.
  - reflexivity.
  - apply terminated_check. reflexivity.
  - reflexivity.
  - reflexivity.
  - evaluated.
  - evaluated.
  - evaluated.
Defined.

Lemma minsert_backspace_joins_witness :
  ∃ e' b',
    minsert sample_cfg iswspace_C no_runcmd two_lines_state (Some 1%nat)
      KEY_BACKSPACE = Some e'
    ∧ Editor.bufs e' !! 1%nat = Some b'
    ∧ strings_of b' = [Some [97; 98; 99]]
    ∧ Buffer.curline b' = 0%nat
    ∧ cur_x b' = 2
    ∧ cur_y b' = 0.
Proof.
  apply (minsert_backspace_joins sample_cfg iswspace_C no_runcmd
           two_lines_state 1 two_lines_buffer 0 first_line second_line
           [97; 98] [99]).
  - reflexivity.
  - apply terminated_check. reflexivity.
  - reflexivity.
  - reflexivity.
  - reflexivity.
  - reflexivity.
  - reflexivity.
  - reflexivity.
  - evaluated.
Defined.

Lemma newline_then_backspace_witness :
  ∃ e1 e2 b2,
    minsert plain_cfg iswspace_C no_runcmd ab_state (Some 1%nat) NEWLINE
    = Some e1
    ∧ minsert plain_cfg iswspace_C no_runcmd e1 (Some 1%nat) KEY_BACKSPACE
      = Some e2
    ∧ Editor.bufs e2 !! 1%nat = Some b2
    ∧ strings_of b2 = [Some [97; 98]]
    ∧ Buffer.curline b2 = 0%nat
    ∧ cur_x b2 = 1
    ∧ cur_y b2 = 0.
Proof.
  apply (newline_then_backspace plain_cfg iswspace_C no_runcmd ab_state 1
           ab_buffer ab_line [97; 98]).
  - reflexivity.
  - discriminate.
  - reflexivity.
  - reflexivity.
  - apply terminated_check. reflexivity.
  - reflexivity.
  - reflexivity.
  - evaluated.
  - evaluated.
  - evaluated.
Defined.

Lemma mreadbuf_records_witness :
  ∃ e' b',
    mreadbuf sample_cfg (loading notes_files) (Some 0%nat) "notes.txt"
    = Some (e', 1)
    ∧ Editor.bufs e' !! 0%nat = Some b'
    ∧ strings_of b' = [Some [97; 98]; Some [99]; Some []]
    ∧ mnumlines e' (Some 0%nat) = 3.
Proof.
  apply (mreadbuf_records sample_cfg (loading notes_files) 0 new_buffer
           new_line "notes.txt" [[97; 98]; [99]]).
  - reflexivity.
  - reflexivity.
  - reflexivity.
  - evaluated.
  - evaluated.
  - reflexivity.
  - discriminate.
  - decided.
Defined.

Lemma mreadbuf_unterminated_witness :
  ∃ e' b',
    mreadbuf sample_cfg (loading ragged_files) (Some 0%nat) "notes.txt"
    = Some (e', 1)
    ∧ Editor.bufs e' !! 0%nat = Some b'
    ∧ strings_of b' = [Some [97]; Some []].
Proof.
  destruct (mreadbuf_unterminated sample_cfg (loading ragged_files) 0
              new_buffer new_line "notes.txt" [97; 98; 0; 99] 97)
    as (e' & b' & Hread & Hb & Hstr & _).
  - reflexivity.
  - reflexivity.
  - reflexivity.
  - evaluated.
  - reflexivity.
  - reflexivity.
  - discriminate.
  - decided.
  - evaluated.
  - exists e', b'. split; [exact Hread|]. split; [exact Hb|]. exact Hstr.
Defined.


Lemma save_without_effect_witness :
  save sample_cfg two_lines_state save_action = Some two_lines_state.
Proof.
  apply (save_without_effect sample_cfg two_lines_state save_action 1
           two_lines_buffer None).
  - reflexivity.
  - reflexivity.
  - reflexivity.
  - left. split; reflexivity.
Defined.


Lemma nothing_invoked_witness :
  invocations sample_cfg iswspace_C wcsrtombs_ascii (λ _, None)
    [45; 51; 100; 100] = []
  ∧ ∀ (St : Type) (call : Action.t → St → St) (ac : Action.t) (s : St),
      mrepeat sample_cfg call ac (parse_count iswspace_C [45; 51; 100; 100]).1 s
      = s.
Proof.
  apply (nothing_invoked sample_cfg iswspace_C wcsrtombs_ascii (λ _, None)
           [45; 51; 100; 100]).
  left. evaluated.
Defined.

Lemma cmd_matches_prefix_witness :
  cmd_matches [100] (token_length [100]) dd_action = true
  ↔ ∃ name, Action.cmd dd_action = Some name
            ∧ ([100] `prefix_of` name ∨ [100] = [Action.key dd_action]).
Proof.
  apply (cmd_matches_prefix [100] dd_action). reflexivity.
Defined.

Lemma empty_command_invokes_all_witness :
  invocations loop_cfg iswspace_C wcsrtombs_ascii (λ _, None) []
  = [dd_action; save_action].
Proof.
  apply (empty_command_invokes_all loop_cfg iswspace_C wcsrtombs_ascii
           (λ _, None)).
  evaluated.
Defined.

Lemma mruncmd_mode_witness :
  (∀ e',
     mruncmd_state sample_cfg iswspace_C wcsrtombs_ascii
       (λ ac e, setmode e (Action.mk None 0 fn_setmode (ArgI 0))) no_shell
       [100; 100] (Some fresh) = Some e' →
     (∃ entry, entry ∈ Config.buffer_actions sample_cfg
               ∧ cmd_matches (parse_count iswspace_C [100; 100]).2
                   (token_length (parse_count iswspace_C [100; 100]).2) entry
                 = true) →
     Editor.mode e' = MODE_COMMAND)
  ∧ ((∀ entry, entry ∈ Config.buffer_actions sample_cfg →
               cmd_matches (parse_count iswspace_C [100; 100]).2
                 (token_length (parse_count iswspace_C [100; 100]).2) entry
               = false) →
     mruncmd_state sample_cfg iswspace_C wcsrtombs_ascii
       (λ ac e, setmode e (Action.mk None 0 fn_setmode (ArgI 0))) no_shell
       [100; 100] (Some fresh) = Some fresh).
Proof.
  apply (mruncmd_mode sample_cfg iswspace_C wcsrtombs_ascii
           (λ ac e, setmode e (Action.mk None 0 fn_setmode (ArgI 0)))
           no_shell [100; 100] fresh).
Defined.

Lemma handle_key_digit_witness :
  handle_key loop_cfg iswspace_C wcsrtombs_ascii no_regcomp no_regexec
    no_mouse no_shell 2 started 51
  = Some (set_repcnt 3 started).
Proof.
  apply (handle_key_digit loop_cfg iswspace_C wcsrtombs_ascii no_regcomp
           no_regexec no_mouse no_shell 2 started 51).
  - reflexivity.
  - reflexivity.
  - lia.
  - discriminate.
  - intros [H _]. discriminate H.
Defined.

Lemma handle_key_escape_witness :
  handle_key loop_cfg iswspace_C wcsrtombs_ascii no_regcomp no_regexec
    no_mouse no_shell 2 fresh 27
  = Some (set_mode MODE_NORMAL fresh).
Proof.
  apply (handle_key_escape loop_cfg iswspace_C wcsrtombs_ascii no_regcomp
           no_regexec no_mouse no_shell 2 fresh).
  - reflexivity.
  - discriminate.
Defined.

Lemma freeln_deletes_witness :
  (length (Buffer.lines two_lines_buffer) = 1%nat →
   freeln two_lines_state = Some two_lines_state)
  ∧ ((2 ≤ length (Buffer.lines two_lines_buffer))%nat →
     ∃ b',
       freeln two_lines_state = Some (setbuf two_lines_state 1 b')
       ∧ Buffer.lines b' = [first_line]
       ∧ Buffer.curline b' = 0%nat
       ∧ Buffer.cursor b' = Buffer.cursor two_lines_buffer).
Proof.
  apply (freeln_deletes two_lines_state 1 two_lines_buffer).
  - reflexivity.
  - reflexivity.
  - evaluated.
Defined.

Lemma coc_centers_witness :
  ∃ b',
    coc fresh = Some (setbuf fresh 1 b')
    ∧ b' = set_starty (-12) fresh_buffer
    ∧ cur_y b' - cur_starty b' = 12
    ∧ row_in_view fresh b'.
Proof.
  apply (coc_centers fresh 1 fresh_buffer).
  - reflexivity.
  - reflexivity.
  - evaluated.
Defined.

Lemma bufdel_last_witness :
  ∃ e',
    bufdel on_cmdbuf close_buffer = Some e'
    ∧ Editor.curbuf e' = None
    ∧ Editor.buflist e' = Some 1%nat
    ∧ length (Editor.bufs e') = 2%nat
    ∧ (is_Some (arg_xy (Action.arg line_up)) → motion e' line_up = None)
    ∧ freeln e' = None
    ∧ coc e' = None.
Proof.
  apply (bufdel_last on_cmdbuf close_buffer line_up 0 cmd_buffer).
  - reflexivity.
  - reflexivity.
  - reflexivity.
  - reflexivity.
  - intros q [= <-]. vm_compute. eauto.
Defined.

Lemma bufsel_reaches_cmdbuf_witness :
  ∃ e e',
    main_init sample_cfg (start 24 80 no_files) [] = Some e
    ∧ Editor.cmdbuf e = Some 0%nat
    ∧ Editor.curbuf e = Some 1%nat
    ∧ bufsel e next_buffer = Some e'
    ∧ Editor.curbuf e' = Editor.cmdbuf e'.
Proof.
  apply (bufsel_reaches_cmdbuf sample_cfg 24 80 no_files next_buffer 1).
  - reflexivity.
  - lia.
Defined.

Lemma mindent_writes_witness :
  ∃ ln',
    mindent sample_cfg new_line 5 = Some (ln', 2)
    ∧ wcs (Line.data ln') = Some [9].
Proof.
  apply (mindent_writes sample_cfg new_line 5 34).
  - evaluated.
  - lia.
  - reflexivity.
  - evaluated.
Defined.

Lemma minsert_newline_indents_witness :
  ∃ e' b',
    minsert sample_cfg iswspace_C no_runcmd indented_state (Some 1%nat) NEWLINE
    = Some e'
    ∧ Editor.bufs e' !! 1%nat = Some b'
    ∧ strings_of b' = [Some [9; 32; 120]; Some [9]]
    ∧ Buffer.curline b' = 1%nat
    ∧ cur_x b' = 2
    ∧ cur_y b' = 1.
Proof.
  apply (minsert_newline_indents sample_cfg iswspace_C no_runcmd
           indented_state 1 indented_buffer indented_line [9; 32; 120; 121] 5).
  - reflexivity.
  - evaluated.
  - discriminate.
  - reflexivity.
  - reflexivity.
  - apply terminated_check. reflexivity.
  - reflexivity.
  - reflexivity.
  - evaluated.
  - evaluated.
  - reflexivity.
  - evaluated.
Defined.
